(** * clean.py: PDF text cleaning and formula-page detection

    A shallow embedding of [clean.py] and the properties of its text-repair
    functions, its line classifier, its metadata remover and its page loop.

    A Python [str] is a sequence of Unicode code points: it is modelled as a
    list of code points, each an [N].  Regular expressions are modelled by a
    small backtracking matcher that follows the search order of Python's [re]
    (leftmost start, left alternative first, greedy repetition), so that a
    pattern of the source is written down here as the same pattern. *)

From Stdlib Require Import String Ascii.
From Stdlib Require Import NArith Bool Arith Lia List.
Import ListNotations.

Set Implicit Arguments.
Local Open Scope N_scope.

(** ** Code points and strings *)

Definition cp := N.
Definition str := list cp.

(** An ASCII literal of the source as a [str]. *)
Definition lit (s : string) : str := map N_of_ascii (list_ascii_of_string s).
Arguments lit s%_string.

Definition in_range (lo hi c : cp) : bool := (lo <=? c) && (c <=? hi).

Definition is_upper_AZ (c : cp) : bool := in_range 65 90 c.
Definition is_lower_az (c : cp) : bool := in_range 97 122 c.
Definition is_alpha_azAZ (c : cp) : bool := is_upper_AZ c || is_lower_az c.
Definition is_digit_09 (c : cp) : bool := in_range 48 57 c.
Definition is_ascii (c : cp) : bool := c <? 128.

(** [str.isspace] on one code point, which is also the class [\s] of a [str]
    pattern and what [str.strip()] removes. *)
Definition py_isspace (c : cp) : bool :=
  in_range 9 13 c || in_range 28 32 c || (c =? 133) || (c =? 160)
  || (c =? 5760) || in_range 8192 8202 c || (c =? 8232) || (c =? 8233)
  || (c =? 8239) || (c =? 8287) || (c =? 12288).

(** The line boundaries of [str.splitlines]; a carriage return followed by a
    line feed counts once. *)
Definition is_linebreak (c : cp) : bool :=
  in_range 10 13 c || in_range 28 30 c || (c =? 133) || (c =? 8232)
  || (c =? 8233).

Definition NL : cp := 10.
Definition CR : cp := 13.
Definition SPACE : cp := 32.

(** ** The interpreter's Unicode tables

    Which code points above ASCII are decimal digits or alphanumeric, and the
    case mappings above ASCII, come from the Unicode database of the Python
    build that runs the script.  The ASCII range is fixed and written out;
    the rest is a parameter of the model. *)

Record unicode_db := {
  uni_decimal : cp -> bool;          (* category Nd *)
  uni_alnum : cp -> bool;            (* str.isalnum *)
  uni_tolower : cp -> list cp;       (* full lower-case mapping *)
  uni_toupper : cp -> list cp;       (* full upper-case mapping *)
  uni_final_sigma : str -> str -> bool
    (* is a capital sigma, between the text before it (nearest first) and the
       text after it, in final position *)
}.

(** A database with nothing above ASCII, for running the model. *)
Definition ascii_only_db : unicode_db :=
  {| uni_decimal := fun _ => false;
     uni_alnum := fun _ => false;
     uni_tolower := fun c => [c];
     uni_toupper := fun c => [c];
     uni_final_sigma := fun _ _ => false |}.

Section Unicode.

Variable U : unicode_db.

(** [\d] *)
Definition re_digit (c : cp) : bool :=
  if is_ascii c then is_digit_09 c else uni_decimal U c.

(** [\w]: alphanumeric or underscore.  No white-space code point is
    alphanumeric (they are separators and controls). *)
Definition re_word (c : cp) : bool :=
  if is_ascii c then is_alpha_azAZ c || is_digit_09 c || (c =? 95)
  else negb (py_isspace c) && uni_alnum U c.

(** The case mappings of one code point.  White space has no case. *)
Definition to_lower_full (c : cp) : list cp :=
  if is_ascii c then [if is_upper_AZ c then c + 32 else c]
  else if py_isspace c then [c]
  else uni_tolower U c.

Definition to_upper_full (c : cp) : list cp :=
  if is_ascii c then [if is_lower_az c then c - 32 else c]
  else if py_isspace c then [c]
  else uni_toupper U c.

(** [str.lower]: code point by code point, a capital sigma (U+03A3) by its
    position. [before] is the text already passed, nearest first. *)
Fixpoint lower_from (before s : str) : str :=
  match s with
  | [] => []
  | c :: s' =>
      (if (c =? 931)
       then [if uni_final_sigma U before s' then 962 else 963]
       else to_lower_full c) ++ lower_from (c :: before) s'
  end.

Definition py_lower (s : str) : str := lower_from [] s.

(** [str.upper] *)
Definition py_upper (s : str) : str := flat_map to_upper_full s.

End Unicode.

(** ** String methods *)

Fixpoint drop_while (p : cp -> bool) (s : str) : str :=
  match s with
  | [] => []
  | c :: s' => if p c then drop_while p s' else s
  end.

Definition lstrip_by (p : cp -> bool) (s : str) : str := drop_while p s.
Definition rstrip_by (p : cp -> bool) (s : str) : str := rev (drop_while p (rev s)).
Definition strip_by (p : cp -> bool) (s : str) : str := rstrip_by p (lstrip_by p s).

(** [s.strip()], [s.rstrip()] and [s.strip("\n")] *)
Definition py_strip (s : str) : str := strip_by py_isspace s.
Definition py_rstrip (s : str) : str := rstrip_by py_isspace s.
Definition strip_newlines (s : str) : str := strip_by (N.eqb NL) s.

(** [s.startswith(p)] *)
Fixpoint startswith (p s : str) : bool :=
  match p, s with
  | [], _ => true
  | _ :: _, [] => false
  | a :: p', c :: s' => (a =? c) && startswith p' s'
  end.

(** [sub in s] *)
Fixpoint contains (sub s : str) : bool :=
  startswith sub s || match s with [] => false | _ :: s' => contains sub s' end.

(** [sep.join(l)] *)
Fixpoint join (sep : str) (l : list str) : str :=
  match l with
  | [] => []
  | [x] => x
  | x :: l' => x ++ sep ++ join sep l'
  end.

(** [s.split(sep)] for a one-character separator: the pieces between the
    separators, empty ones included; the empty string gives one empty piece. *)
Fixpoint split_on (sep : cp) (s : str) : list str :=
  match s with
  | [] => [[]]
  | c :: s' =>
      if (c =? sep) then [] :: split_on sep s'
      else match split_on sep s' with
           | [] => [[c]]
           | x :: l => (c :: x) :: l
           end
  end.

(** [s.splitlines()]: the lines without their boundaries; no empty last line
    after a final boundary, and no line at all for the empty string. *)
Fixpoint splitlines (s : str) : list str :=
  match s with
  | [] => []
  | c :: s' =>
      if is_linebreak c then
        match s' with
        | c' :: s'' =>
            if (c =? CR) && (c' =? NL)
            then [] :: splitlines s''
            else [] :: splitlines s'
        | [] => [[]]
        end
      else match splitlines s' with
           | [] => [[c]]
           | x :: l => (c :: x) :: l
           end
  end.

(** [s.replace(old, new)] for a non-empty [old]: the occurrences of [old] from
    the left, without overlap. [skip] counts the characters of an occurrence
    still to pass. *)
Fixpoint replace_from (old new : str) (skip : nat) (s : str) : str :=
  match s with
  | [] => []
  | c :: s' =>
      match skip with
      | S k => replace_from old new k s'
      | O => if startswith old s
             then new ++ replace_from old new (length old - 1)%nat s'
             else c :: replace_from old new 0%nat s'
      end
  end.

Definition py_replace (old new s : str) : str := replace_from old new 0%nat s.

(** [s.count(sub)] for a non-empty [sub] *)
Fixpoint count_from (sub : str) (skip : nat) (s : str) : nat :=
  match s with
  | [] => 0%nat
  | c :: s' =>
      match skip with
      | S k => count_from sub k s'
      | O => if startswith sub s
             then S (count_from sub (length sub - 1)%nat s')
             else count_from sub 0%nat s'
      end
  end.

Definition py_count (sub s : str) : nat := count_from sub 0%nat s.

(** ** Regular expressions

    The constructs the patterns of [clean.py] use.  [Chr p] is one character
    of a class; repetition is greedy; [Bol] is [^] and [Eol] is [$] without
    the MULTILINE flag; [WordB] is [\b]; [Group] is the capturing group 1. *)

Inductive regex : Type :=
| Eps
| Chr (p : cp -> bool)
| Seq (a b : regex)
| Alt (a b : regex)
| Star (a : regex)
| Bol
| Eol
| WordB
| Group (a : regex).

Definition Plus (a : regex) : regex := Seq a (Star a).
Definition Opt (a : regex) : regex := Alt a Eps.
Definition AtLeast2 (a : regex) : regex := Seq a (Seq a (Star a)).
Definition Lit (s : str) : regex := fold_right (fun c r => Seq (Chr (N.eqb c)) r) Eps s.

(** What the matcher carries: the character before the position (none at the
    start of the string), the text from the position on, and group 1. *)
Record mstate := { m_prev : option cp; m_rest : str; m_group : option str }.

Definition start_state (prev : option cp) (s : str) : mstate :=
  {| m_prev := prev; m_rest := s; m_group := None |}.

Section Regex.

Variable U : unicode_db.

Definition word_at (o : option cp) : bool :=
  match o with Some c => re_word U c | None => false end.

(** [matches r st k]: match [r] at [st], then continue with [k]; the first
    success in backtracking order. *)
Fixpoint matches (r : regex) (st : mstate) (k : mstate -> option mstate)
  : option mstate :=
  match r with
  | Eps => k st
  | Chr p =>
      match m_rest st with
      | c :: s => if p c
                  then k {| m_prev := Some c; m_rest := s; m_group := m_group st |}
                  else None
      | [] => None
      end
  | Seq a b => matches a st (fun st' => matches b st' k)
  | Alt a b =>
      match matches a st k with
      | Some x => Some x
      | None => matches b st k
      end
  | Star a =>
      (fix loop (n : nat) (st : mstate) : option mstate :=
         match n with
         | O => k st
         | S n' =>
             match matches a st
                     (fun st' =>
                        if (length (m_rest st') <? length (m_rest st))%nat
                        then loop n' st' else None) with
             | Some x => Some x
             | None => k st
             end
         end) (length (m_rest st)) st
  | Bol => match m_prev st with None => k st | Some _ => None end
  | Eol =>
      match m_rest st with
      | [] => k st
      | [c] => if (c =? NL) then k st else None
      | _ => None
      end
  | WordB =>
      if xorb (word_at (m_prev st)) (word_at (hd_error (m_rest st)))
      then k st else None
  | Group a =>
      matches a st
        (fun st' =>
           k {| m_prev := m_prev st'; m_rest := m_rest st';
                m_group := Some (firstn (length (m_rest st) - length (m_rest st'))
                                        (m_rest st)) |})
  end.

(** A match of [r] at a position: the state at its end. *)
Definition match_at (r : regex) (prev : option cp) (s : str) : option mstate :=
  matches r (start_state prev s) Some.

(** [re.match(r, s)] *)
Definition re_match (r : regex) (s : str) : option mstate := match_at r None s.

(** [re.search(r, s)]: the first position with a match. *)
Fixpoint search_from (r : regex) (prev : option cp) (s : str) : option mstate :=
  match match_at r prev s with
  | Some x => Some x
  | None => match s with
            | [] => None
            | c :: s' => search_from r (Some c) s'
            end
  end.

Definition re_search (r : regex) (s : str) : option mstate := search_from r None s.

Definition is_some {A} (o : option A) : bool :=
  match o with Some _ => true | None => false end.

(** [r.sub(repl, s)] with a function [repl] of the matched text: the matches
    from the left, without overlap.  No pattern of the source matches the
    empty string; an empty match counts as none here. [skip] counts the
    characters of a match still to pass. *)
Fixpoint sub_from (r : regex) (repl : str -> str) (skip : nat)
                  (prev : option cp) (s : str) : str :=
  match s with
  | [] => []
  | c :: s' =>
      match skip with
      | S k => sub_from r repl k (Some c) s'
      | O =>
          match match_at r prev s with
          | Some st' =>
              match (length s - length (m_rest st'))%nat with
              | O => c :: sub_from r repl 0 (Some c) s'
              | S k => repl (firstn (S k) s) ++ sub_from r repl k (Some c) s'
              end
          | None => c :: sub_from r repl 0 (Some c) s'
          end
      end
  end.

Definition re_sub (r : regex) (repl : str -> str) (s : str) : str :=
  sub_from r repl 0 None s.

(** ** The patterns of the source *)

Definition non_space (c : cp) : bool := negb (py_isspace c).

(** [MATH_SYMBOLS]: the class of operators, Greek letters and brackets. *)
Definition math_symbols : list cp :=
  lit "=<>" ++
  [8776; 8804; 8805; 177; 215; 247; 8721; 8719; 8747; 8730; 8734; 176;
   960; 956; 963; 916; 955; 945; 946; 947; 952; 966; 968; 969] ++
  lit "/\^{}_".

Definition in_class (l : list cp) (c : cp) : bool := existsb (N.eqb c) l.

Definition MATH_SYMBOLS : regex := Chr (in_class math_symbols).

Definition is_alnum_ascii (c : cp) : bool := is_alpha_azAZ c || is_digit_09 c.

Definition MATH_TOKENS : list regex :=
  [ Lit (lit "\frac"); Lit (lit "\sqrt"); Lit (lit "\sum"); Lit (lit "\int");
    Seq WordB (Seq (Plus (Chr (re_digit U))) (Seq (Lit (lit "/"))
      (Seq (Plus (Chr (re_digit U))) WordB)));
    Seq (Chr is_alpha_azAZ) (Seq (Lit (lit "^")) (Chr (re_digit U)));
    Seq (Chr is_alpha_azAZ) (Seq (Lit (lit "_")) (Chr is_alnum_ascii));
    MATH_SYMBOLS ].

Fixpoint alt_all (l : list regex) : regex :=
  match l with
  | [] => Eps
  | [x] => x
  | x :: l' => Alt x (alt_all l')
  end.

(** ["(" + ")|(".join(MATH_TOKENS) + ")"] *)
Definition MATH_COMBINED : regex := alt_all MATH_TOKENS.

Definition is_cjk (c : cp) : bool :=
  in_range 13312 19903 c || in_range 19968 40959 c || in_range 63744 64255 c
  || in_range 131072 183983 c || in_range 194560 195103 c.

Definition CHINESE_CHAR_PATTERN : regex := Chr is_cjk.

(** [\b(?:[A-Z]\s+){2,}[A-Z]\b] *)
Definition SPACED_CAPS_PATTERN : regex :=
  Seq WordB
    (Seq (AtLeast2 (Seq (Chr is_upper_AZ) (Plus (Chr py_isspace))))
         (Seq (Chr is_upper_AZ) WordB)).

Definition is_alnum_dash (c : cp) : bool := is_alnum_ascii c || (c =? 45).

(** The three alternatives of [URL_PATTERN]: [https?://] and non-space
    characters; [www\.], a letter or digit, letters, digits and dashes, a dot
    and non-space characters; [doi\.org/], or [doi:] and any white space, and
    non-space characters. *)
Definition URL_PATTERN : regex :=
  Alt (Seq (Lit (lit "http")) (Seq (Opt (Lit (lit "s")))
         (Seq (Lit (lit "://")) (Plus (Chr non_space)))))
   (Alt (Seq (Lit (lit "www.")) (Seq (Chr is_alnum_ascii)
           (Seq (Star (Chr is_alnum_dash))
              (Seq (Lit (lit ".")) (Plus (Chr non_space))))))
        (Seq (Alt (Lit (lit "doi.org/"))
                  (Seq (Lit (lit "doi:")) (Star (Chr py_isspace))))
             (Plus (Chr non_space)))).

(** ** The text-repair functions *)

Definition remove_chinese_characters (text : str) : str :=
  match text with
  | [] => text
  | _ => re_sub CHINESE_CHAR_PATTERN (fun _ => []) text
  end.

Definition remove_urls (text : str) : str :=
  match text with
  | [] => text
  | _ => re_sub URL_PATTERN (fun _ => []) text
  end.

(** [match.group(0).replace(" ", "")] *)
Definition drop_spaces (m : str) : str := py_replace [SPACE] [] m.

Definition collapse_spaced_capital_sequences (text : str) : str :=
  match text with
  | [] => text
  | _ => re_sub SPACED_CAPS_PATTERN drop_spaces text
  end.

Definition not_newline (c : cp) : bool := negb (c =? NL).

(** [^\s*\d+\.\s+(G)$] with the group [G = [A-Za-z].*]; the dot is any
    character but a line feed. *)
Definition NUMERIC_HEADING : regex :=
  Seq Bol (Seq (Star (Chr py_isspace)) (Seq (Plus (Chr (re_digit U)))
    (Seq (Lit (lit ".")) (Seq (Plus (Chr py_isspace))
      (Seq (Group (Seq (Chr is_alpha_azAZ) (Star (Chr not_newline)))) Eol))))).

Definition remove_numeric_heading_prefix (line : str) : str :=
  match line with
  | [] => line
  | _ =>
      match re_match NUMERIC_HEADING line with
      | Some st => match m_group st with Some g => g | None => line end
      | None => line
      end
  end.

(** ** The line-drop classifier *)

Definition caption_prefixes : list str :=
  [lit "figure "; lit "figure:"; lit "fig "; lit "fig."; lit "fig:";
   lit "table "; lit "table."; lit "table:"].

(** [s.startswith((p1, p2, ...))] *)
Definition startswith_any (ps : list str) (s : str) : bool :=
  existsb (fun p => startswith p s) ps.

Definition bullet_glyphs : list cp := [45; 8226; 8226; 9642; 9702; 8227; 9830; 61656].

Definition dot_or_paren (c : cp) : bool := (c =? 46) || (c =? 41).

(** [^[\-•...]+\s+] *)
Definition BULLET : regex :=
  Seq Bol (Seq (Plus (Chr (in_class bullet_glyphs))) (Plus (Chr py_isspace))).

(** [^\(?[a-z]\)\s+] *)
Definition LETTER_LABEL : regex :=
  Seq Bol (Seq (Opt (Lit (lit "("))) (Seq (Chr is_lower_az)
    (Seq (Lit (lit ")")) (Plus (Chr py_isspace))))).

(** [^\d+[\.\)]\s+[a-z]] *)
Definition NUMBERED_SUBITEM : regex :=
  Seq Bol (Seq (Plus (Chr (re_digit U))) (Seq (Chr dot_or_paren)
    (Seq (Plus (Chr py_isspace)) (Chr is_lower_az)))).

(** [^\d+[\.\)]\s*$] *)
Definition BARE_NUMBER : regex :=
  Seq Bol (Seq (Plus (Chr (re_digit U))) (Seq (Chr dot_or_paren)
    (Seq (Star (Chr py_isspace)) Eol))).

(** The five rules, each on the stripped line. *)
Definition caption_rule (stripped : str) : bool :=
  startswith_any caption_prefixes (py_lower U stripped).
Definition bullet_rule (stripped : str) : bool :=
  is_some (re_match BULLET stripped).
Definition letter_label_rule (stripped : str) : bool :=
  is_some (re_match LETTER_LABEL (py_lower U stripped)).
Definition numbered_subitem_rule (stripped : str) : bool :=
  is_some (re_match NUMBERED_SUBITEM stripped).
Definition bare_number_rule (stripped : str) : bool :=
  is_some (re_match BARE_NUMBER stripped).

Definition should_drop_line (line : str) : bool :=
  match line with
  | [] => false
  | _ =>
      let stripped := py_strip line in
      match stripped with
      | [] => false
      | _ =>
          if caption_rule stripped then true
          else if bullet_rule stripped then true
          else if letter_label_rule stripped then true
          else if numbered_subitem_rule stripped then true
          else if bare_number_rule stripped then true
          else false
      end
  end.

(** ** The math-likeness detector *)

Definition is_math_like (snippet : str) : bool :=
  match snippet with
  | [] => false
  | _ => is_some (re_search MATH_COMBINED snippet)
  end.

End Regex.

(** ** The article-metadata remover *)

Section ArticleInfo.

Variable U : unicode_db.

Definition section_keywords : list str :=
  [lit "ARTICLE INFO"; lit "ARTICLE INFORMATION"; lit "ARTICLE HISTORY";
   lit "KEYWORDS"].

Definition metadata_cues : list str :=
  [lit "received:"; lit "accepted:"; lit "published:"; lit "doi:";
   lit "doi.org"; lit "keywords:"; lit "copyright"; [169]; lit "elsevier";
   lit "springer"; lit "all rights reserved"; lit "article history";
   lit "available online"; lit "e-mail:"; lit "email:";
   lit "correspondence:"; lit "@"].

(** [any(keyword in s for keyword in ks)] *)
Definition contains_any (ks : list str) (s : str) : bool :=
  existsb (fun k => contains k s) ks.

(** The variables of the loop over the lines. *)
Record scan := {
  cleaned_lines : list str;
  title_lines : list str;
  found_abstract : bool;
  skip_until_abstract : bool;
  collecting_title : bool
}.

Definition scan_init : scan :=
  {| cleaned_lines := []; title_lines := []; found_abstract := false;
     skip_until_abstract := false; collecting_title := true |}.

(** One turn of the loop; every [continue] ends the turn. *)
Definition scan_line (sc : scan) (line : str) : scan :=
  let stripped := py_strip line in
  let upper := py_upper U stripped in
  if contains (lit "ABSTRACT") upper && negb (found_abstract sc) then
    {| cleaned_lines :=
         (cleaned_lines sc
            ++ match title_lines sc with
               | [] => []
               | _ => title_lines sc ++ [[]]
               end)
         ++ [line];
       title_lines := title_lines sc;
       found_abstract := true;
       skip_until_abstract := false;
       collecting_title := false |}
  else if negb (found_abstract sc) && contains_any section_keywords upper then
    {| cleaned_lines := cleaned_lines sc;
       title_lines := title_lines sc;
       found_abstract := found_abstract sc;
       skip_until_abstract := true;
       collecting_title := false |}
  else if negb (found_abstract sc) && skip_until_abstract sc then sc
  else if negb (found_abstract sc) && negb (skip_until_abstract sc)
          && collecting_title sc then
    match stripped with
    | [] => sc
    | _ =>
        if negb (contains_any metadata_cues (py_lower U stripped)) then
          if negb (is_some (re_search U URL_PATTERN stripped)) then
            {| cleaned_lines := cleaned_lines sc;
               title_lines := title_lines sc ++ [line];
               found_abstract := found_abstract sc;
               skip_until_abstract := skip_until_abstract sc;
               collecting_title := collecting_title sc |}
          else sc
        else sc
    end
  else if found_abstract sc then
    {| cleaned_lines := cleaned_lines sc ++ [remove_urls U line];
       title_lines := title_lines sc;
       found_abstract := found_abstract sc;
       skip_until_abstract := skip_until_abstract sc;
       collecting_title := collecting_title sc |}
  else sc.

Definition nonblank (s : str) : bool :=
  match py_strip s with [] => false | _ => true end.

Definition clean_article_info_section (text : str) : str :=
  match text with
  | [] => text
  | _ =>
      let lines := split_on NL text in
      let sc := fold_left scan_line lines scan_init in
      if negb (found_abstract sc) then
        join [NL] (filter nonblank (map (remove_urls U) lines))
      else join [NL] (cleaned_lines sc)
  end.

(** No line has the abstract marker, as the loop looks for it. *)
Definition no_abstract_marker (lines : list str) : Prop :=
  forall line, In line lines ->
               contains (lit "ABSTRACT") (py_upper U (py_strip line)) = false.

End ArticleInfo.

(** ** The page loop *)

(** A page as the PDF engine and the OCR engine present it: the extracted
    text, the PNG bytes of the rendering, and the OCR engine's reading of that
    image. *)
Record Page := {
  get_text : str;
  render_page_png : list Byte.byte;
  ocr_image_bytes : str
}.

(** The paths the run writes to: [page_<n>.png] and
    [formula_<BASE>_p<n>_<fid>.png] under the image directory, which differ
    from each other by their names, and any path that is none of these. *)
Inductive file : Type :=
| PageImage (n : nat)
| FormulaImage (n fid : nat)
| OtherFile.

(** What a run takes from where it runs: the line separator of the host
    ([os.linesep]), which a file opened in text mode writes for each line
    feed, and the path of the output text file ([OUT_TXT], given by
    [--out_txt] or made from the name of the input), which can be the path of
    one of the images or another path. *)
Record host := { linesep : str; out_txt : file }.

(** [open(f, "w...")] creates or empties the file; [write] appends to it. *)
Inductive event : Type :=
| Open (f : file)
| WriteBytes (f : file) (data : list Byte.byte).

Record FormulaRecord := {
  rec_id : nat;
  rec_page : nat;
  rec_imgfile : file;
  rec_ocr : str;
  rec_lines : list (nat * str)
}.

Record State := {
  formula_counter : nat;
  formula_records : list FormulaRecord;
  collected_segments : list str;
  trace : list event
}.

Definition initial_state : State :=
  {| formula_counter := 0%nat; formula_records := []; collected_segments := [];
     trace := [] |}.

Definition FFFD : cp := 65533.
Definition DEGREE : cp := 176.
Definition FORMULA : str := lit "<formula>".

(** The replacement character, which extraction leaves for a degree sign. *)
Definition is_garble (c : cp) : bool := FFFD =? c.

Section Pages.

Variable U : unicode_db.

(** [�+C] *)
Definition CELSIUS_GARBLE : regex := Seq (Plus (Chr is_garble)) (Lit (lit "C")).

(** The Celsius repair: the literal replacement when the text has the
    two-character garble before a C, then the pattern. *)
Definition repair_celsius (page_text : str) : str :=
  let count_direct := py_count ([FFFD; FFFD] ++ lit "C") page_text in
  let page_text :=
    if (0 <? count_direct)%nat
    then py_replace ([FFFD; FFFD] ++ lit "C") (DEGREE :: lit "C") page_text
    else page_text in
  re_sub U CELSIUS_GARBLE (fun _ => DEGREE :: lit "C") page_text.

(** The page text before the loop over its lines. *)
Definition repaired_page_text (raw : str) : str :=
  let page_text := repair_celsius raw in
  let page_text := remove_chinese_characters U page_text in
  let page_text := collapse_spaced_capital_sequences U page_text in
  py_replace [CR; NL] [NL] page_text.

(** One turn of the loop over the lines: the line to keep, if any. *)
Definition clean_line (raw_line : str) : option str :=
  let line := py_rstrip raw_line in
  if should_drop_line U line then None
  else
    let line := remove_numeric_heading_prefix U line in
    let line := collapse_spaced_capital_sequences U line in
    let line := if is_some (re_search U CHINESE_CHAR_PATTERN line)
                then remove_chinese_characters U line else line in
    match py_strip line with
    | [] => None
    | _ => Some line
    end.

Fixpoint keep_lines (raw_lines : list str) : list str :=
  match raw_lines with
  | [] => []
  | l :: rest =>
      match clean_line l with
      | Some x => x :: keep_lines rest
      | None => keep_lines rest
      end
  end.

(** [page_text] as the loop over the lines leaves it. *)
Definition filtered_page_text (repaired : str) : str :=
  strip_newlines (join [NL] (keep_lines (splitlines repaired))).

(** [enumerate] from [i]. *)
Fixpoint enumerate_from {A} (i : nat) (l : list A) : list (nat * A) :=
  match l with
  | [] => []
  | x :: l' => (i, x) :: enumerate_from (S i) l'
  end.

(** The lines of a text that are math-like and longer than 5 once stripped,
    each with its number from 1. *)
Definition math_lines (text : str) : list (nat * str) :=
  map (fun il => (S (fst il), snd il))
    (filter (fun il => is_math_like U (snd il)
                       && (5 <? length (py_strip (snd il)))%nat)
            (enumerate_from 0%nat (splitlines text))).

(** The truth value of a string or a list: not empty. *)
Definition nonempty {A} (s : list A) : bool :=
  match s with [] => false | _ => true end.

(** One turn of the loop over the pages. *)
Definition process_page (st : State) (pno : nat) (page : Page) : State :=
  let page_text := get_text page in
  let page_text := repaired_page_text page_text in
  let page_text := filtered_page_text page_text in
  let segments1 :=
    if nonempty page_text then collected_segments st ++ [page_text]
    else collected_segments st in
  let img_bytes := render_page_png page in
  let trace1 := trace st ++ [Open (PageImage (pno + 1)%nat);
                             WriteBytes (PageImage (pno + 1)%nat) img_bytes] in
  let ocr_text := ocr_image_bytes page in
  let ocr_trim := remove_chinese_characters U (py_strip ocr_text) in
  let ocr_has_math := is_math_like U ocr_trim in
  let ocr_differs := (50 <? length ocr_trim)%nat && negb (contains ocr_trim page_text) in
  let complex_formula_lines := math_lines page_text in
  if ocr_has_math || ocr_differs || nonempty complex_formula_lines then
    let fid := (formula_counter st + 1)%nat in
    let imgfile := FormulaImage (pno + 1)%nat fid in
    {| formula_counter := fid;
       formula_records :=
         formula_records st
           ++ [{| rec_id := fid; rec_page := (pno + 1)%nat; rec_imgfile := imgfile;
                  rec_ocr := ocr_trim; rec_lines := complex_formula_lines |}];
       collected_segments := segments1 ++ [FORMULA];
       trace := trace1 ++ [Open imgfile; WriteBytes imgfile img_bytes] |}
  else
    {| formula_counter := formula_counter st;
       formula_records := formula_records st;
       collected_segments := segments1;
       trace := trace1 |}.

End Pages.

(** ** Writing the output *)

Definition byte_of (n : N) : Byte.byte :=
  match Byte.of_N n with Some b => b | None => Byte.x00 end.

(** The UTF-8 bytes of one code point; none for a surrogate. *)
Definition utf8_char (c : cp) : option (list Byte.byte) :=
  if c <? 128 then Some [byte_of c]
  else if c <? 2048 then Some [byte_of (192 + c / 64); byte_of (128 + c mod 64)]
  else if c <? 65536 then
    if in_range 55296 57343 c then None
    else Some [byte_of (224 + c / 4096); byte_of (128 + (c / 64) mod 64);
               byte_of (128 + c mod 64)]
  else if c <? 1114112 then
    Some [byte_of (240 + c / 262144); byte_of (128 + (c / 4096) mod 64);
          byte_of (128 + (c / 64) mod 64); byte_of (128 + c mod 64)]
  else None.

(** [s.encode("utf-8")]; [None] stands for UnicodeEncodeError. *)
Fixpoint utf8_encode (s : str) : option (list Byte.byte) :=
  match s with
  | [] => Some []
  | c :: s' =>
      match utf8_char c, utf8_encode s' with
      | Some b, Some bs => Some (b ++ bs)
      | _, _ => None
      end
  end.

(** What a file opened in text mode with the UTF-8 encoding writes for [s]:
    each line feed goes out as the line separator of the host. *)
Definition text_mode_bytes (linesep : str) (s : str) : option (list Byte.byte) :=
  utf8_encode (py_replace [NL] linesep s).

Definition file_eqb (f g : file) : bool :=
  match f, g with
  | PageImage n, PageImage m => (n =? m)%nat
  | FormulaImage n i, FormulaImage m j => (n =? m)%nat && (i =? j)%nat
  | OtherFile, OtherFile => true
  | _, _ => false
  end.

(** The content of [f] after the events, from the content [cur]. *)
Fixpoint content_after (f : file) (cur : option (list Byte.byte)) (tr : list event)
  : option (list Byte.byte) :=
  match tr with
  | [] => cur
  | Open g :: tr' => content_after f (if file_eqb f g then Some [] else cur) tr'
  | WriteBytes g d :: tr' =>
      content_after f
        (if file_eqb f g
         then match cur with Some c => Some (c ++ d) | None => Some d end
         else cur) tr'
  end.

Definition file_content (f : file) (tr : list event) : option (list Byte.byte) :=
  content_after f None tr.

(** How a run ends: to its last statement, or with an exception. *)
Inductive outcome : Type :=
| Completed (st : State)
| Raised (st : State).

Definition final_state (o : outcome) : State :=
  match o with Completed st => st | Raised st => st end.

Section Main.

Variable U : unicode_db.
Variable h : host.

(** [for pno in range(total_pages)] *)
Fixpoint process_pages (st : State) (pno : nat) (pages : list Page) : State :=
  match pages with
  | [] => st
  | page :: rest => process_pages (process_page U st pno page) (S pno) rest
  end.

(** ["\n\n".join(segment for segment in collected_segments if segment)] *)
Definition output_text (st : State) : str :=
  join [NL; NL] (filter (@nonempty cp) (collected_segments st)).

Definition with_trace (st : State) (tr : list event) : State :=
  {| formula_counter := formula_counter st;
     formula_records := formula_records st;
     collected_segments := collected_segments st;
     trace := tr |}.

(** [open(OUT_TXT, "w", encoding="utf-8")] and the one [write]: the file is
    opened, and so emptied, before the text is encoded. *)
Definition write_output (st : State) : outcome :=
  match text_mode_bytes (linesep h) (output_text st) with
  | Some data =>
      Completed (with_trace st (trace st ++ [Open (out_txt h);
                                             WriteBytes (out_txt h) data]))
  | None => Raised (with_trace st (trace st ++ [Open (out_txt h)]))
  end.

(** The script on the pages of the input document. *)
Definition main (pdf : list Page) : outcome :=
  write_output (process_pages initial_state 0%nat pdf).

(** *** What the specification calls these *)

(** The page's text of the Cleaned Segments. *)
Definition page_cleaned_text (page : Page) : str :=
  filtered_page_text U (repaired_page_text U (get_text page)).

(** The OCR transcript of a page. *)
Definition ocr_transcript (page : Page) : str :=
  remove_chinese_characters U (py_strip (ocr_image_bytes page)).

(** The three signals of a page as the loop computes them: [page_text] is by
    then the text the loop over the lines left. *)
Definition ocr_has_math (page : Page) : bool :=
  is_math_like U (ocr_transcript page).

Definition ocr_differs (page : Page) : bool :=
  (50 <? length (ocr_transcript page))%nat
  && negb (contains (ocr_transcript page) (page_cleaned_text page)).

Definition complex_formula_lines (page : Page) : list (nat * str) :=
  math_lines U (page_cleaned_text page).

(** A page is formula-bearing when one of the three signals holds. *)
Definition formula_bearing (page : Page) : bool :=
  ocr_has_math page || ocr_differs page || nonempty (complex_formula_lines page).

(** The second and third signal as the specification words them: over the
    page text as it is before the loop over its lines. *)
Definition spec_ocr_differs (page : Page) : bool :=
  (50 <? length (ocr_transcript page))%nat
  && negb (contains (ocr_transcript page) (repaired_page_text U (get_text page))).

Definition spec_complex_formula_lines (page : Page) : list (nat * str) :=
  math_lines U (repaired_page_text U (get_text page)).

(** The segments one page adds. *)
Definition page_segments (page : Page) : list str :=
  (if nonempty (page_cleaned_text page) then [page_cleaned_text page] else [])
  ++ (if formula_bearing page then [FORMULA] else []).

(** The record a formula-bearing page adds. *)
Definition new_record (st : State) (pno : nat) (page : Page) : FormulaRecord :=
  {| rec_id := (formula_counter st + 1)%nat;
     rec_page := (pno + 1)%nat;
     rec_imgfile := FormulaImage (pno + 1)%nat (formula_counter st + 1)%nat;
     rec_ocr := ocr_transcript page;
     rec_lines := complex_formula_lines page |}.

(** The numbers of the formula-bearing pages, the first page of [pages]
    having the index [pno]. *)
Fixpoint flagged_page_numbers (pno : nat) (pages : list Page) : list nat :=
  match pages with
  | [] => []
  | page :: rest =>
      (if formula_bearing page then [(pno + 1)%nat] else [])
      ++ flagged_page_numbers (S pno) rest
  end.

End Main.

Definition event_file (e : event) : file :=
  match e with Open f => f | WriteBytes f _ => f end.

(** The path is the path of a page image or of a formula image. *)
Definition is_image (f : file) : bool :=
  match f with OtherFile => false | _ => true end.

(** Every event of the trace is on an image file. *)
Definition only_images (tr : list event) : bool :=
  forallb (fun e => is_image (event_file e)) tr.

(** No event of the trace is on the file [f]. *)
Definition untouched (f : file) (tr : list event) : bool :=
  forallb (fun e => negb (file_eqb f (event_file e))) tr.


(** ** Auxiliary notions of the proofs *)

Definition mk_state (prev : option cp) (s : str) (g : option str) : mstate :=
  {| m_prev := prev; m_rest := s; m_group := g |}.

(** The character before the position after passing [l]. *)
Fixpoint last_or (prev : option cp) (l : str) : option cp :=
  match l with
  | [] => prev
  | c :: l' => last_or (Some c) l'
  end.

Fixpoint take_while (p : cp -> bool) (s : str) : str :=
  match s with
  | [] => []
  | c :: s' => if p c then c :: take_while p s' else []
  end.

(** Greedy repetition of a character class, longest first. *)
Fixpoint star_chr (p : cp -> bool) (k : mstate -> option mstate)
                  (prev : option cp) (g : option str) (s : str) : option mstate :=
  match s with
  | c :: s' =>
      if p c then
        match star_chr p k (Some c) g s' with
        | Some x => Some x
        | None => k (mk_state prev s g)
        end
      else k (mk_state prev s g)
  | [] => k (mk_state prev [] g)
  end.

(** ** Sample pages *)

Definition empty_png : list Byte.byte := [].

(** A page whose only line is a caption with an equation in it. *)
Definition caption_equation : str := lit "Figure 1: x = y + z".
Definition page_caption_equation : Page :=
  {| get_text := caption_equation; render_page_png := empty_png;
     ocr_image_bytes := [] |}.

(** A page whose only line is a long caption, read the same by the OCR. *)
Definition long_caption : str :=
  lit "Table 1: summary of the measured values for all of the samples".
Definition page_long_caption : Page :=
  {| get_text := long_caption; render_page_png := empty_png;
     ocr_image_bytes := long_caption |}.

(** A page on which the OCR reads a Chinese character, a space and an
    equation, with a line feed at the end. *)
Definition page_ocr_chinese : Page :=
  {| get_text := []; render_page_png := empty_png;
     ocr_image_bytes := [22270] ++ lit " x = 1" ++ [NL] |}.

(** A page of plain text. *)
Definition page_plain : Page :=
  {| get_text := lit "Hello" ++ [NL] ++ lit "world"; render_page_png := empty_png;
     ocr_image_bytes := lit "Hello world" |}.

(** A page with characters of two, three and four bytes in UTF-8: an e with
    an acute accent, the euro sign and U+1F600. *)
Definition page_symbols : Page :=
  {| get_text := [233; 8364; 128512]; render_page_png := empty_png;
     ocr_image_bytes := [] |}.

(** The first bytes of a PNG file, for a rendering. *)
Definition png_bytes : list Byte.byte := [Byte.x89; Byte.x50; Byte.x4e; Byte.x47].

(** A page with a formula in its text and a rendering that is not empty. *)
Definition page_formula : Page :=
  {| get_text := lit "E = m c^2 holds"; render_page_png := png_bytes;
     ocr_image_bytes := [] |}.

(** Two hosts: one whose line separator is a line feed, and one whose line
    separator is a carriage return and a line feed; on both the output text
    file is no image file. *)
Definition posix_host : host := {| linesep := [NL]; out_txt := OtherFile |}.
Definition crlf_host : host := {| linesep := [CR; NL]; out_txt := OtherFile |}.

(** A host on which [--out_txt] names the image file of the first page. *)
Definition colliding_host : host := {| linesep := [NL]; out_txt := PageImage 1 |}.

(** ** Case-insensitive prefixes *)

(** Lower case within ASCII. *)
Definition ascii_lower (c : cp) : cp := if is_upper_AZ c then c + 32 else c.

(** [s] starts with the lower-case ASCII text [p], whatever the case of the
    letters of [s]. *)
Definition ci_startswith (p s : str) : bool :=
  startswith p (map ascii_lower (firstn (length p) s)).

(** A text without the word abstract: a title, a line that is only a URL, a
    line with a metadata cue, and a blank line. *)
Definition sample_article : str :=
  lit "A Title" ++ [NL] ++ lit "https://example.org/x" ++ [NL]
  ++ lit "Received: 1 May, see www.example.org/y now" ++ [NL] ++ lit "  ".

(** The length of the match of [r] at a position, when there is one and it
    is not empty. *)
Definition match_length (U : unicode_db) (r : regex) (prev : option cp) (s : str)
  : option nat :=
  match match_at U r prev s with
  | Some st' =>
      match (length s - length (m_rest st'))%nat with
      | O => None
      | S k => Some (S k)
      end
  | None => None
  end.

(** ** The two steps of the Celsius repair *)

Definition GARBLE_C : str := [FFFD; FFFD] ++ lit "C".
Definition DEGREE_C : str := DEGREE :: lit "C".

Definition celsius_literal (s : str) : str := py_replace GARBLE_C DEGREE_C s.

Definition celsius_pattern (U : unicode_db) (s : str) : str :=
  re_sub U CELSIUS_GARBLE (fun _ => DEGREE_C) s.


(** The length of a run of replacement characters and a C at the start of
    [s], when [s] starts so. *)
Definition garble_length (s : str) : option nat :=
  match s with
  | c :: s' =>
      if is_garble c then
        match drop_while is_garble s' with
        | x :: _ => if 67 =? x then Some (2 + length (take_while is_garble s'))%nat else None
        | [] => None
        end
      else None
  | [] => None
  end.

(** The two steps as substitutions, from any character before. *)
Definition literal_from (U : unicode_db) (prev : option cp) (s : str) : str :=
  sub_from U (Lit GARBLE_C) (fun _ => DEGREE_C) 0 prev s.

Definition pattern_from (U : unicode_db) (prev : option cp) (s : str) : str :=
  sub_from U CELSIUS_GARBLE (fun _ => DEGREE_C) 0 prev s.

(** A replacement character right before a C. *)
Definition GARBLE_BEFORE_C : str := [FFFD; 67].

(** ** The URL pattern, step by step *)

Definition or_else {A} (a b : option A) : option A :=
  match a with Some x => Some x | None => b end.

Definition and_then {A B} (a : option A) (f : A -> option B) : option B :=
  match a with Some x => f x | None => None end.

(** The text after the prefix [p]. *)
Definition strip_prefix (p s : str) : option str :=
  if startswith p s then Some (skipn (length p) s) else None.

(** The text after a run of one or more non-space characters. *)
Definition after_non_space (s : str) : option str :=
  match s with
  | c :: s' => if non_space c then Some (drop_while non_space s') else None
  | [] => None
  end.

(** The text after a URL at the start of [s]. *)
Definition url_rest (s : str) : option str :=
  or_else
    (and_then (strip_prefix (lit "http") s) (fun s1 =>
       or_else
         (and_then (strip_prefix (lit "s") s1) (fun s2 =>
            and_then (strip_prefix (lit "://") s2) after_non_space))
         (and_then (strip_prefix (lit "://") s1) after_non_space)))
    (or_else
       (and_then (strip_prefix (lit "www.") s) (fun s1 =>
          match s1 with
          | a :: s2 =>
              if is_alnum_ascii a
              then and_then (strip_prefix (lit ".") (drop_while is_alnum_dash s2))
                            after_non_space
              else None
          | [] => None
          end))
       (or_else
          (and_then (strip_prefix (lit "doi.org/") s) after_non_space)
          (and_then (strip_prefix (lit "doi:") s) (fun s1 =>
             after_non_space (drop_while py_isspace s1))))).

(** URL removal from any character before. *)
Definition urls_from (U : unicode_db) (prev : option cp) (s : str) : str :=
  sub_from U URL_PATTERN (fun _ => []) 0 prev s.

(** What a URL at the start of [s] looks like when [r] is the text after it:
    [s] is a non-empty text [m], which starts with a non-space character, and
    then [r], which is empty or starts with white space. *)
Definition url_shape (s r : str) : Prop :=
  exists c m, s = (c :: m) ++ r /\ non_space c = true
              /\ match r with [] => True | w :: _ => py_isspace w = true end.

(** The four ways a text can start with a URL that ends before [r]. *)
Definition url_form (s r : str) : Prop :=
  (exists s3, (s = lit "http://" ++ s3 \/ s = lit "https://" ++ s3)
              /\ after_non_space s3 = Some r)
  \/ (exists a s2 s3, s = lit "www." ++ a :: s2 /\ is_alnum_ascii a = true
                      /\ drop_while is_alnum_dash s2 = lit "." ++ s3
                      /\ after_non_space s3 = Some r)
  \/ (exists s3, s = lit "doi.org/" ++ s3 /\ after_non_space s3 = Some r)
  \/ (exists s1, s = lit "doi:" ++ s1
                 /\ after_non_space (drop_while py_isspace s1) = Some r).

(** ** The spaced-capitals pattern, step by step *)

(** The repetition of the matcher by itself: [n] bounds the number of rounds,
    and a round must pass at least one character. *)
Definition star_loop (U : unicode_db) (a : regex) (k : mstate -> option mstate)
  : nat -> mstate -> option mstate :=
  fix loop (n : nat) (st : mstate) : option mstate :=
    match n with
    | O => k st
    | S n' =>
        match matches U a st
                (fun st' =>
                   if (length (m_rest st') <? length (m_rest st))%nat
                   then loop n' st' else None) with
        | Some x => Some x
        | None => k st
        end
    end.

(** One capital and the white space after it. *)
Definition CAPITAL_GAP : regex := Seq (Chr is_upper_AZ) (Plus (Chr py_isspace)).

Section SpacedShape.

Variable U : unicode_db.

(** No word character follows. *)
Definition end_ok (t : str) : bool := negb (word_at U (hd_error t)).

(** From a capital at the start of [s]: the text after the last capital of
    the longest run of single capitals, each after white space, that is not
    followed by a word character. *)
Fixpoint tail_match (n : nat) (s : str) : option str :=
  match s with
  | L :: t =>
      if is_upper_AZ L then
        let fin := if end_ok t then Some t else None in
        match n with
        | O => fin
        | S n' =>
            match t with
            | w :: t' =>
                if py_isspace w
                then match tail_match n' (drop_while py_isspace t') with
                     | Some x => Some x
                     | None => fin
                     end
                else fin
            | [] => fin
            end
        end
      else None
  | [] => None
  end.

(** One capital and white space at the start of [s]: the text after them. *)
Definition capital_gap (s : str) : option str :=
  match s with
  | L :: w :: t =>
      if is_upper_AZ L && py_isspace w then Some (drop_while py_isspace t) else None
  | _ => None
  end.

(** The text after a match of the spaced-capitals pattern at the start of
    [s], after the character [prev]. *)
Definition spaced_rest (prev : option cp) (s : str) : option str :=
  if xorb (word_at U prev) (word_at U (hd_error s)) then
    and_then (capital_gap s) (fun s2 =>
      and_then (capital_gap s2) (fun s3 => tail_match (length s3) s3))
  else None.

(** After a capital: white space and a capital follow, and the run of single
    capitals can end on a capital that no word character follows. *)
Definition cont (z : str) : bool :=
  match z with
  | w :: t =>
      py_isspace w
      && is_some (tail_match (length t) (drop_while py_isspace t))
  | [] => false
  end.

(** After a capital: white space, a capital, and then [cont]. *)
Definition cont2 (z : str) : bool :=
  match z with
  | w :: t =>
      py_isspace w
      && match drop_while py_isspace t with
         | L :: t2 => is_upper_AZ L && cont t2
         | [] => false
         end
  | [] => false
  end.

End SpacedShape.

(** The end of the pattern: a capital that no word character follows. *)
Definition last_capital (U : unicode_db) (st : mstate) : option mstate :=
  matches U (Seq (Chr is_upper_AZ) WordB) st Some.

(** The collapsing from any character before. *)
Definition spaced_from (U : unicode_db) (prev : option cp) (s : str) : str :=
  sub_from U SPACED_CAPS_PATTERN drop_spaces 0 prev s.

Definition cap_or_space (c : cp) : bool := is_upper_AZ c || py_isspace c.

(** The last character is a capital. *)
Definition ends_upper (l : str) : bool :=
  match last_or None l with
  | Some c => is_upper_AZ c
  | None => false
  end.

(** Capitals and white space, a capital last. *)
Definition run_shape (l : str) : Prop :=
  forallb cap_or_space l = true /\ ends_upper l = true.

(** [tail_match] with as many rounds as the text is long. *)
Definition tail_rest (U : unicode_db) (s : str) : option str :=
  tail_match U (length s) s.

Definition not_SPACE (c : cp) : bool := negb (SPACE =? c).

(** ** Letters set apart by single spaces *)

(** [" ".join(letters)] *)
Definition spaced (letters : str) : str := join [SPACE] (map (fun c => [c]) letters).

(** ** The files of a run *)

(** The events of one turn of the page loop, when the formula counter is
    [counter] before it. *)
Definition page_events (U : unicode_db) (counter pno : nat) (page : Page) : list event :=
  [Open (PageImage (pno + 1)%nat);
   WriteBytes (PageImage (pno + 1)%nat) (render_page_png page)]
  ++ (if formula_bearing U page
      then [Open (FormulaImage (pno + 1)%nat (counter + 1)%nat);
            WriteBytes (FormulaImage (pno + 1)%nat (counter + 1)%nat)
                       (render_page_png page)]
      else []).

(** The events of the page loop over [pages], the first of them having the
    index [pno]. *)
Fixpoint pages_events (U : unicode_db) (counter pno : nat) (pages : list Page)
  : list event :=
  match pages with
  | [] => []
  | page :: rest =>
      page_events U counter pno page
      ++ pages_events U (counter + (if formula_bearing U page then 1 else 0))%nat
                      (S pno) rest
  end.

(** The number of formula-bearing pages among the first [k]. *)
Definition flagged_before (U : unicode_db) (k : nat) (pages : list Page) : nat :=
  length (filter (formula_bearing U) (firstn k pages)).

(** A page whose text has a lone surrogate, which UTF-8 cannot encode. *)
Definition page_surrogate : Page :=
  {| get_text := [55296]; render_page_png := empty_png; ocr_image_bytes := [] |}.

(** The record of a formula-bearing page, when the formula counter is
    [counter] before its turn. *)
Definition page_record (U : unicode_db) (counter pno : nat) (page : Page)
  : FormulaRecord :=
  {| rec_id := (counter + 1)%nat;
     rec_page := (pno + 1)%nat;
     rec_imgfile := FormulaImage (pno + 1)%nat (counter + 1)%nat;
     rec_ocr := ocr_transcript U page;
     rec_lines := complex_formula_lines U page |}.

(** The records of the page loop over [pages]. *)
Fixpoint records_of (U : unicode_db) (counter pno : nat) (pages : list Page)
  : list FormulaRecord :=
  match pages with
  | [] => []
  | page :: rest =>
      (if formula_bearing U page then [page_record U counter pno page] else [])
      ++ records_of U (counter + (if formula_bearing U page then 1 else 0))%nat
                    (S pno) rest
  end.

(** A record is the record of the page of index [k] of the document, and
    its image file holds the rendering of that page. *)
Definition record_of_page (U : unicode_db) (pdf : list Page) (tr : list event)
           (r : FormulaRecord) : Prop :=
  exists k page,
    nth_error pdf k = Some page
    /\ formula_bearing U page = true
    /\ rec_page r = S k
    /\ rec_id r = S (flagged_before U k pdf)
    /\ rec_imgfile r = FormulaImage (rec_page r) (rec_id r)
    /\ rec_ocr r = ocr_transcript U page
    /\ rec_lines r = complex_formula_lines U page
    /\ file_content (rec_imgfile r) tr = Some (render_page_png page).

(** ** The title above the abstract *)

Section TitleLines.

Variable U : unicode_db.

(** The line has the abstract marker, as the loop looks for it. *)
Definition has_abstract (line : str) : bool :=
  contains (lit "ABSTRACT") (py_upper U (py_strip line)).

(** The line opens a metadata section. *)
Definition is_section_heading (line : str) : bool :=
  contains_any section_keywords (py_upper U (py_strip line)).

(** The line can be a title line: not blank, no metadata cue, no URL. *)
Definition title_ok (line : str) : bool :=
  nonblank line
  && negb (contains_any metadata_cues (py_lower U (py_strip line)))
  && negb (is_some (re_search U URL_PATTERN (py_strip line))).

(** The title lines among the lines above the abstract: those that can be
    title lines, up to the first line that opens a metadata section. *)
Fixpoint title_of (lines : list str) : list str :=
  match lines with
  | [] => []
  | l :: rest =>
      if is_section_heading l then []
      else (if title_ok l then [l] else []) ++ title_of rest
  end.

(** The title lines and the blank line after them, when there are any. *)
Definition title_block (lines : list str) : list str :=
  match lines with
  | [] => []
  | _ => lines ++ [[]]
  end.

End TitleLines.

(** A text with a title, a metadata section, an abstract and a URL after
    it. *)
Definition sample_abstract_pre : list str :=
  [lit "A Title"; lit "by A. Author, a@b.org"; lit "ARTICLE INFO";
   lit "Received: 1 May"].
Definition sample_abstract_line : str := lit "Abstract: see www.example.org/x".
Definition sample_abstract_post : list str :=
  [lit "We study www.example.org/y here."; []].
Definition sample_abstract_text : str :=
  join [NL] (sample_abstract_pre ++ sample_abstract_line :: sample_abstract_post).

(** ** Lines *)

(** No character of the text is a line boundary. *)
Definition no_linebreak (l : str) : bool :=
  forallb (fun c => negb (is_linebreak c)) l.

(** [r] is the end of [s]. *)
Definition is_suffix (r s : str) : Prop := exists m, s = m ++ r.

(** No character of the text is in the Chinese ranges. *)
Definition no_cjk (s : str) : bool := forallb (fun c => negb (is_cjk c)) s.

(** The line of the loop over the lines when the search for Chinese
    characters reads it. *)
Definition line_at_search (U : unicode_db) (raw_line : str) : str :=
  collapse_spaced_capital_sequences U
    (remove_numeric_heading_prefix U (py_rstrip raw_line)).

(** The text has one of the three markers a URL of the pattern starts
    with. *)
Definition has_url_marker (s : str) : bool :=
  contains (lit "http") s || contains (lit "www.") s || contains (lit "doi") s.

(** The text does not end with white space. *)
Definition no_trailing_space (l : str) : bool :=
  match last_or None l with
  | Some c => negb (py_isspace c)
  | None => true
  end.
(** * Properties *)

Unset Implicit Arguments.

(** ** Lists and strings *)

Lemma startswith_refl (s : str) : startswith s s = true.
Proof. induction s as [|c s IH]; simpl; [reflexivity|]. now rewrite N.eqb_refl. Qed.


Lemma startswith_spec (p s : str) :
  startswith p s = true <-> exists t, s = p ++ t.
Proof.
  revert s; induction p as [|a p IH]; intros s; simpl.
  - split; [intros _; now exists s | reflexivity].
  - destruct s as [|c s]; simpl.
    + split; [discriminate | intros [t Ht]; discriminate].
    + rewrite andb_true_iff, N.eqb_eq, IH. split.
      * intros [-> [t ->]]. now exists t.
      * intros [t Ht]. injection Ht as -> ->. split; [reflexivity | now exists t].
Qed.

(** Replacing a line feed by a line feed changes nothing. *)
Lemma replace_from_same (c : cp) (s : str) :
  replace_from [c] [c] 0 s = s.
Proof.
  induction s as [|d s IH]; simpl; [reflexivity|].
  destruct (c =? d) eqn:E; simpl.
  - apply N.eqb_eq in E. subst d. now rewrite IH.
  - now rewrite IH.
Qed.

(** On a host whose line separator is a line feed, text mode writes the
    encoding of the text itself. *)
Lemma text_mode_bytes_utf8 (s : str) : text_mode_bytes [NL] s = utf8_encode s.
Proof. unfold text_mode_bytes, py_replace. now rewrite replace_from_same. Qed.

(** ** The page loop *)

Section PageLoop.

Variable U : unicode_db.

(** What one turn of the page loop does to each part of the state. *)
Lemma process_page_segments (st : State) (pno : nat) (page : Page) :
  collected_segments (process_page U st pno page)
  = collected_segments st ++ page_segments U page.
Proof.
  unfold process_page, page_segments, formula_bearing, ocr_has_math, ocr_differs,
    complex_formula_lines, page_cleaned_text, ocr_transcript.
  cbv zeta.
  set (t := filtered_page_text U (repaired_page_text U (get_text page))).
  set (o := remove_chinese_characters U (py_strip (ocr_image_bytes page))).
  destruct (is_math_like U o || (50 <? length o)%nat && negb (contains o t)
            || nonempty (math_lines U t)); destruct (nonempty t); simpl;
    now rewrite ?app_nil_r, <- ?app_assoc.
Qed.

Lemma process_page_records (st : State) (pno : nat) (page : Page) :
  formula_records (process_page U st pno page)
  = formula_records st
    ++ (if formula_bearing U page then [new_record U st pno page] else []).
Proof.
  unfold process_page, new_record, formula_bearing, ocr_has_math, ocr_differs,
    complex_formula_lines, page_cleaned_text, ocr_transcript.
  cbv zeta.
  set (t := filtered_page_text U (repaired_page_text U (get_text page))).
  set (o := remove_chinese_characters U (py_strip (ocr_image_bytes page))).
  destruct (is_math_like U o || (50 <? length o)%nat && negb (contains o t)
            || nonempty (math_lines U t)); simpl;
    now rewrite ?app_nil_r.
Qed.

Lemma process_page_counter (st : State) (pno : nat) (page : Page) :
  formula_counter (process_page U st pno page)
  = (formula_counter st + (if formula_bearing U page then 1 else 0))%nat.
Proof.
  unfold process_page, formula_bearing, ocr_has_math, ocr_differs,
    complex_formula_lines, page_cleaned_text, ocr_transcript.
  cbv zeta.
  set (t := filtered_page_text U (repaired_page_text U (get_text page))).
  set (o := remove_chinese_characters U (py_strip (ocr_image_bytes page))).
  destruct (is_math_like U o || (50 <? length o)%nat && negb (contains o t)
            || nonempty (math_lines U t)); simpl; lia.
Qed.

End PageLoop.

Section Run.

Variable U : unicode_db.
Variable h : host.

Lemma process_pages_segments (pages : list Page) (st : State) (pno : nat) :
  collected_segments (process_pages U st pno pages)
  = collected_segments st ++ flat_map (page_segments U) pages.
Proof.
  revert st pno; induction pages as [|page rest IH]; intros st pno; simpl.
  - now rewrite app_nil_r.
  - now rewrite IH, process_page_segments, app_assoc.
Qed.

Lemma process_pages_counter (pages : list Page) (st : State) (pno : nat) :
  formula_counter (process_pages U st pno pages)
  = (formula_counter st + length (filter (formula_bearing U) pages))%nat.
Proof.
  revert st pno; induction pages as [|page rest IH]; intros st pno; simpl.
  - lia.
  - rewrite IH, process_page_counter.
    destruct (formula_bearing U page); simpl; lia.
Qed.

Lemma process_pages_ids (pages : list Page) (st : State) (pno : nat) :
  map rec_id (formula_records (process_pages U st pno pages))
  = map rec_id (formula_records st)
    ++ seq (formula_counter st + 1) (length (filter (formula_bearing U) pages)).
Proof.
  revert st pno; induction pages as [|page rest IH]; intros st pno; simpl.
  - now rewrite app_nil_r.
  - rewrite IH, process_page_records, process_page_counter, map_app.
    destruct (formula_bearing U page); simpl.
    + rewrite <- app_assoc. simpl. do 3 f_equal. lia.
    + rewrite app_nil_r. do 2 f_equal. lia.
Qed.

Lemma process_pages_page_numbers (pages : list Page) (st : State) (pno : nat) :
  map rec_page (formula_records (process_pages U st pno pages))
  = map rec_page (formula_records st) ++ flagged_page_numbers U pno pages.
Proof.
  revert st pno; induction pages as [|page rest IH]; intros st pno; simpl.
  - now rewrite app_nil_r.
  - rewrite IH, process_page_records, map_app.
    destruct (formula_bearing U page); simpl; now rewrite <- app_assoc.
Qed.

Lemma process_page_only_images (st : State) (pno : nat) (page : Page) :
  only_images (trace st) = true ->
  only_images (trace (process_page U st pno page)) = true.
Proof.
  unfold process_page, only_images. cbv zeta. intros H.
  match goal with |- context [if ?c then _ else _] => destruct c end; cbn [trace];
    rewrite ?forallb_app, H; reflexivity.
Qed.

Lemma process_pages_only_images (pages : list Page) (st : State) (pno : nat) :
  only_images (trace st) = true ->
  only_images (trace (process_pages U st pno pages)) = true.
Proof.
  revert st pno; induction pages as [|page rest IH]; intros st pno H; simpl.
  - exact H.
  - now apply IH, process_page_only_images.
Qed.

Lemma content_after_untouched (f : file) (tr : list event) (cur : option (list Byte.byte)) :
  untouched f tr = true -> content_after f cur tr = cur.
Proof.
  revert cur; induction tr as [|e tr IH]; intros cur H; simpl in *; [reflexivity|].
  apply andb_true_iff in H as [He Htr].
  destruct e as [g|g d]; simpl in He; apply negb_true_iff in He; rewrite He; now apply IH.
Qed.

Lemma file_eqb_refl (f : file) : file_eqb f f = true.
Proof. destruct f; cbn [file_eqb]; now rewrite ?Nat.eqb_refl. Qed.

(** What the writing of the output leaves of the state of the page loop. *)
Lemma write_output_state (st : State) :
  collected_segments (final_state (write_output h st)) = collected_segments st
  /\ formula_records (final_state (write_output h st)) = formula_records st
  /\ formula_counter (final_state (write_output h st)) = formula_counter st.
Proof. unfold write_output. now destruct (text_mode_bytes _ _). Qed.

Lemma main_segments (pdf : list Page) :
  collected_segments (final_state (main U h pdf))
  = collected_segments (process_pages U initial_state 0 pdf).
Proof. apply write_output_state. Qed.

Lemma main_records (pdf : list Page) :
  formula_records (final_state (main U h pdf))
  = formula_records (process_pages U initial_state 0 pdf).
Proof. apply write_output_state. Qed.

Lemma content_after_app (f : file) (tr1 tr2 : list event) (cur : option (list Byte.byte)) :
  content_after f cur (tr1 ++ tr2) = content_after f (content_after f cur tr1) tr2.
Proof. revert cur; induction tr1 as [|e tr1 IH]; intros cur; simpl; [reflexivity|]. destruct e; apply IH. Qed.

(** C3: the Cleaned Segments are the segments of the pages in page order,
    each page giving its cleaned text, when that is not empty, and then the
    placeholder, when the page is formula-bearing; every turn of the page
    loop only appends to the sequence, so what is in it stays as it is. *)
Theorem C3_segments_in_page_order (pdf : list Page) :
  collected_segments (final_state (main U h pdf)) = flat_map (page_segments U) pdf
  /\ (forall st pno page,
        collected_segments (process_page U st pno page)
        = collected_segments st
          ++ (if nonempty (page_cleaned_text U page) then [page_cleaned_text U page] else [])
          ++ (if formula_bearing U page then [FORMULA] else []))
  /\ (forall st pno pages,
        firstn (length (collected_segments st))
               (collected_segments (process_pages U st pno pages))
        = collected_segments st).
Proof.
  split; [|split].
  - now rewrite main_segments, process_pages_segments.
  - intros. apply process_page_segments.
  - intros. rewrite process_pages_segments.
    rewrite firstn_app, Nat.sub_diag, firstn_all. simpl. apply app_nil_r.
Qed.

(** C4: the ids of the Formula Records are 1, 2, ..., n in the order of
    creation; there is one record for each formula-bearing page, with that
    page's number; and the formula counter ends at the number of records. *)
Theorem C4_formula_ids_dense (pdf : list Page) :
  let st := final_state (main U h pdf) in
  map rec_id (formula_records st) = seq 1 (length (formula_records st))
  /\ length (formula_records st) = length (filter (formula_bearing U) pdf)
  /\ map rec_page (formula_records st) = flagged_page_numbers U 0 pdf
  /\ formula_counter st = length (formula_records st).
Proof.
  cbv zeta.
  assert (E : forall st0, formula_records (final_state (write_output h st0)) = formula_records st0
                          /\ formula_counter (final_state (write_output h st0)) = formula_counter st0).
  { intros st0. split; apply write_output_state. }
  unfold main. destruct (E (process_pages U initial_state 0 pdf)) as [-> ->].
  pose proof (process_pages_ids pdf initial_state 0) as Hid.
  pose proof (process_pages_page_numbers pdf initial_state 0) as Hpg.
  pose proof (process_pages_counter pdf initial_state 0) as Hc.
  simpl in Hid, Hpg, Hc.
  assert (Hlen : length (formula_records (process_pages U initial_state 0 pdf))
                 = length (filter (formula_bearing U) pdf)).
  { rewrite <- (length_map rec_id), Hid. apply length_seq. }
  repeat split.
  - now rewrite Hlen.
  - exact Hlen.
  - exact Hpg.
  - now rewrite Hlen.
Qed.

(** C2, as the code has it: when the text to write can be encoded, the run
    comes to its end; up to the end of the page loop only image files are
    written; then the output text file is opened and written once, as the
    last thing the run does; and its content is the UTF-8 encoding of the
    non-empty Cleaned Segments joined by two line feeds, every line feed
    written as the line separator of the host: on a host whose line separator
    is a line feed, the encoding of the join itself. *)
Theorem C2_output_file_content (pdf : list Page) (data : list Byte.byte) :
  let st := process_pages U initial_state 0 pdf in
  let text := join [NL; NL] (filter (@nonempty cp) (collected_segments st)) in
  utf8_encode (py_replace [NL] (linesep h) text) = Some data ->
  main U h pdf
  = Completed (with_trace st (trace st ++ [Open (out_txt h); WriteBytes (out_txt h) data]))
  /\ only_images (trace st) = true
  /\ file_content (out_txt h) (trace (final_state (main U h pdf))) = Some data
  /\ (linesep h = [NL] -> utf8_encode text = Some data).
Proof.
  cbv zeta. intros H.
  assert (Hm : main U h pdf
               = Completed (with_trace (process_pages U initial_state 0 pdf)
                              (trace (process_pages U initial_state 0 pdf)
                                 ++ [Open (out_txt h); WriteBytes (out_txt h) data]))).
  { unfold main, write_output, text_mode_bytes, output_text. now rewrite H. }
  split; [exact Hm|]. split; [now apply process_pages_only_images|]. split.
  - rewrite Hm. cbn [final_state with_trace trace]. unfold file_content.
    rewrite content_after_app. cbn [content_after]. rewrite file_eqb_refl.
    reflexivity.
  - intros E. rewrite E in H. unfold py_replace in H.
    now rewrite replace_from_same in H.
Qed.

End Run.

(** A document of two pages, the second with characters of two, three and
    four bytes, on a host whose line separator is a line feed: the hypothesis
    of C2 holds, and the file has the bytes of the two segments with two line
    feeds between them. *)
Lemma C2_output_file_witness :
  utf8_encode
    (py_replace [NL] (linesep posix_host)
       (join [NL; NL]
          (filter (@nonempty cp)
             (collected_segments
                (process_pages ascii_only_db initial_state 0 [page_plain; page_symbols])))))
  = Some (map byte_of [72; 101; 108; 108; 111; 10; 119; 111; 114; 108; 100; 10; 10;
                       195; 169; 226; 130; 172; 240; 159; 152; 128])
  /\ file_content (out_txt posix_host)
       (trace (final_state (main ascii_only_db posix_host [page_plain; page_symbols])))
     = Some (map byte_of [72; 101; 108; 108; 111; 10; 119; 111; 114; 108; 100; 10; 10;
                          195; 169; 226; 130; 172; 240; 159; 152; 128]).
Proof.
  assert (H : utf8_encode
                (py_replace [NL] (linesep posix_host)
                   (join [NL; NL]
                      (filter (@nonempty cp)
                         (collected_segments
                            (process_pages ascii_only_db initial_state 0
                               [page_plain; page_symbols])))))
              = Some (map byte_of [72; 101; 108; 108; 111; 10; 119; 111; 114; 108; 100;
                                   10; 10; 195; 169; 226; 130; 172; 240; 159; 152; 128]))
    by (vm_compute; reflexivity).
  split; [exact H|].
  exact (proj1 (proj2 (proj2 (C2_output_file_content ascii_only_db posix_host
                                [page_plain; page_symbols] _ H)))).
Defined.

(** C2, as the specification words it, fails on a host whose line separator
    is a carriage return and a line feed: the file has a carriage return
    before every line feed, which the UTF-8 encoding of the joined segments
    has not. *)
Lemma C2_crlf_host_bytes :
  file_content (out_txt crlf_host)
    (trace (final_state (main ascii_only_db crlf_host [page_plain; page_symbols])))
  = Some (map byte_of [72; 101; 108; 108; 111; 13; 10; 119; 111; 114; 108; 100;
                       13; 10; 13; 10; 195; 169; 226; 130; 172; 240; 159; 152; 128])
  /\ utf8_encode
       (join [NL; NL]
          (filter (@nonempty cp)
             (collected_segments
                (final_state (main ascii_only_db crlf_host [page_plain; page_symbols])))))
     = Some (map byte_of [72; 101; 108; 108; 111; 10; 119; 111; 114; 108; 100; 10; 10;
                          195; 169; 226; 130; 172; 240; 159; 152; 128]).
Proof. split; vm_compute; reflexivity. Qed.

(** ** The matcher *)

Section Engine.

Variable U : unicode_db.

Lemma mk_state_eta (st : mstate) : mk_state (m_prev st) (m_rest st) (m_group st) = st.
Proof. now destruct st. Qed.

Lemma take_drop_while (p : cp -> bool) (s : str) : take_while p s ++ drop_while p s = s.
Proof. induction s as [|c s IH]; simpl; [reflexivity|]. destruct (p c); simpl; [now rewrite IH | reflexivity]. Qed.

Lemma drop_while_head (p : cp -> bool) (s : str) c r :
  drop_while p s = c :: r -> p c = false.
Proof.
  induction s as [|d s IH]; simpl; [discriminate|].
  destruct (p d) eqn:E; [exact IH | intros H; injection H as -> _; exact E].
Qed.

Lemma drop_while_length (p : cp -> bool) (s : str) :
  (length (drop_while p s) <= length s)%nat.
Proof. induction s as [|c s IH]; simpl; [lia|]. destruct (p c); simpl; lia. Qed.

Lemma matches_Lit (l : str) (st : mstate) (k : mstate -> option mstate) :
  matches U (Lit l) st k
  = if startswith l (m_rest st)
    then k (mk_state (last_or (m_prev st) l) (skipn (length l) (m_rest st)) (m_group st))
    else None.
Proof.
  revert st; induction l as [|c l IH]; intros st.
  - simpl. now rewrite mk_state_eta.
  - change (Lit (c :: l)) with (Seq (Chr (N.eqb c)) (Lit l)). simpl.
    destruct (m_rest st) as [|x s]; [reflexivity|].
    destruct (c =? x) eqn:E; simpl; [|reflexivity].
    apply N.eqb_eq in E. subst x. now rewrite IH.
Qed.

Lemma matches_Star_Chr (p : cp -> bool) (st : mstate) (k : mstate -> option mstate) :
  matches U (Star (Chr p)) st k = star_chr p k (m_prev st) (m_group st) (m_rest st).
Proof.
  cbn [matches].
  generalize (Nat.le_refl (length (m_rest st))).
  generalize (length (m_rest st)) at 2 3 as n.
  intros n; revert st; induction n as [|n IH]; intros [prev s g] Hn; cbn [m_rest m_prev m_group] in *.
  - destruct s; [reflexivity | simpl in Hn; lia].
  - destruct s as [|c s]; [reflexivity|].
    cbn [star_chr]. destruct (p c); [|reflexivity].
    simpl in Hn. replace (length s <? length (c :: s))%nat with true
      by (symmetry; apply Nat.ltb_lt; simpl; lia).
    rewrite IH by (simpl; lia). reflexivity.
Qed.

(** When what follows cannot start with a character of the class, only the
    longest repetition can be followed. *)
Lemma star_chr_greedy (p : cp -> bool) (k : mstate -> option mstate) :
  (forall prev c s g, p c = true -> k (mk_state prev (c :: s) g) = None) ->
  forall s prev g,
    star_chr p k prev g s
    = k (mk_state (last_or prev (take_while p s)) (drop_while p s) g).
Proof.
  intros Hk s; induction s as [|c s IH]; intros prev g; simpl; [reflexivity|].
  destruct (p c) eqn:E; simpl; [|reflexivity].
  rewrite IH. rewrite (Hk prev c s g E).
  now destruct (k _).
Qed.

(** When what follows accepts the longest repetition, that is the match. *)
Lemma star_chr_longest (p : cp -> bool) (k : mstate -> option mstate) :
  forall s prev g x,
    k (mk_state (last_or prev (take_while p s)) (drop_while p s) g) = Some x ->
    star_chr p k prev g s = Some x.
Proof.
  intros s; induction s as [|c s IH]; intros prev g x; simpl; [trivial|].
  destruct (p c) eqn:E; simpl; [|trivial].
  intros H. now rewrite (IH _ _ _ H).
Qed.

Lemma matches_Seq (a b : regex) (st : mstate) (k : mstate -> option mstate) :
  matches U (Seq a b) st k = matches U a st (fun st' => matches U b st' k).
Proof. reflexivity. Qed.

Lemma matches_Alt (a b : regex) (st : mstate) (k : mstate -> option mstate) :
  matches U (Alt a b) st k
  = match matches U a st k with Some x => Some x | None => matches U b st k end.
Proof. reflexivity. Qed.

Lemma matches_Chr (p : cp -> bool) (st : mstate) (k : mstate -> option mstate) :
  matches U (Chr p) st k
  = match m_rest st with
    | c :: s => if p c then k (mk_state (Some c) s (m_group st)) else None
    | [] => None
    end.
Proof. reflexivity. Qed.

Lemma matches_Plus_Chr (p : cp -> bool) (st : mstate) (k : mstate -> option mstate) :
  matches U (Plus (Chr p)) st k
  = match m_rest st with
    | c :: s => if p c then star_chr p k (Some c) (m_group st) s else None
    | [] => None
    end.
Proof.
  unfold Plus. rewrite matches_Seq, matches_Chr.
  destruct (m_rest st) as [|c s]; [reflexivity|].
  destruct (p c); [|reflexivity]. now rewrite matches_Star_Chr.
Qed.

Lemma matches_Eps (st : mstate) (k : mstate -> option mstate) :
  matches U Eps st k = k st.
Proof. reflexivity. Qed.

Lemma matches_Bol (st : mstate) (k : mstate -> option mstate) :
  matches U Bol st k = match m_prev st with None => k st | Some _ => None end.
Proof. reflexivity. Qed.

Lemma matches_Eol (st : mstate) (k : mstate -> option mstate) :
  matches U Eol st k
  = match m_rest st with
    | [] => k st
    | [c] => if c =? NL then k st else None
    | _ => None
    end.
Proof. reflexivity. Qed.

Lemma matches_WordB (st : mstate) (k : mstate -> option mstate) :
  matches U WordB st k
  = if xorb (word_at U (m_prev st)) (word_at U (hd_error (m_rest st)))
    then k st else None.
Proof. reflexivity. Qed.

Lemma matches_Group (a : regex) (st : mstate) (k : mstate -> option mstate) :
  matches U (Group a) st k
  = matches U a st
      (fun st' => k (mk_state (m_prev st') (m_rest st')
                      (Some (firstn (length (m_rest st) - length (m_rest st'))
                                    (m_rest st))))).
Proof. reflexivity. Qed.

End Engine.

(** Comparisons of two given code points are evaluated. *)
Ltac eval_eqb :=
  repeat match goal with
         | |- context [N.eqb ?a ?b] =>
             let v := eval vm_compute in (N.eqb a b) in
             match v with
             | true => change (N.eqb a b) with true
             | false => change (N.eqb a b) with false
             end
         end.

(** One step of the matcher on the pattern at hand. *)
Ltac rx_step :=
  first [ rewrite matches_Seq | rewrite matches_Alt | rewrite matches_Lit
        | rewrite matches_Chr | rewrite matches_Star_Chr | rewrite matches_Eps
        | rewrite matches_Bol | rewrite matches_Eol | rewrite matches_WordB
        | rewrite matches_Group ];
  cbv beta;
  cbn [m_rest m_prev m_group mk_state start_state startswith skipn length last_or];
  eval_eqb; cbn [andb].

Ltac rx_step_in H :=
  first [ rewrite matches_Seq in H | rewrite matches_Alt in H | rewrite matches_Lit in H
        | rewrite matches_Chr in H | rewrite matches_Star_Chr in H
        | rewrite matches_Eps in H | rewrite matches_Bol in H | rewrite matches_Eol in H
        | rewrite matches_WordB in H | rewrite matches_Group in H ];
  cbv beta in H;
  cbn [m_rest m_prev m_group mk_state start_state startswith skipn length last_or] in H.

Ltac eval_lits :=
  repeat match goal with
         | |- context [lit ?s] =>
             let x := eval vm_compute in (lit s) in change (lit s) with x
         end.

(** ** The formula signals *)

Section Signals.

Variable U : unicode_db.
Variable h : host.

Lemma enumerate_from_In {A} (l : list A) (k i : nat) (x : A) :
  In (i, x) (enumerate_from k l) <-> (k <= i)%nat /\ nth_error l (i - k) = Some x.
Proof.
  revert k; induction l as [|y l IH]; intros k; simpl.
  - split; [tauto|]. intros [_ H]. now destruct (i - k)%nat.
  - rewrite IH. split.
    + intros [H|[Hk H]].
      * injection H as -> ->. rewrite Nat.sub_diag. now split.
      * split; [lia|]. replace (i - k)%nat with (S (i - S k)) by lia. exact H.
    + intros [Hk H]. destruct (Nat.eq_dec k i) as [->|Hne].
      * rewrite Nat.sub_diag in H. simpl in H. injection H as ->. now left.
      * right. split; [lia|]. replace (i - k)%nat with (S (i - S k)) in H by lia. exact H.
Qed.

(** The lines [math_lines] collects: every math-like line longer than 5 once
    stripped, with its number from 1 in the text. *)
Lemma math_lines_In (text : str) (n : nat) (l : str) :
  In (n, l) (math_lines U text)
  <-> exists i, n = S i /\ nth_error (splitlines text) i = Some l
                /\ is_math_like U l = true /\ (5 < length (py_strip l))%nat.
Proof.
  unfold math_lines. rewrite in_map_iff. split.
  - intros [[i x] [E H]]. simpl in E. injection E as <- <-.
    apply filter_In in H as [H Hc]. simpl in Hc.
    apply andb_true_iff in Hc as [Hm Hl]. apply Nat.ltb_lt in Hl.
    apply enumerate_from_In in H as [_ H]. rewrite Nat.sub_0_r in H.
    exists i. auto.
  - intros [i (-> & Hn & Hm & Hl)]. exists (i, l). split; [reflexivity|].
    apply filter_In. split.
    + apply enumerate_from_In. rewrite Nat.sub_0_r. split; [lia | exact Hn].
    + simpl. rewrite Hm. simpl. now apply Nat.ltb_lt.
Qed.

(** C1, as the code has it: the second and the third signal are computed over
    the text that the loop over the lines leaves, which is the page's text in
    the Cleaned Segments.  The second holds exactly when the transcript is
    longer than 50 and is not a substring of that text; the third collects
    every line of that text that is math-like and longer than 5 once
    stripped, with its number from 1 within that text; the record of a
    formula-bearing page stores these lines. *)
Theorem C1_signals_over_filtered_text (st : State) (pno : nat) (page : Page) :
  let text := filtered_page_text U (repaired_page_text U (get_text page)) in
  let transcript := ocr_transcript U page in
  let differs := (50 <? length transcript)%nat && negb (contains transcript text) in
  let lines := math_lines U text in
  let flagged := is_math_like U transcript || differs || nonempty lines in
  (forall n l, In (n, l) lines
               <-> exists i, n = S i /\ nth_error (splitlines text) i = Some l
                             /\ is_math_like U l = true
                             /\ (5 < length (py_strip l))%nat)
  /\ collected_segments (process_page U st pno page)
     = collected_segments st
       ++ (if nonempty text then [text] else [])
       ++ (if flagged then [FORMULA] else [])
  /\ formula_records (process_page U st pno page)
     = formula_records st
       ++ (if flagged
           then [{| rec_id := formula_counter st + 1; rec_page := pno + 1;
                    rec_imgfile := FormulaImage (pno + 1) (formula_counter st + 1);
                    rec_ocr := transcript; rec_lines := lines |}]
           else []).
Proof.
  cbv zeta. split; [|split].
  - intros n l. apply math_lines_In.
  - apply process_page_segments.
  - apply process_page_records.
Qed.

(** C1, as the specification words it, fails.  On a page whose only line is
    the caption [Figure 1: x = y + z] the text before the loop over the lines
    has a math-like line, but the loop drops it: the third signal is empty
    and the page is not formula-bearing.  On a page whose only line is a long
    caption that the OCR reads the same, the transcript is a substring of the
    text before the loop over the lines, but the second signal holds. *)
Lemma C1_signals_not_over_unfiltered_text :
  (forall U h, spec_complex_formula_lines U page_caption_equation = [(1%nat, caption_equation)]
               /\ complex_formula_lines U page_caption_equation = []
               /\ formula_bearing U page_caption_equation = false
               /\ formula_records (final_state (main U h [page_caption_equation])) = [])
  /\ (forall U h, spec_ocr_differs U page_long_caption = false
                  /\ ocr_differs U page_long_caption = true
                  /\ collected_segments (final_state (main U h [page_long_caption]))
                     = [FORMULA]).
Proof.
  split; intros V h0; rewrite ?main_records, ?main_segments; vm_compute; repeat split.
Qed.

(** C7: the transcript is the OCR text stripped of white space and then of
    Chinese characters, in that order.  Where the OCR text starts with a
    Chinese character and a space, the transcript stored in the Formula
    Record starts with that space. *)
Theorem C7_transcript_keeps_space_after_script :
  ocr_transcript U page_ocr_chinese = lit " x = 1"
  /\ formula_records (final_state (main U h [page_ocr_chinese]))
     = [{| rec_id := 1; rec_page := 1; rec_imgfile := FormulaImage 1 1;
           rec_ocr := lit " x = 1"; rec_lines := [] |}].
Proof. rewrite main_records. vm_compute. split; reflexivity. Qed.

End Signals.

(** ** Character classes *)

(** Comparisons of code points, decided by case analysis and arithmetic. *)
Ltac cmp_cases :=
  repeat (match goal with
          | |- context [N.leb ?a ?b] => destruct (N.leb_spec a b)
          | |- context [N.ltb ?a ?b] => destruct (N.ltb_spec a b)
          | |- context [N.eqb ?a ?b] => destruct (N.eqb_spec a b)
          end; cbn [andb orb negb xorb]; try (intros; lia); try (intros; discriminate));
  intros; try reflexivity; try lia; try discriminate.

Ltac unfold_classes :=
  unfold non_space, py_isspace, is_linebreak, is_alnum_dash, is_alnum_ascii,
    is_alpha_azAZ, is_upper_AZ, is_lower_az, is_digit_09, is_ascii, dot_or_paren,
    not_newline, in_range, NL, CR, SPACE, FFFD, DEGREE in *.

(** Facts about the classes: the comparisons in the hypotheses and in the
    goal are taken apart together. *)
Ltac classes :=
  unfold_classes;
  repeat match goal with H : @eq bool _ _ |- _ => revert H end;
  cmp_cases.

Lemma upper_not_space (c : cp) : is_upper_AZ c = true -> py_isspace c = false.
Proof. intros H. classes. Qed.

Lemma alpha_ascii (c : cp) : is_alpha_azAZ c = true -> is_ascii c = true.
Proof. intros H. classes. Qed.

Lemma alpha_lower (c : cp) : is_alpha_azAZ c = true -> is_lower_az (ascii_lower c) = true.
Proof.
  unfold ascii_lower. destruct (is_upper_AZ c) eqn:E; intros H; classes.
Qed.

Lemma ascii_lower_ascii (c : cp) : is_ascii (ascii_lower c) = true -> is_ascii c = true.
Proof.
  unfold ascii_lower. destruct (is_upper_AZ c) eqn:E; intros H; classes.
Qed.

Lemma ascii_lower_space (c : cp) : py_isspace (ascii_lower c) = false -> py_isspace c = false.
Proof.
  unfold ascii_lower. destruct (is_upper_AZ c) eqn:E; intros H; classes.
Qed.

Lemma space_not_upper (c : cp) : py_isspace c = true -> is_upper_AZ c = false.
Proof. intros H. classes. Qed.

(** ** Lower case and stripping *)

Section Lower.

Variable U : unicode_db.

Lemma to_lower_full_ascii (c : cp) :
  is_ascii c = true -> to_lower_full U c = [ascii_lower c].
Proof. intros H. unfold to_lower_full, ascii_lower. now rewrite H. Qed.

Lemma to_lower_full_space (c : cp) :
  py_isspace c = true -> to_lower_full U c = [c].
Proof.
  intros H. unfold to_lower_full. rewrite H.
  destruct (is_ascii c); [|reflexivity].
  now rewrite (space_not_upper c H).
Qed.

Lemma lower_from_ascii (c : cp) (before s : str) :
  is_ascii c = true ->
  lower_from U before (c :: s) = ascii_lower c :: lower_from U (c :: before) s.
Proof.
  intros H. simpl. rewrite (to_lower_full_ascii c H).
  replace (c =? 931) with false by (symmetry; classes). reflexivity.
Qed.

Lemma lower_from_space (c : cp) (before s : str) :
  py_isspace c = true ->
  lower_from U before (c :: s) = c :: lower_from U (c :: before) s.
Proof.
  intros H. simpl. rewrite (to_lower_full_space c H).
  replace (c =? 931) with false by (symmetry; classes). reflexivity.
Qed.

(** Lower-casing keeps a case-insensitive ASCII prefix. *)
Lemma lower_from_ci_prefix (p : str) :
  forallb is_ascii p = true ->
  forall s before, ci_startswith p s = true -> startswith p (lower_from U before s) = true.
Proof.
  unfold ci_startswith.
  induction p as [|a p IH]; intros Hp s before H; [reflexivity|].
  simpl in Hp. apply andb_true_iff in Hp as [Ha Hp].
  destruct s as [|c s]; [discriminate|].
  simpl in H. apply andb_true_iff in H as [Hc H].
  apply N.eqb_eq in Hc.
  assert (Hasc : is_ascii c = true) by (apply ascii_lower_ascii; now rewrite <- Hc).
  rewrite (lower_from_ascii c before s Hasc). simpl. rewrite <- Hc, N.eqb_refl. simpl.
  now apply IH.
Qed.

Lemma ci_startswith_lower (p s : str) :
  forallb is_ascii p = true ->
  ci_startswith p s = true -> startswith p (py_lower U s) = true.
Proof. intros Hp H. now apply lower_from_ci_prefix. Qed.

End Lower.

Lemma drop_while_app_keep (p : cp -> bool) (u v : str) (c : cp) :
  p c = false -> drop_while p (u ++ c :: v) = drop_while p u ++ c :: v.
Proof.
  intros Hc. induction u as [|d u IH]; simpl.
  - now rewrite Hc.
  - destruct (p d); [exact IH | reflexivity].
Qed.

(** Stripping on the right stops at a character that is kept. *)
Lemma rstrip_by_app_keep (p : cp -> bool) (x y : str) (c : cp) :
  p c = false -> rstrip_by p (x ++ c :: y) = x ++ c :: rstrip_by p y.
Proof.
  intros Hc. unfold rstrip_by.
  rewrite rev_app_distr. simpl. rewrite <- app_assoc. simpl.
  rewrite (drop_while_app_keep p (rev y) (rev x) c Hc).
  rewrite rev_app_distr. simpl. rewrite rev_involutive, <- app_assoc. reflexivity.
Qed.

Lemma py_strip_nil : py_strip [] = [].
Proof. reflexivity. Qed.

(** ** The line-drop classifier *)

Section DropLine.

Variable U : unicode_db.

Lemma caption_prefixes_ascii (p : str) :
  In p caption_prefixes -> forallb is_ascii p = true /\ p <> [].
Proof.
  unfold caption_prefixes. simpl.
  intros H. repeat (destruct H as [<-|H]; [split; [reflexivity | discriminate]|]).
  contradiction.
Qed.

Lemma ci_startswith_nil (p : str) : p <> [] -> ci_startswith p [] = false.
Proof. destruct p; [congruence | reflexivity]. Qed.

(** A line is dropped when its stripped text starts with a caption prefix. *)
Lemma caption_prefix_dropped (line p : str) :
  In p caption_prefixes ->
  ci_startswith p (py_strip line) = true ->
  should_drop_line U line = true.
Proof.
  intros Hin H. destruct (caption_prefixes_ascii p Hin) as [Hasc Hne].
  unfold should_drop_line.
  destruct line as [|c line]; [now rewrite py_strip_nil, ci_startswith_nil in H|].
  destruct (py_strip (c :: line)) as [|d stripped] eqn:E;
    [now rewrite ci_startswith_nil in H|].
  assert (Hc : caption_rule U (d :: stripped) = true).
  { unfold caption_rule, startswith_any. apply existsb_exists.
    exists p. split; [exact Hin | now apply ci_startswith_lower]. }
  now rewrite Hc.
Qed.

Lemma ci_startswith_spec (p s : str) :
  ci_startswith p s = true -> exists a t, s = a ++ t /\ map ascii_lower a = p.
Proof.
  unfold ci_startswith. revert s; induction p as [|x p IH]; intros s H.
  - exists [], s. now split.
  - destruct s as [|c s]; [discriminate|].
    simpl in H. apply andb_true_iff in H as [Hc H]. apply N.eqb_eq in Hc.
    destruct (IH s H) as (a & t & -> & <-).
    exists (c :: a), t. simpl. now rewrite Hc.
Qed.

(** A line that starts with [Figure 1: ], in any case, keeps [Figure] and a
    space at the start of its stripped text. *)
Lemma figure_1_stripped (line : str) :
  ci_startswith (lit "figure 1: ") line = true ->
  ci_startswith (lit "figure ") (py_strip line) = true.
Proof.
  intros H. apply ci_startswith_spec in H as (a & t & -> & Ha).
  do 10 (destruct a as [|? a]; [discriminate|]).
  destruct a; [|discriminate].
  cbn in Ha. injection Ha as H0 H1 H2 H3 H4 H5 H6 H7 H8 H9.
  unfold py_strip, strip_by, lstrip_by.
  assert (Hc0 : py_isspace c = false) by (apply ascii_lower_space; now rewrite H0).
  assert (Hc8 : py_isspace c7 = false) by (apply ascii_lower_space; now rewrite H8).
  cbn [drop_while app]. rewrite Hc0.
  change (c :: c0 :: c1 :: c2 :: c3 :: c4 :: c5 :: c6 :: c7 :: c8 :: t)
    with ([c; c0; c1; c2; c3; c4; c5; c6] ++ c7 :: c8 :: t).
  rewrite (rstrip_by_app_keep _ _ _ _ Hc8).
  unfold ci_startswith. cbn.
  rewrite H0, H1, H2, H3, H4, H5, H6. reflexivity.
Qed.

End DropLine.

Section LetterLabel.

Variable U : unicode_db.

Lemma star_chr_Some (p : cp -> bool) (s : str) (prev : option cp) (g : option str) :
  star_chr p Some prev g s
  = Some (mk_state (last_or prev (take_while p s)) (drop_while p s) g).
Proof. now apply star_chr_longest. Qed.

(** The letter-label pattern on a lower-case text: an optional opening
    parenthesis, a letter, a closing parenthesis, white space. *)
Lemma letter_label_paren (c w : cp) (rest : str) :
  is_lower_az c = true -> py_isspace w = true ->
  is_some (re_match U LETTER_LABEL (40 :: c :: 41 :: w :: rest)) = true
  /\ is_some (re_match U LETTER_LABEL (c :: 41 :: w :: rest)) = true.
Proof.
  intros Hc Hw.
  assert (Hne : (40 =? c) = false) by classes.
  unfold re_match, match_at, LETTER_LABEL, Opt, Plus. eval_lits.
  split.
  - repeat rx_step. rewrite Hc. repeat rx_step. rewrite Hw. repeat rx_step.
    now rewrite star_chr_Some.
  - repeat rx_step. rewrite Hne. repeat rx_step. rewrite Hc. repeat rx_step.
    rewrite Hw. repeat rx_step. now rewrite star_chr_Some.
Qed.

Lemma letter_label_bare (c w : cp) (rest : str) :
  is_lower_az c = true -> py_isspace w = true ->
  is_some (re_match U LETTER_LABEL (c :: w :: rest)) = false.
Proof.
  intros Hc Hw.
  assert (Hne : (40 =? c) = false) by classes.
  assert (Hnw : (41 =? w) = false) by classes.
  unfold re_match, match_at, LETTER_LABEL, Opt, Plus. eval_lits.
  repeat rx_step. rewrite Hne. repeat rx_step. rewrite Hc. repeat rx_step.
  rewrite Hnw. reflexivity.
Qed.

Lemma lower_label_paren (c w : cp) (rest : str) :
  is_alpha_azAZ c = true -> py_isspace w = true ->
  py_lower U (40 :: c :: 41 :: w :: rest)
  = 40 :: ascii_lower c :: 41 :: w :: lower_from U [w; 41; c; 40] rest.
Proof.
  intros Hc Hw. unfold py_lower.
  rewrite (lower_from_ascii U 40 _ _ eq_refl).
  rewrite (lower_from_ascii U c _ _ (alpha_ascii c Hc)).
  rewrite (lower_from_ascii U 41 _ _ eq_refl).
  rewrite (lower_from_space U w _ _ Hw). reflexivity.
Qed.

Lemma lower_label_noparen (c w : cp) (rest : str) :
  is_alpha_azAZ c = true -> py_isspace w = true ->
  py_lower U (c :: 41 :: w :: rest)
  = ascii_lower c :: 41 :: w :: lower_from U [w; 41; c] rest.
Proof.
  intros Hc Hw. unfold py_lower.
  rewrite (lower_from_ascii U c _ _ (alpha_ascii c Hc)).
  rewrite (lower_from_ascii U 41 _ _ eq_refl).
  rewrite (lower_from_space U w _ _ Hw). reflexivity.
Qed.

Lemma lower_label_bare (c w : cp) (rest : str) :
  is_alpha_azAZ c = true -> py_isspace w = true ->
  py_lower U (c :: w :: rest) = ascii_lower c :: w :: lower_from U [w; c] rest.
Proof.
  intros Hc Hw. unfold py_lower.
  rewrite (lower_from_ascii U c _ _ (alpha_ascii c Hc)).
  rewrite (lower_from_space U w _ _ Hw). reflexivity.
Qed.

End LetterLabel.

Section Classifier.

Variable U : unicode_db.

Lemma rule_dropped (line : str) (rule : str -> bool) :
  rule [] = false ->
  (forall s, rule s = true ->
     (if caption_rule U s then true
      else if bullet_rule U s then true
      else if letter_label_rule U s then true
      else if numbered_subitem_rule U s then true
      else if bare_number_rule U s then true else false) = true) ->
  rule (py_strip line) = true -> should_drop_line U line = true.
Proof.
  intros Hnil Hrule H. unfold should_drop_line.
  destruct line as [|c line]; [rewrite py_strip_nil in H; congruence|].
  destruct (py_strip (c :: line)) as [|d s] eqn:E; [congruence|].
  now apply Hrule.
Qed.

(** C6, as the code has it: a line is dropped when its text without the
    white space around it starts, in any case, with one of the eight caption
    prefixes; so is every line that starts with [Figure 1: ] in any case; the
    lines [Figures are great] and [Figure.] are kept. *)
Theorem C6_caption_lines_dropped :
  (forall line p, In p caption_prefixes ->
                  ci_startswith p (py_strip line) = true ->
                  should_drop_line U line = true)
  /\ (forall line, ci_startswith (lit "figure 1: ") line = true ->
                   should_drop_line U line = true)
  /\ should_drop_line U (lit "FIGURE 1: the set-up") = true
  /\ should_drop_line U (lit "Figures are great") = false
  /\ should_drop_line U (lit "Figure.") = false.
Proof.
  split; [|split; [|split; [|split]]].
  - intros line p. apply caption_prefix_dropped.
  - intros line H. apply (caption_prefix_dropped U line (lit "figure ")).
    + now left.
    + now apply figure_1_stripped.
  - vm_compute. reflexivity.
  - vm_compute. reflexivity.
  - vm_compute. reflexivity.
Qed.

End Classifier.

(** C6, as the specification words it, fails twice.  [figure.] is not one of
    the prefixes: the line [Figure.] is kept.  And the prefix is looked for
    after stripping: the line that is [Figure] and a space starts with a
    caption prefix and is kept. *)
Lemma C6_figure_dot_is_kept :
  (forall U, should_drop_line U (lit "Figure.") = false)
  /\ (forall U, In (lit "figure ") caption_prefixes
                /\ ci_startswith (lit "figure ") (lit "Figure ") = true
                /\ should_drop_line U (lit "Figure ") = false).
Proof. split; intros V; vm_compute; auto. Qed.

(** ** The article-metadata remover *)

Section ArticleInfoFacts.

Variable U : unicode_db.

Lemma scan_line_not_found (sc : scan) (line : str) :
  contains (lit "ABSTRACT") (py_upper U (py_strip line)) = false ->
  found_abstract sc = false ->
  found_abstract (scan_line U sc line) = false.
Proof.
  intros Hl Hf. unfold scan_line. cbv zeta. rewrite Hl, Hf. cbn [andb negb].
  repeat match goal with
         | |- found_abstract (if ?b then _ else _) = false => destruct b
         | |- found_abstract (match ?s with [] => _ | _ :: _ => _ end) = false => destruct s
         end; try exact Hf; try reflexivity.
Qed.

Lemma scan_lines_not_found (lines : list str) (sc : scan) :
  no_abstract_marker U lines ->
  found_abstract sc = false ->
  found_abstract (fold_left (scan_line U) lines sc) = false.
Proof.
  revert sc; induction lines as [|l lines IH]; intros sc Hl Hf; simpl; [exact Hf|].
  apply IH.
  - intros x Hx. apply Hl. now right.
  - apply scan_line_not_found; [apply Hl; now left | exact Hf].
Qed.

Lemma fallback_result (text : str) :
  no_abstract_marker U (split_on NL text) ->
  clean_article_info_section U text
  = join [NL] (filter nonblank (map (remove_urls U) (split_on NL text))).
Proof.
  intros H. unfold clean_article_info_section.
  destruct text as [|c text]; [reflexivity|].
  cbv zeta. now rewrite (scan_lines_not_found _ scan_init H eq_refl).
Qed.

End ArticleInfoFacts.


(** ** Substitution *)

Section Substitution.

Variable U : unicode_db.
Variable r : regex.
Variable repl : str -> str.

Lemma last_or_app (prev : option cp) (a b : str) :
  last_or prev (a ++ b) = last_or (last_or prev a) b.
Proof. revert prev; induction a as [|c a IH]; intros prev; simpl; [reflexivity | apply IH]. Qed.

Lemma sub_from_skip (a s : str) (prev : option cp) :
  sub_from U r repl (length a) prev (a ++ s)
  = sub_from U r repl 0 (last_or prev a) s.
Proof.
  revert prev; induction a as [|c a IH]; intros prev; simpl; [reflexivity|].
  apply IH.
Qed.

Lemma match_length_bounds (prev : option cp) (s : str) (n : nat) :
  match_length U r prev s = Some n -> (1 <= n <= length s)%nat.
Proof.
  unfold match_length. destruct (match_at U r prev s) as [st'|]; [|discriminate].
  destruct (length s - length (m_rest st'))%nat eqn:E; [discriminate|].
  intros H. injection H as <-. lia.
Qed.

(** One step of the substitution: at a match, its replacement and on after
    it; otherwise one character on. *)
Lemma sub_from_step (prev : option cp) (s : str) :
  sub_from U r repl 0 prev s
  = match match_length U r prev s with
    | Some n => repl (firstn n s)
                ++ sub_from U r repl 0 (last_or prev (firstn n s)) (skipn n s)
    | None => match s with
              | [] => []
              | c :: s' => c :: sub_from U r repl 0 (Some c) s'
              end
    end.
Proof.
  destruct s as [|c s].
  - unfold match_length. simpl. now destruct (match_at U r prev []).
  - pose proof (match_length_bounds prev (c :: s)) as Hb.
    unfold match_length in *. cbn [sub_from].
    destruct (match_at U r prev (c :: s)) as [st'|]; [|reflexivity].
    destruct (length (c :: s) - length (m_rest st'))%nat as [|k] eqn:E; [reflexivity|].
    specialize (Hb (S k) eq_refl). simpl in Hb.
    f_equal.
    rewrite <- (firstn_skipn k s) at 1.
    rewrite <- (sub_from_skip (firstn k s) (skipn k s) (Some c)) at 1.
    rewrite length_firstn, Nat.min_l by lia. reflexivity.
Qed.


(** Where every match is replaced by itself, the substitution changes
    nothing. *)
Lemma sub_from_fixed :
  forall (s : str) (prev : option cp),
    (forall x1 x2 n, s = x1 ++ x2 ->
       match_length U r (last_or prev x1) x2 = Some n ->
       repl (firstn n x2) = firstn n x2) ->
    sub_from U r repl 0 prev s = s.
Proof.
  intros s. remember (length s) as n eqn:Hn.
  revert s Hn. induction n as [n IH] using lt_wf_ind. intros s Hn prev H.
  rewrite sub_from_step.
  destruct (match_length U r prev s) as [k|] eqn:E.
  - rewrite (H [] s k eq_refl E).
    pose proof (match_length_bounds prev s k E) as Hb.
    rewrite (IH (length (skipn k s))).
    + apply firstn_skipn.
    + subst n. rewrite length_skipn. lia.
    + reflexivity.
    + intros x1 x2 m Hx Hm. rewrite <- last_or_app in Hm.
      apply (H (firstn k s ++ x1) x2 m); [|exact Hm].
      now rewrite <- app_assoc, <- Hx, firstn_skipn.
  - destruct s as [|c s]; [reflexivity|]. f_equal.
    apply (IH (length s)); [subst n; simpl; lia | reflexivity |].
    intros x1 x2 m Hx Hm. apply (H (c :: x1) x2 m); [now rewrite Hx | exact Hm].
Qed.

(** Where the matches do not depend on the character before, neither does
    the substitution. *)
Lemma sub_from_prev :
  (forall p p' s, match_length U r p s = match_length U r p' s) ->
  forall (s : str) (p p' : option cp),
    sub_from U r repl 0 p s = sub_from U r repl 0 p' s.
Proof.
  intros Hp s. remember (length s) as n eqn:Hn.
  revert s Hn. induction n as [n IH] using lt_wf_ind. intros s Hn p p'.
  rewrite (sub_from_step p s), (sub_from_step p' s), (Hp p p' s).
  destruct (match_length U r p' s) as [k|] eqn:E.
  - apply match_length_bounds in E. f_equal.
    apply (IH (length (skipn k s))); [subst n; rewrite length_skipn; lia | reflexivity].
  - destruct s as [|c s]; [reflexivity|]. reflexivity.
Qed.

(** Where a replacement ends as the match does, the result ends as the
    text does. *)
Lemma sub_from_last :
  (forall p s n q, match_length U r p s = Some n ->
                   last_or q (repl (firstn n s)) = last_or q (firstn n s)) ->
  forall (s : str) (p q : option cp),
    last_or q (sub_from U r repl 0 p s) = last_or q s.
Proof.
  intros Hl s. remember (length s) as n eqn:Hn.
  revert s Hn. induction n as [n IH] using lt_wf_ind. intros s Hn p q.
  rewrite (sub_from_step p s).
  destruct (match_length U r p s) as [k|] eqn:E.
  - rewrite last_or_app, (Hl p s k q E).
    pose proof (match_length_bounds p s k E) as Hb.
    rewrite (IH (length (skipn k s))); [|subst n; rewrite length_skipn; lia | reflexivity].
    now rewrite <- last_or_app, firstn_skipn.
  - destruct s as [|c s]; [reflexivity|]. cbn [last_or].
    apply (IH (length s)); [subst n; simpl; lia | reflexivity].
Qed.

End Substitution.

(** ** Literal replacement as a substitution *)

Section Literal.

Variable U : unicode_db.

Lemma startswith_length (p s : str) :
  startswith p s = true -> (length p <= length s)%nat.
Proof.
  revert s; induction p as [|a p IH]; intros s; simpl; [lia|].
  destruct s as [|c s]; [discriminate|].
  intros H. apply andb_true_iff in H as [_ H]. apply IH in H. simpl. lia.
Qed.

Lemma match_length_Lit (old : str) (prev : option cp) (s : str) :
  old <> [] ->
  match_length U (Lit old) prev s
  = if startswith old s then Some (length old) else None.
Proof.
  intros Hne. unfold match_length, match_at. rewrite matches_Lit.
  cbn [start_state m_rest m_prev m_group].
  destruct (startswith old s) eqn:E; [|reflexivity].
  apply startswith_length in E. cbn [m_rest mk_state].
  rewrite length_skipn.
  destruct old as [|a old]; [congruence|]. cbn [length] in *.
  replace (length s - (length s - S (length old)))%nat with (S (length old)) by lia.
  reflexivity.
Qed.

Lemma replace_from_sub (old new : str) :
  old <> [] ->
  forall (s : str) (k : nat) (prev : option cp),
    replace_from old new k s = sub_from U (Lit old) (fun _ => new) k prev s.
Proof.
  intros Hne s; induction s as [|c s IH]; intros k prev; [reflexivity|].
  cbn [replace_from sub_from]. destruct k as [|k]; [|apply IH].
  pose proof (match_length_Lit old prev (c :: s) Hne) as Hm.
  unfold match_length in Hm.
  destruct (startswith old (c :: s)) eqn:E.
  - destruct (match_at U (Lit old) prev (c :: s)) as [st'|]; [|discriminate].
    destruct (length (c :: s) - length (m_rest st'))%nat as [|j]; [discriminate|].
    injection Hm as Hj. f_equal. rewrite <- Hj.
    replace (S j - 1)%nat with j by lia. apply IH.
  - destruct (match_at U (Lit old) prev (c :: s)) as [st'|]; [|f_equal; apply IH].
    destruct (length (c :: s) - length (m_rest st'))%nat as [|j]; [|discriminate].
    f_equal; apply IH.
Qed.

Lemma py_replace_sub (old new s : str) :
  old <> [] -> py_replace old new s = re_sub U (Lit old) (fun _ => new) s.
Proof. intros H. now apply replace_from_sub. Qed.

(** Without an occurrence, nothing is replaced. *)
Lemma replace_from_no_count (old new : str) (s : str) :
  forall k, count_from old k s = 0%nat -> replace_from old new k s = skipn k s.
Proof.
  induction s as [|c s IH]; intros k H; [now destruct k|].
  cbn [replace_from count_from] in *. destruct k as [|k]; [|now apply IH].
  destruct (startswith old (c :: s)); [discriminate|].
  cbn [skipn]. f_equal. now rewrite IH.
Qed.

End Literal.

(** ** The Celsius repair *)

Section Celsius.

Variable U : unicode_db.


(** The repair is the literal replacement and then the pattern. *)
Lemma repair_celsius_steps (s : str) :
  repair_celsius U s = celsius_pattern U (celsius_literal s).
Proof.
  unfold repair_celsius, celsius_pattern, celsius_literal. cbv zeta.
  fold GARBLE_C. fold DEGREE_C.
  destruct (0 <? py_count GARBLE_C s)%nat eqn:E; [reflexivity|].
  apply Nat.ltb_ge in E. unfold py_replace, py_count in *.
  rewrite replace_from_no_count by lia. reflexivity.
Qed.

Lemma take_while_length (p : cp -> bool) (s : str) :
  length s = (length (take_while p s) + length (drop_while p s))%nat.
Proof. now rewrite <- length_app, take_drop_while. Qed.

Lemma match_length_garble (prev : option cp) (s : str) :
  match_length U CELSIUS_GARBLE prev s = garble_length s.
Proof.
  unfold match_length, match_at, CELSIUS_GARBLE, Plus, garble_length. eval_lits.
  repeat rx_step. destruct s as [|c s]; [reflexivity|].
  destruct (is_garble c) eqn:Ec; [|reflexivity].
  repeat rx_step.
  rewrite star_chr_greedy.
  - rx_step. pose proof (take_while_length is_garble s) as Hl.
    destruct (drop_while is_garble s) as [|x t]; [reflexivity|].
    rewrite andb_true_r. destruct (67 =? x); [|reflexivity].
    cbn [m_rest mk_state length] in *.
    match goal with |- match ?n with _ => _ end = _ =>
      replace n with (2 + length (take_while is_garble s))%nat by lia end.
    reflexivity.
  - intros prev' d s' g Hd. rx_step. unfold is_garble in Hd.
    apply N.eqb_eq in Hd. subst d. reflexivity.
Qed.

End Celsius.

Section CelsiusSplit.

Variable U : unicode_db.

Lemma celsius_literal_from (s : str) : celsius_literal s = literal_from U None s.
Proof. unfold celsius_literal. now rewrite (py_replace_sub U) by discriminate. Qed.



Lemma repair_celsius_from (s : str) :
  repair_celsius U s = pattern_from U None (literal_from U None s).
Proof. now rewrite repair_celsius_steps, celsius_literal_from. Qed.

(** *** The last character *)


Lemma last_or_Some (s : str) (c : cp) (q : option cp) :
  last_or (Some c) s = last_or q (c :: s).
Proof. reflexivity. Qed.



Lemma garble_length_shape (s : str) (n : nat) :
  garble_length s = Some n ->
  exists k t, s = repeat FFFD (S k) ++ 67 :: t /\ n = S (S k).
Proof.
  unfold garble_length. destruct s as [|c s]; [discriminate|].
  destruct (is_garble c) eqn:Ec; [|discriminate].
  pose proof (take_drop_while is_garble s) as Hs.
  destruct (drop_while is_garble s) as [|x t] eqn:Ed; [discriminate|].
  destruct (67 =? x) eqn:Ex; [|discriminate].
  intros H. injection H as <-.
  apply N.eqb_eq in Ex. subst x. unfold is_garble in Ec. apply N.eqb_eq in Ec. subst c.
  exists (length (take_while is_garble s)), t. split; [|reflexivity].
  rewrite <- Hs at 1. cbn [repeat app]. do 2 f_equal.
  clear. induction s as [|d s IH]; [reflexivity|]. simpl.
  destruct (is_garble d) eqn:Ed; [|reflexivity]. simpl.
  unfold is_garble in Ed. apply N.eqb_eq in Ed. now rewrite <- Ed, IH at 1.
Qed.

Lemma pattern_from_last (s : str) (p q : option cp) :
  last_or q (pattern_from U p s) = last_or q s.
Proof.
  apply sub_from_last. intros p' t n q' H.
  rewrite match_length_garble in H.
  apply garble_length_shape in H as (k & t' & -> & ->).
  replace (S (S k)) with (length (repeat FFFD (S k) ++ [67])) by (rewrite length_app, repeat_length; simpl; lia).
  change (67 :: t') with ([67] ++ t'). rewrite app_assoc.
  rewrite firstn_app, Nat.sub_diag, firstn_all, app_nil_r.
  now rewrite last_or_app.
Qed.


End CelsiusSplit.

Section CelsiusBarriers.

Variable U : unicode_db.














End CelsiusBarriers.

Section CelsiusFacts.

Variable U : unicode_db.








End CelsiusFacts.

Section CelsiusClean.

Variable U : unicode_db.

Lemma contains_cons (sub s : str) (c : cp) :
  contains sub (c :: s) = startswith sub (c :: s) || contains sub s.
Proof. reflexivity. Qed.

Lemma contains_suffix (sub x1 x2 : str) :
  contains sub x2 = true -> contains sub (x1 ++ x2) = true.
Proof.
  intros H. induction x1 as [|c x1 IH]; [exact H|].
  cbn [app]. rewrite contains_cons, IH. apply orb_true_r.
Qed.

Lemma contains_starts (sub s : str) : startswith sub s = true -> contains sub s = true.
Proof. intros H. destruct s; simpl in *; now rewrite H. Qed.

Lemma garble_run_contains (s t : str) (c : cp) :
  is_garble c = true -> drop_while is_garble s = 67 :: t ->
  contains GARBLE_BEFORE_C (c :: s) = true.
Proof.
  revert c; induction s as [|d s IH]; intros c Hc H; [discriminate|].
  cbn [drop_while] in H. rewrite contains_cons.
  destruct (is_garble d) eqn:Ed.
  - rewrite (IH d Ed H). apply orb_true_r.
  - injection H as -> _. unfold is_garble in Hc. apply N.eqb_eq in Hc. subst c.
    reflexivity.
Qed.

Lemma garble_length_contains (s : str) (n : nat) :
  garble_length s = Some n -> contains GARBLE_BEFORE_C s = true.
Proof.
  unfold garble_length. destruct s as [|c s]; [discriminate|].
  destruct (is_garble c) eqn:Ec; [|discriminate].
  destruct (drop_while is_garble s) as [|x t] eqn:Ed; [discriminate|].
  destruct (67 =? x) eqn:Ex; [|discriminate]. intros _.
  apply N.eqb_eq in Ex. subst x. exact (garble_run_contains s t c Ec Ed).
Qed.

Lemma starts_garble_c_contains (s : str) :
  startswith GARBLE_C s = true -> contains GARBLE_BEFORE_C s = true.
Proof.
  intros H. apply startswith_spec in H as [t ->].
  apply (contains_suffix GARBLE_BEFORE_C [FFFD] (FFFD :: 67 :: t)). reflexivity.
Qed.

Lemma pattern_from_head_C (s t : str) (p : option cp) :
  pattern_from U p s = 67 :: t -> exists s', s = 67 :: s'.
Proof.
  unfold pattern_from. rewrite sub_from_step, match_length_garble.
  destruct (garble_length s) as [n|]; [discriminate|].
  destruct s as [|c s]; [discriminate|]. intros H. injection H as -> _. now exists s.
Qed.

(** After the pattern, no replacement character stands before a C. *)
Lemma pattern_from_clean (s : str) :
  forall p, contains GARBLE_BEFORE_C (pattern_from U p s) = false.
Proof.
  remember (length s) as n eqn:Hn.
  revert s Hn. induction n as [n IH] using lt_wf_ind. intros s Hn p.
  unfold pattern_from. rewrite sub_from_step, match_length_garble.
  destruct (garble_length s) as [k|] eqn:E.
  - assert (Hb : (1 <= k <= length s)%nat).
    { apply (match_length_bounds U CELSIUS_GARBLE p). now rewrite match_length_garble. }
    cbn [DEGREE_C app]. change (lit "C" ++ ?x) with (67 :: x).
    rewrite !contains_cons. cbn [startswith GARBLE_BEFORE_C].
    change (FFFD =? DEGREE) with false. change (FFFD =? 67) with false. cbn [andb orb].
    apply (IH (length (skipn k s))); [subst n; rewrite length_skipn; lia | reflexivity].
  - destruct s as [|c s]; [reflexivity|].
    rewrite contains_cons.
    fold (pattern_from U (Some c) s).
    rewrite (IH (length s)) by (subst n; simpl; lia || reflexivity).
    rewrite orb_false_r. cbn [startswith GARBLE_BEFORE_C].
    destruct (FFFD =? c) eqn:Ec; [|reflexivity]. cbn [andb].
    destruct (pattern_from U (Some c) s) as [|x t] eqn:Ep; [reflexivity|].
    rewrite andb_true_r. destruct (67 =? x) eqn:Ex; [|reflexivity].
    apply N.eqb_eq in Ex. subst x.
    apply pattern_from_head_C in Ep as [s' ->].
    unfold garble_length in E. unfold is_garble in E. rewrite Ec in E.
    cbn in E. discriminate.
Qed.

(** Where no replacement character stands before a C, both steps leave the
    text as it is. *)
Lemma literal_from_fixed (t : str) (p : option cp) :
  contains GARBLE_BEFORE_C t = false -> literal_from U p t = t.
Proof.
  intros H. apply sub_from_fixed. intros x1 x2 n -> Hm.
  rewrite match_length_Lit in Hm by discriminate.
  destruct (startswith GARBLE_C x2) eqn:E; [|discriminate].
  apply starts_garble_c_contains in E.
  now rewrite (contains_suffix _ x1 x2 E) in H.
Qed.

Lemma pattern_from_fixed (t : str) (p : option cp) :
  contains GARBLE_BEFORE_C t = false -> pattern_from U p t = t.
Proof.
  intros H. apply sub_from_fixed. intros x1 x2 n -> Hm.
  rewrite match_length_garble in Hm.
  apply garble_length_contains in Hm.
  now rewrite (contains_suffix _ x1 x2 Hm) in H.
Qed.

Lemma repair_celsius_clean (s : str) :
  contains GARBLE_BEFORE_C (repair_celsius U s) = false.
Proof. rewrite repair_celsius_from. apply pattern_from_clean. Qed.

Lemma repair_celsius_fixed (t : str) :
  contains GARBLE_BEFORE_C t = false -> repair_celsius U t = t.
Proof.
  intros H. rewrite repair_celsius_from, literal_from_fixed by exact H.
  now apply pattern_from_fixed.
Qed.

Lemma repair_celsius_idempotent (s : str) :
  repair_celsius U (repair_celsius U s) = repair_celsius U s.
Proof. apply repair_celsius_fixed, repair_celsius_clean. Qed.

(** *** Runs of garble characters *)





End CelsiusClean.


(** ** Script removal *)

Section Script.

Variable U : unicode_db.

Lemma match_length_Chr (p : cp -> bool) (prev : option cp) (s : str) :
  match_length U (Chr p) prev s
  = match s with
    | c :: _ => if p c then Some 1%nat else None
    | [] => None
    end.
Proof.
  unfold match_length, match_at. rx_step.
  destruct s as [|c s]; [reflexivity|].
  destruct (p c); [|reflexivity].
  cbn [m_rest mk_state length]. replace (S (length s) - length s)%nat with 1%nat by lia.
  reflexivity.
Qed.

Lemma sub_from_Chr_filter (p : cp -> bool) (s : str) :
  forall prev, sub_from U (Chr p) (fun _ => []) 0 prev s = filter (fun c => negb (p c)) s.
Proof.
  induction s as [|c s IH]; intros prev; [reflexivity|].
  rewrite sub_from_step, match_length_Chr. cbn [filter].
  destruct (p c); cbn [negb firstn skipn app]; [apply IH | f_equal; apply IH].
Qed.

(** Script removal keeps the code points outside the five ranges. *)
Lemma remove_chinese_characters_filter (text : str) :
  remove_chinese_characters U text = filter (fun c => negb (is_cjk c)) text.
Proof.
  unfold remove_chinese_characters, re_sub, CHINESE_CHAR_PATTERN.
  destruct text as [|c text]; [reflexivity|]. apply sub_from_Chr_filter.
Qed.

Lemma filter_idempotent {A} (f : A -> bool) (l : list A) :
  filter f (filter f l) = filter f l.
Proof.
  induction l as [|x l IH]; [reflexivity|]. simpl.
  destruct (f x) eqn:E; simpl; [now rewrite E, IH | exact IH].
Qed.

Lemma remove_chinese_characters_idempotent (text : str) :
  remove_chinese_characters U (remove_chinese_characters U text)
  = remove_chinese_characters U text.
Proof. rewrite !remove_chinese_characters_filter. apply filter_idempotent. Qed.

End Script.

(** ** Numeric heading prefixes *)

Section Heading.

Variable U : unicode_db.

(** A greedy repetition that succeeds hands over at some point of the text. *)
Lemma star_chr_result (p : cp -> bool) (k : mstate -> option mstate) (s : str) :
  forall prev g x,
    star_chr p k prev g s = Some x ->
    exists prev' s', k (mk_state prev' s' g) = Some x /\ (length s' <= length s)%nat.
Proof.
  induction s as [|c s IH]; intros prev g x H; cbn [star_chr] in H.
  - exists prev, []. now split.
  - destruct (p c).
    + destruct (star_chr p k (Some c) g s) as [y|] eqn:E.
      * injection H as <-. destruct (IH _ _ _ E) as (prev' & s' & Hk & Hl).
        exists prev', s'. split; [exact Hk | simpl; lia].
      * exists prev, (c :: s). now split.
    + exists prev, (c :: s). now split.
Qed.

Lemma alpha_not_space (c : cp) : is_alpha_azAZ c = true -> py_isspace c = false.
Proof. intros H. classes. Qed.

Lemma alpha_not_digit (c : cp) : is_alpha_azAZ c = true -> re_digit U c = false.
Proof.
  intros H. unfold re_digit. rewrite (alpha_ascii c H). classes.
Qed.

(** The heading pattern does not match a text that starts with a letter. *)
Lemma heading_no_match_on_letter (c : cp) (s : str) :
  is_alpha_azAZ c = true -> re_match U (NUMERIC_HEADING U) (c :: s) = None.
Proof.
  intros Hc. unfold re_match, match_at, NUMERIC_HEADING, Plus.
  repeat rx_step. cbn [star_chr]. rewrite (alpha_not_space c Hc).
  repeat rx_step. now rewrite (alpha_not_digit c Hc).
Qed.

(** The group of a match of the heading pattern starts with a letter. *)
Lemma heading_group_letter (line : str) (st : mstate) (g : str) :
  re_match U (NUMERIC_HEADING U) line = Some st -> m_group st = Some g ->
  exists c g', g = c :: g' /\ is_alpha_azAZ c = true.
Proof.
  unfold re_match, match_at, NUMERIC_HEADING, Plus. eval_lits.
  intros H Hg. repeat rx_step_in H.
  apply star_chr_result in H as (p1 & s1 & H & _).
  repeat rx_step_in H.
  destruct s1 as [|d s1]; [discriminate|].
  destruct (re_digit U d); [|discriminate].
  repeat rx_step_in H.
  apply star_chr_result in H as (p2 & s2 & H & _).
  repeat rx_step_in H.
  destruct s2 as [|d2 s2]; [discriminate|].
  destruct ((46 =? d2) && true); [|discriminate].
  repeat rx_step_in H.
  destruct s2 as [|w s3]; [discriminate|].
  destruct (py_isspace w); [|discriminate].
  repeat rx_step_in H.
  apply star_chr_result in H as (p4 & s4 & H & _).
  repeat rx_step_in H.
  destruct s4 as [|c s5]; [discriminate|].
  destruct (is_alpha_azAZ c) eqn:Ec; [|discriminate].
  repeat rx_step_in H.
  apply star_chr_result in H as (p6 & s6 & H & Hl).
  repeat rx_step_in H.
  assert (Hst : m_group st = Some (firstn (length (c :: s5) - length s6) (c :: s5))).
  { destruct s6 as [|e [|e' s6]]; [injection H as <-; reflexivity| |discriminate].
    destruct (e =? NL); [injection H as <-; reflexivity | discriminate]. }
  assert (Hf : exists g', firstn (length (c :: s5) - length s6) (c :: s5) = c :: g').
  { cbn [length].
    replace (S (length s5) - length s6)%nat with (S (length s5 - length s6)) by lia.
    cbn [firstn]. now eexists. }
  destruct Hf as [g' Hf]. rewrite Hst, Hf in Hg. injection Hg as <-.
  now exists c, g'.
Qed.

Lemma remove_numeric_heading_prefix_idempotent (line : str) :
  remove_numeric_heading_prefix U (remove_numeric_heading_prefix U line)
  = remove_numeric_heading_prefix U line.
Proof.
  destruct line as [|a line]; [reflexivity|].
  assert (H : remove_numeric_heading_prefix U (a :: line) = a :: line
              \/ exists c g', remove_numeric_heading_prefix U (a :: line) = c :: g'
                              /\ is_alpha_azAZ c = true).
  { unfold remove_numeric_heading_prefix.
    destruct (re_match U (NUMERIC_HEADING U) (a :: line)) as [st|] eqn:E; [|now left].
    destruct (m_group st) as [g|] eqn:Eg; [|now left].
    right. destruct (heading_group_letter _ _ _ E Eg) as (c & g' & -> & Hc).
    now exists c, g'. }
  destruct H as [H|(c & g' & H & Hc)]; rewrite H.
  - exact H.
  - unfold remove_numeric_heading_prefix.
    now rewrite (heading_no_match_on_letter c g' Hc).
Qed.

End Heading.

(** ** URL removal *)

Section UrlMatch.

Variable U : unicode_db.

Lemma matches_Lit_strip (l : str) (st : mstate) (k : mstate -> option mstate) :
  matches U (Lit l) st k
  = and_then (strip_prefix l (m_rest st))
      (fun s => k (mk_state (last_or (m_prev st) l) s (m_group st))).
Proof. rewrite matches_Lit. unfold strip_prefix. now destruct (startswith l (m_rest st)). Qed.

(** One or more non-space characters at the end of a pattern. *)
Lemma plus_non_space_end (st : mstate) :
  option_map m_rest (matches U (Plus (Chr non_space)) st Some)
  = after_non_space (m_rest st).
Proof.
  rewrite matches_Plus_Chr. unfold after_non_space.
  destruct (m_rest st) as [|c s]; [reflexivity|].
  destruct (non_space c); [|reflexivity]. now rewrite star_chr_Some.
Qed.

Lemma option_map_or_else {A B} (f : A -> B) (a b : option A) :
  option_map f (match a with Some x => Some x | None => b end)
  = or_else (option_map f a) (option_map f b).
Proof. now destruct a. Qed.

Lemma option_map_and_then {A B C} (f : B -> C) (a : option A) (g : A -> option B) :
  option_map f (and_then a g) = and_then a (fun x => option_map f (g x)).
Proof. now destruct a. Qed.

Lemma and_then_ext {A B} (a : option A) (f g : A -> option B) :
  (forall x, f x = g x) -> and_then a f = and_then a g.
Proof. intros H. destruct a; [apply H | reflexivity]. Qed.

Lemma dot_not_alnum_dash (c : cp) : is_alnum_dash c = true -> (46 =? c) = false.
Proof. intros H. classes. Qed.

Lemma space_not_non_space (c : cp) : py_isspace c = true -> non_space c = false.
Proof. intros H. unfold non_space. now rewrite H. Qed.

(** The URL pattern at a position: where its match ends. *)
Lemma url_match_rest (prev : option cp) (s : str) :
  option_map m_rest (match_at U URL_PATTERN prev s) = url_rest s.
Proof.
  unfold match_at, URL_PATTERN, url_rest, Opt.
  rewrite matches_Alt, option_map_or_else. f_equal.
  - rewrite matches_Seq, matches_Lit_strip, option_map_and_then.
    apply and_then_ext. intros s1. cbn [start_state m_rest m_prev m_group].
    rewrite matches_Seq, matches_Alt, option_map_or_else. f_equal.
    + rewrite matches_Lit_strip, option_map_and_then.
      apply and_then_ext. intros s2. cbn [mk_state m_rest m_prev m_group].
      rewrite matches_Seq, matches_Lit_strip, option_map_and_then.
      apply and_then_ext. intros s3. cbn [mk_state m_rest m_prev m_group].
      apply plus_non_space_end.
    + rewrite matches_Eps, matches_Seq, matches_Lit_strip, option_map_and_then.
      apply and_then_ext. intros s3. cbn [mk_state m_rest m_prev m_group].
      apply plus_non_space_end.
  - rewrite matches_Alt, option_map_or_else. f_equal.
    + rewrite matches_Seq, matches_Lit_strip, option_map_and_then.
      apply and_then_ext. intros s1. cbn [start_state m_rest m_prev m_group].
      rewrite matches_Seq, matches_Chr. cbn [mk_state m_rest m_prev m_group].
      destruct s1 as [|a s2]; [reflexivity|].
      destruct (is_alnum_ascii a); [|reflexivity].
      rewrite matches_Seq, matches_Star_Chr. cbn [mk_state m_rest m_prev m_group].
      rewrite star_chr_greedy.
      * rewrite matches_Seq, matches_Lit_strip, option_map_and_then.
        apply and_then_ext. intros s3. cbn [mk_state m_rest m_prev m_group].
        apply plus_non_space_end.
      * intros p c t g Hc. rewrite matches_Seq, matches_Lit.
        cbn [mk_state m_rest]. eval_lits. cbn [startswith].
        now rewrite (dot_not_alnum_dash c Hc).
    + rewrite matches_Seq, matches_Alt, option_map_or_else. f_equal.
      * rewrite matches_Lit_strip, option_map_and_then.
        apply and_then_ext. intros s1. cbn [start_state mk_state m_rest m_prev m_group].
        apply plus_non_space_end.
      * rewrite matches_Seq, matches_Lit_strip, option_map_and_then.
        apply and_then_ext. intros s1. cbn [start_state mk_state m_rest m_prev m_group].
        rewrite matches_Star_Chr. cbn [mk_state m_rest m_prev m_group].
        rewrite star_chr_greedy.
        -- apply plus_non_space_end.
        -- intros p c t g Hc. rewrite matches_Plus_Chr. cbn [mk_state m_rest].
           now rewrite (space_not_non_space c Hc).
Qed.

End UrlMatch.

Section UrlShape.

Variable U : unicode_db.

Lemma strip_prefix_Some (p s s1 : str) :
  strip_prefix p s = Some s1 -> s = p ++ s1.
Proof.
  unfold strip_prefix. destruct (startswith p s) eqn:E; [|discriminate].
  intros H. injection H as <-. apply startswith_spec in E as [t ->].
  now rewrite skipn_app, Nat.sub_diag, skipn_all.
Qed.

Lemma drop_while_non_space_head (s : str) :
  match drop_while non_space s with [] => True | w :: _ => py_isspace w = true end.
Proof.
  destruct (drop_while non_space s) as [|w r] eqn:E; [exact I|].
  apply drop_while_head in E. unfold non_space in E. now destruct (py_isspace w).
Qed.

Lemma after_non_space_Some (s r : str) :
  after_non_space s = Some r ->
  exists c m, s = (c :: m) ++ r /\ non_space c = true
              /\ match r with [] => True | w :: _ => py_isspace w = true end.
Proof.
  unfold after_non_space. destruct s as [|c s]; [discriminate|].
  destruct (non_space c) eqn:Ec; [|discriminate].
  intros H. injection H as <-. exists c, (take_while non_space s).
  split; [cbn [app]; now rewrite take_drop_while|].
  split; [exact Ec | apply drop_while_non_space_head].
Qed.

(** After a prefix that starts with a non-space character, a run of
    non-space characters gives the shape of a URL. *)
Lemma url_shape_after (p s1 r : str) (c : cp) :
  non_space c = true -> (exists m, s1 = m ++ r) ->
  match r with [] => True | w :: _ => py_isspace w = true end ->
  url_shape ((c :: p) ++ s1) r.
Proof.
  intros Hc [m ->] Hr. exists c, (p ++ m). split; [|now split].
  cbn [app]. now rewrite <- app_assoc.
Qed.

Lemma after_non_space_suffix (s r : str) :
  after_non_space s = Some r ->
  (exists m, s = m ++ r)
  /\ match r with [] => True | w :: _ => py_isspace w = true end.
Proof.
  intros H. apply after_non_space_Some in H as (c & m & -> & _ & Hr).
  split; [now exists (c :: m) | exact Hr].
Qed.

Lemma suffix_drop_while (p : cp -> bool) (s r : str) :
  (exists m, drop_while p s = m ++ r) -> exists m, s = m ++ r.
Proof.
  intros [m H]. exists (take_while p s ++ m).
  now rewrite <- app_assoc, <- H, take_drop_while.
Qed.

Lemma suffix_app (p s r : str) : (exists m, s = m ++ r) -> exists m, p ++ s = m ++ r.
Proof. intros [m ->]. exists (p ++ m). now rewrite app_assoc. Qed.

Lemma suffix_cons (c : cp) (s r : str) : (exists m, s = m ++ r) -> exists m, c :: s = m ++ r.
Proof. intros [m ->]. now exists (c :: m). Qed.

Lemma url_shape_intro (c : cp) (s0 r : str) :
  non_space c = true -> (exists m, s0 = m ++ r) ->
  match r with [] => True | w :: _ => py_isspace w = true end ->
  url_shape (c :: s0) r.
Proof. intros Hc [m ->] Hr. exists c, m. now split. Qed.

Lemma suffix_of_prefixed (p s1 s r : str) :
  s = p ++ s1 -> (exists m, s1 = m ++ r) -> exists m, s = m ++ r.
Proof. intros -> H. now apply suffix_app. Qed.

Lemma strip_prefix_None (p s : str) :
  startswith p s = false -> strip_prefix p s = None.
Proof. intros H. unfold strip_prefix. now rewrite H. Qed.

End UrlShape.

(** The cases of [url_rest], prefix by prefix. *)
Ltac url_case :=
  match goal with
  | |- context [strip_prefix ?p ?s] =>
      first [ rewrite (strip_prefix_None p s) by reflexivity
            | let E := fresh "E" in
              destruct (strip_prefix p s) eqn:E;
              [apply strip_prefix_Some in E; try subst s|] ]
  | |- context [after_non_space ?s] =>
      let E := fresh "E" in
      destruct (after_non_space s) eqn:E
  | |- context [match ?s with [] => _ | _ :: _ => _ end] =>
      is_var s; destruct s
  | |- context [if is_alnum_ascii ?a then _ else _] =>
      let E := fresh "E" in
      destruct (is_alnum_ascii a) eqn:E
  end.

Section UrlRest.

Variable U : unicode_db.

Lemma url_rest_shape (s r : str) : url_rest s = Some r -> url_shape s r.
Proof.
  unfold url_rest, or_else, and_then. eval_lits.
  repeat url_case; try discriminate; intros H; injection H as <-;
    repeat match goal with
           | H : after_non_space _ = Some _ |- _ =>
               apply after_non_space_suffix in H; destruct H as [? ?]
           end;
    cbn [app]; (apply url_shape_intro; [reflexivity | | assumption]);
    repeat apply suffix_cons.
  all: try assumption.
  - apply (suffix_drop_while is_alnum_dash). rewrite E0. now apply suffix_app.
  - now apply (suffix_drop_while py_isspace).
Qed.

End UrlRest.

Section UrlRemoval.

Variable U : unicode_db.

Lemma url_shape_length (s r : str) : url_shape s r -> (length r < length s)%nat.
Proof. intros (c & m & -> & _). rewrite length_app. simpl. lia. Qed.

Lemma match_length_url (prev : option cp) (s : str) :
  match_length U URL_PATTERN prev s
  = option_map (fun r => (length s - length r)%nat) (url_rest s).
Proof.
  pose proof (url_match_rest U prev s) as H. unfold match_length.
  destruct (match_at U URL_PATTERN prev s) as [st|]; cbn [option_map] in H.
  - rewrite <- H. cbn [option_map].
    assert (Hl : (length (m_rest st) < length s)%nat)
      by (apply url_shape_length, url_rest_shape; now symmetry).
    destruct (length s - length (m_rest st))%nat eqn:E; [lia | reflexivity].
  - now rewrite <- H.
Qed.

Lemma urls_from_prev (s : str) (p p' : option cp) :
  urls_from U p s = urls_from U p' s.
Proof. apply sub_from_prev. intros q q' t. now rewrite !match_length_url. Qed.

(** One step of URL removal: over a URL, or one character on. *)
Lemma urls_from_step (s : str) (p : option cp) :
  urls_from U p s
  = match url_rest s with
    | Some r => urls_from U p r
    | None => match s with
              | [] => []
              | c :: s' => c :: urls_from U p s'
              end
    end.
Proof.
  unfold urls_from. rewrite sub_from_step, match_length_url.
  destruct (url_rest s) as [r|] eqn:E; cbn [option_map].
  - apply url_rest_shape in E as (c & m & -> & _).
    rewrite length_app.
    replace (length (c :: m) + length r - length r)%nat with (length (c :: m)) by lia.
    rewrite skipn_app, Nat.sub_diag, skipn_all. cbn [skipn app].
    apply (urls_from_prev r).
  - destruct s as [|c s]; [reflexivity|]. f_equal. apply (urls_from_prev s).
Qed.

Lemma url_rest_space (w : cp) (s : str) :
  py_isspace w = true -> url_rest (w :: s) = None.
Proof.
  intros Hw. destruct (url_rest (w :: s)) as [r|] eqn:E; [|reflexivity].
  apply url_rest_shape in E as (c & m & E & Hc & _).
  injection E as -> _. unfold non_space in Hc. now rewrite Hw in Hc.
Qed.

Lemma url_rest_nil : url_rest [] = None.
Proof. reflexivity. Qed.

(** Where the result starts with a non-space character, so does the text,
    and no URL starts there. *)
Lemma urls_from_head_non_space (s t : str) (x : cp) (p : option cp) :
  urls_from U p s = x :: t -> non_space x = true ->
  url_rest s = None /\ exists s', s = x :: s' /\ t = urls_from U p s'.
Proof.
  rewrite urls_from_step. intros H Hx.
  destruct (url_rest s) as [r|] eqn:E.
  - apply url_rest_shape in E as (c & m & _ & _ & Hr).
    rewrite urls_from_step in H. destruct r as [|w r].
    + rewrite url_rest_nil in H. discriminate.
    + rewrite (url_rest_space w r Hr) in H. injection H as -> _.
      unfold non_space in Hx. now rewrite Hr in Hx.
  - split; [reflexivity|]. destruct s as [|c s]; [discriminate|].
    injection H as -> <-. now exists s.
Qed.

(** A run of non-space characters at the start of the result is at the start
    of the text. *)
Lemma urls_from_prefix (q : str) (p : option cp) :
  forallb non_space q = true ->
  forall s t, urls_from U p s = q ++ t ->
              exists s1, s = q ++ s1 /\ t = urls_from U p s1.
Proof.
  induction q as [|x q IH]; intros Hq s t H.
  - exists s. now split.
  - cbn [forallb] in Hq. apply andb_true_iff in Hq as [Hx Hq].
    cbn [app] in H.
    destruct (urls_from_head_non_space _ _ _ _ H Hx) as (_ & s' & -> & Ht).
    destruct (IH Hq s' t (eq_sym Ht)) as (s1 & -> & Ht1).
    exists s1. now split.
Qed.

End UrlRemoval.

Section UrlTransfer.

Variable U : unicode_db.

Lemma drop_space_after (z : str) :
  after_non_space (drop_while py_isspace z) = None -> drop_while py_isspace z = [].
Proof.
  destruct (drop_while py_isspace z) as [|y t] eqn:E; [reflexivity|].
  apply drop_while_head in E. cbn [after_non_space]. unfold non_space.
  now rewrite E.
Qed.

(** White space at the start of the result is followed by a character when
    white space at the start of the text is. *)
Lemma urls_from_after_space (s : str) (p : option cp) :
  drop_while py_isspace (urls_from U p s) <> [] -> drop_while py_isspace s <> [].
Proof.
  induction s as [|c s IH]; rewrite urls_from_step.
  - now rewrite url_rest_nil.
  - cbn [drop_while]. destruct (py_isspace c) eqn:Ec; [|discriminate].
    rewrite (url_rest_space c s Ec). cbn [drop_while]. rewrite Ec. exact IH.
Qed.

Lemma url_rest_form (s r : str) : url_rest s = Some r <-> url_form s r.
Proof.
  split.
  - unfold url_rest, or_else, and_then, url_form. eval_lits.
    repeat url_case; try discriminate; intros H; injection H as <-.
    + left. eexists. split; [right; reflexivity | eassumption].
    + left. eexists. split; [left; reflexivity | eassumption].
    + right; left. do 3 eexists. split; [reflexivity|]. now repeat split; eassumption.
    + right; right; left. eexists. split; [reflexivity | eassumption].
    + right; right; right. eexists. split; [reflexivity | eassumption].
  - unfold url_form. eval_lits.
    intros [(s3 & [->| ->] & H)|[(a & s2 & s3 & -> & Ha & Hd & H)
                               |[(s3 & -> & H)|(s1 & -> & H)]]];
      unfold url_rest, strip_prefix; eval_lits;
      repeat (cbn [startswith skipn length app or_else and_then];
              eval_eqb; cbn [andb]);
      rewrite ?Ha, ?Hd;
      repeat (cbn [startswith skipn length app or_else and_then];
              eval_eqb; cbn [andb]).
    all: now rewrite H.
Qed.

Lemma forallb_impl (p q : cp -> bool) (l : str) :
  (forall c, p c = true -> q c = true) -> forallb p l = true -> forallb q l = true.
Proof.
  intros Hpq. induction l as [|c l IH]; [reflexivity|]. cbn [forallb].
  intros H. apply andb_true_iff in H as [Hc Hl]. now rewrite (Hpq c Hc), IH.
Qed.

Lemma take_while_all (p : cp -> bool) (s : str) : forallb p (take_while p s) = true.
Proof.
  induction s as [|c s IH]; [reflexivity|]. cbn [take_while].
  destruct (p c) eqn:E; [|reflexivity]. cbn [forallb]. now rewrite E, IH.
Qed.

Lemma drop_while_all (p : cp -> bool) (u v : str) (c : cp) :
  forallb p u = true -> p c = false -> drop_while p (u ++ c :: v) = c :: v.
Proof.
  intros Hu Hc. induction u as [|d u IH]; cbn [app drop_while].
  - now rewrite Hc.
  - cbn [forallb] in Hu. apply andb_true_iff in Hu as [Hd Hu]. rewrite Hd. now apply IH.
Qed.

Lemma alnum_dash_non_space (c : cp) : is_alnum_dash c = true -> non_space c = true.
Proof. intros H. classes. Qed.

Lemma alnum_non_space (c : cp) : is_alnum_ascii c = true -> non_space c = true.
Proof. intros H. classes. Qed.

Lemma after_non_space_cons (x : cp) (s : str) :
  non_space x = true -> after_non_space (x :: s) = Some (drop_while non_space s).
Proof. intros H. cbn [after_non_space]. now rewrite H. Qed.

(** A URL at a position of the result was a URL at that position of the
    text. *)
Lemma url_rest_transfer (s' : str) (c : cp) (p : option cp) (r : str) :
  url_rest (c :: urls_from U p s') = Some r ->
  exists r', url_rest (c :: s') = Some r'.
Proof.
  intros H. apply url_rest_form in H. unfold url_form in H. revert H. eval_lits.
  intros [(s3 & Hs & H)|[(a & s2 & s3 & Hs & Ha & Hd & H)
                         |[(s3 & Hs & H)|(s1 & Hs & H)]]].
  - apply after_non_space_Some in H as (x & m & -> & Hx & _).
    destruct Hs as [Hs|Hs]; cbn [app] in Hs; injection Hs as -> Hs.
    + destruct (urls_from_prefix U ([116; 116; 112; 58; 47; 47] ++ [x]) p) with (2 := Hs)
        as (s1 & -> & _); [cbn [forallb app]; now rewrite Hx|].
      eexists. apply url_rest_form. left. exists (x :: s1).
      split; [left; reflexivity | now apply after_non_space_cons].
    + destruct (urls_from_prefix U ([116; 116; 112; 115; 58; 47; 47] ++ [x]) p) with (2 := Hs)
        as (s1 & -> & _); [cbn [forallb app]; now rewrite Hx|].
      eexists. apply url_rest_form. left. exists (x :: s1).
      split; [right; reflexivity | now apply after_non_space_cons].
  - apply after_non_space_Some in H as (x & m & -> & Hx & _).
    cbn [app] in Hs. injection Hs as -> Hs.
    rewrite <- (take_drop_while is_alnum_dash s2), Hd in Hs.
    destruct (urls_from_prefix U
                ([119; 119; 46] ++ [a] ++ take_while is_alnum_dash s2 ++ [46] ++ [x]) p)
      with (s := s') (t := m ++ r) as (s1 & -> & _).
    + rewrite !forallb_app. cbn [forallb]. rewrite (alnum_non_space a Ha), Hx.
      rewrite (forallb_impl is_alnum_dash non_space _ alnum_dash_non_space
                 (take_while_all is_alnum_dash s2)).
      reflexivity.
    + rewrite Hs. cbn [app]. now rewrite <- !app_assoc.
    + eexists. apply url_rest_form. right; left.
      exists a, (take_while is_alnum_dash s2 ++ [46] ++ x :: s1), (x :: s1).
      split; [cbn [app lit]; now rewrite <- !app_assoc|].
      split; [exact Ha|]. split; [|now apply after_non_space_cons].
      apply drop_while_all; [apply take_while_all | reflexivity].
  - apply after_non_space_Some in H as (x & m & -> & Hx & _).
    cbn [app] in Hs. injection Hs as -> Hs.
    destruct (urls_from_prefix U ([111; 105; 46; 111; 114; 103; 47] ++ [x]) p) with (2 := Hs)
      as (s1 & -> & _); [cbn [forallb app]; now rewrite Hx|].
    eexists. apply url_rest_form. right; right; left. exists (x :: s1).
    split; [reflexivity | now apply after_non_space_cons].
  - cbn [app] in Hs. injection Hs as -> Hs.
    destruct (urls_from_prefix U [111; 105; 58] p eq_refl _ _ Hs) as (s2 & -> & ->).
    destruct (after_non_space (drop_while py_isspace s2)) as [r'|] eqn:E.
    + exists r'. apply url_rest_form. right; right; right. now exists s2.
    + apply drop_space_after in E. exfalso.
      apply (urls_from_after_space s2 p); [|exact E].
      intros Hn. now rewrite Hn in H.
Qed.

Lemma urls_from_idempotent (s : str) :
  forall p, urls_from U p (urls_from U p s) = urls_from U p s.
Proof.
  remember (length s) as n eqn:Hn.
  revert s Hn. induction n as [n IH] using lt_wf_ind. intros s Hn p.
  rewrite (urls_from_step U s).
  destruct (url_rest s) as [r|] eqn:E.
  - apply (IH (length r)); [|reflexivity].
    subst n. now apply url_shape_length, url_rest_shape.
  - destruct s as [|c s]; [reflexivity|].
    rewrite (urls_from_step U (c :: urls_from U p s)).
    destruct (url_rest (c :: urls_from U p s)) as [r|] eqn:E'.
    + apply url_rest_transfer in E' as [r' E']. congruence.
    + f_equal. apply (IH (length s)); [subst n; simpl; lia | reflexivity].
Qed.

Lemma remove_urls_from (text : str) : remove_urls U text = urls_from U None text.
Proof. now destruct text. Qed.

Lemma remove_urls_idempotent (text : str) :
  remove_urls U (remove_urls U text) = remove_urls U text.
Proof. rewrite !remove_urls_from. apply urls_from_idempotent. Qed.

End UrlTransfer.

(** ** Spaced capitals *)

Section SpacedMatch.

Variable U : unicode_db.

Lemma matches_Star_loop (a : regex) (st : mstate) (k : mstate -> option mstate) :
  matches U (Star a) st k = star_loop U a k (length (m_rest st)) st.
Proof. reflexivity. Qed.

Lemma upper_word (c : cp) : is_upper_AZ c = true -> re_word U c = true.
Proof. intros H. unfold re_word. classes. Qed.

Lemma space_not_word (c : cp) : py_isspace c = true -> re_word U c = false.
Proof.
  intros H. unfold re_word. destruct (is_ascii c) eqn:E.
  - classes.
  - now rewrite H.
Qed.

Lemma last_capital_rest (prev : option cp) (s : str) (g : option str) :
  option_map m_rest (last_capital U (mk_state prev s g))
  = match s with
    | L :: t => if is_upper_AZ L then (if end_ok U t then Some t else None) else None
    | [] => None
    end.
Proof.
  unfold last_capital. repeat rx_step. destruct s as [|L t]; [reflexivity|].
  destruct (is_upper_AZ L) eqn:E; [|reflexivity].
  rx_step. cbn [word_at]. rewrite (upper_word L E). unfold end_ok.
  now destruct (word_at U (hd_error t)).
Qed.

Lemma star_loop_O (a : regex) (k : mstate -> option mstate) (st : mstate) :
  star_loop U a k 0 st = k st.
Proof. reflexivity. Qed.

Lemma star_loop_S (a : regex) (k : mstate -> option mstate) (n : nat) (st : mstate) :
  star_loop U a k (S n) st
  = match matches U a st
            (fun st' =>
               if (length (m_rest st') <? length (m_rest st))%nat
               then star_loop U a k n st' else None) with
    | Some x => Some x
    | None => k st
    end.
Proof. reflexivity. Qed.

Lemma star_loop_space (n : nat) (prev : option cp) (c : cp) (s : str) (g : option str) :
  py_isspace c = true ->
  star_loop U CAPITAL_GAP (last_capital U) n (mk_state prev (c :: s) g) = None.
Proof.
  intros Hc. pose proof (space_not_upper c Hc) as Hu.
  assert (Hl : last_capital U (mk_state prev (c :: s) g) = None).
  { unfold last_capital. repeat rx_step. now rewrite Hu. }
  destruct n as [|n]; [exact Hl|].
  rewrite star_loop_S, Hl. unfold CAPITAL_GAP at 1. repeat rx_step. now rewrite Hu.
Qed.

(** A capital and white space before something that cannot start with
    white space. *)
Lemma matches_capital_gap (k : mstate -> option mstate) (st : mstate) :
  (forall p c t g', py_isspace c = true -> k (mk_state p (c :: t) g') = None) ->
  matches U CAPITAL_GAP st k
  = match m_rest st with
    | L :: w :: t =>
        if is_upper_AZ L && py_isspace w
        then k (mk_state (last_or (Some w) (take_while py_isspace t))
                         (drop_while py_isspace t) (m_group st))
        else None
    | _ => None
    end.
Proof.
  intros Hk. unfold CAPITAL_GAP, Plus. repeat rx_step.
  destruct (m_rest st) as [|L [|w t]]; [reflexivity | |].
  - destruct (is_upper_AZ L); [|reflexivity]. now repeat rx_step.
  - destruct (is_upper_AZ L); [|reflexivity]. repeat rx_step.
    destruct (py_isspace w); [|reflexivity]. cbn [andb]. repeat rx_step.
    now apply star_chr_greedy.
Qed.

Lemma star_loop_tail (n : nat) (prev : option cp) (s : str) (g : option str) :
  option_map m_rest (star_loop U CAPITAL_GAP (last_capital U) n (mk_state prev s g))
  = tail_match U n s.
Proof.
  revert prev s g; induction n as [|n IH]; intros prev s g.
  - rewrite star_loop_O, last_capital_rest. now destruct s.
  - rewrite star_loop_S, matches_capital_gap.
    + rewrite option_map_or_else, last_capital_rest. cbn [m_rest mk_state m_group].
      destruct s as [|L [|w t]]; [reflexivity | |].
      * cbn [tail_match option_map or_else]. now destruct (is_upper_AZ L).
      * cbn [tail_match]. destruct (is_upper_AZ L); [|reflexivity].
        cbn [andb]. destruct (py_isspace w); [|reflexivity].
        cbn [m_rest mk_state].
        replace (length (drop_while py_isspace t) <? length (L :: w :: t))%nat with true.
        -- rewrite IH. unfold or_else. reflexivity.
        -- symmetry. apply Nat.ltb_lt. pose proof (drop_while_length py_isspace t).
           cbn [length]. lia.
    + intros p c t g' Hc. cbn [m_rest mk_state].
      destruct (_ <? _)%nat; [|reflexivity]. now apply star_loop_space.
Qed.

(** The spaced-capitals pattern at a position: where its match ends. *)
Lemma spaced_match_rest (prev : option cp) (s : str) :
  option_map m_rest (match_at U SPACED_CAPS_PATTERN prev s) = spaced_rest U prev s.
Proof.
  unfold match_at, SPACED_CAPS_PATTERN, AtLeast2, spaced_rest.
  fold CAPITAL_GAP. rewrite matches_Seq, matches_WordB.
  cbn [start_state m_rest m_prev].
  destruct (xorb _ _); [|reflexivity].
  rewrite !matches_Seq.
  rewrite matches_capital_gap.
  - unfold capital_gap. cbn [start_state m_rest m_group].
    destruct s as [|L [|w t]]; [reflexivity | reflexivity |].
    destruct (is_upper_AZ L && py_isspace w); [|reflexivity]. cbn [and_then].
    cbv beta. rewrite matches_Seq, matches_capital_gap.
    + cbn [m_rest mk_state m_group].
      destruct (drop_while py_isspace t) as [|L2 [|w2 t2]]; [reflexivity | reflexivity |].
      destruct (is_upper_AZ L2 && py_isspace w2); [|reflexivity]. cbn [and_then].
      rewrite matches_Star_loop. cbn [m_rest mk_state].
      apply star_loop_tail.
    + intros p c t' g' Hc. rewrite matches_Star_loop. cbn [m_rest mk_state].
      now apply star_loop_space.
  - intros p c t g' Hc. rewrite matches_Seq. unfold CAPITAL_GAP at 1. repeat rx_step.
    now rewrite (space_not_upper c Hc).
Qed.

End SpacedMatch.

Section SpacedTail.

Variable U : unicode_db.

Lemma tail_match_fuel (n : nat) :
  forall m s, (length s <= n)%nat -> (length s <= m)%nat ->
              tail_match U n s = tail_match U m s.
Proof.
  induction n as [|n IH]; intros m s Hn Hm.
  - destruct s; [|simpl in Hn; lia]. now destruct m.
  - destruct s as [|L t]; [now destruct m|].
    destruct m as [|m]; [simpl in Hm; lia|].
    cbn [tail_match]. destruct (is_upper_AZ L); [|reflexivity].
    destruct t as [|w t']; [reflexivity|].
    destruct (py_isspace w); [|reflexivity].
    pose proof (drop_while_length py_isspace t') as Hd. cbn [length] in *.
    rewrite (IH m (drop_while py_isspace t')) by lia. reflexivity.
Qed.

Lemma tail_rest_fuel (n : nat) (s : str) :
  (length s <= n)%nat -> tail_match U n s = tail_rest U s.
Proof. intros H. apply tail_match_fuel; [exact H | lia]. Qed.

Lemma cont_tail_rest (w : cp) (t : str) :
  cont U (w :: t) = py_isspace w && is_some (tail_rest U (drop_while py_isspace t)).
Proof.
  cbn [cont]. now rewrite (tail_rest_fuel (length t)) by apply drop_while_length.
Qed.

(** From a capital: on while the run goes on, else stop here if no word
    character follows. *)
Lemma tail_rest_step (L : cp) (t : str) :
  tail_rest U (L :: t)
  = if is_upper_AZ L then
      if cont U t then tail_rest U (drop_while py_isspace (tl t))
      else if end_ok U t then Some t else None
    else None.
Proof.
  unfold tail_rest at 1. cbn [length tail_match].
  destruct (is_upper_AZ L); [|reflexivity].
  destruct t as [|w t']; [reflexivity|].
  rewrite cont_tail_rest. cbn [tl].
  destruct (py_isspace w) eqn:Ew; [|reflexivity]. cbn [andb].
  pose proof (drop_while_length py_isspace t') as Hd.
  rewrite (tail_rest_fuel (S (length t'))) by lia.
  destruct (tail_rest U (drop_while py_isspace t')); reflexivity.
Qed.

Lemma cont_head_space (z : str) :
  cont U z = true -> exists w t, z = w :: t /\ py_isspace w = true.
Proof.
  destruct z as [|w t]; [discriminate|]. cbn [cont].
  intros H. apply andb_true_iff in H as [Hw _]. now exists w, t.
Qed.

(** The run cannot go on after the match. *)
Lemma tail_rest_maximal (s : str) :
  forall r, tail_rest U s = Some r -> cont U r = false.
Proof.
  remember (length s) as n eqn:Hn.
  revert s Hn. induction n as [n IH] using lt_wf_ind. intros s Hn r.
  destruct s as [|L t]; [discriminate|]. rewrite tail_rest_step.
  destruct (is_upper_AZ L); [|discriminate].
  destruct (cont U t) eqn:Ec.
  - apply (IH (length (drop_while py_isspace (tl t)))); [|reflexivity].
    subst n. pose proof (drop_while_length py_isspace (tl t)).
    destruct t; simpl in *; lia.
  - destruct (end_ok U t); [|discriminate]. intros H. now injection H as <-.
Qed.

Lemma forallb_take_while (p q : cp -> bool) (s : str) :
  (forall c, p c = true -> q c = true) -> forallb q (take_while p s) = true.
Proof. intros H. apply (forallb_impl p q); [exact H | apply take_while_all]. Qed.

Lemma space_cap_or_space (c : cp) : py_isspace c = true -> cap_or_space c = true.
Proof. intros H. unfold cap_or_space. rewrite H. apply orb_true_r. Qed.

Lemma ends_upper_app (a b : str) : b <> [] -> ends_upper (a ++ b) = ends_upper b.
Proof.
  intros Hb. unfold ends_upper. rewrite last_or_app.
  destruct b as [|c b]; [congruence | reflexivity].
Qed.

(** What a match from a capital passes: a capital, then white space and
    capitals, a capital last. *)
Lemma tail_rest_shape (s : str) :
  forall r, tail_rest U s = Some r ->
            exists L M, s = (L :: M) ++ r /\ is_upper_AZ L = true /\ run_shape (L :: M).
Proof.
  remember (length s) as n eqn:Hn.
  revert s Hn. induction n as [n IH] using lt_wf_ind. intros s Hn r.
  destruct s as [|L t]; [discriminate|]. rewrite tail_rest_step.
  destruct (is_upper_AZ L) eqn:EL; [|discriminate].
  destruct (cont U t) eqn:Ec.
  - destruct (cont_head_space t Ec) as (w & t' & -> & Hw). cbn [tl].
    intros H.
    assert (Hlt : (length (drop_while py_isspace t') < n)%nat).
    { subst n. pose proof (drop_while_length py_isspace t'). simpl. lia. }
    destruct (IH _ Hlt (drop_while py_isspace t') eq_refl r H)
      as (L2 & M2 & E2 & HL2 & Hs2 & He2).
    exists L, (w :: take_while py_isspace t' ++ L2 :: M2).
    split; [|split; [exact EL|split]].
    + change ((L :: w :: take_while py_isspace t' ++ L2 :: M2) ++ r)
        with (L :: w :: (take_while py_isspace t' ++ L2 :: M2) ++ r).
      do 2 f_equal. rewrite <- app_assoc.
      change (L2 :: M2 ++ r) with ((L2 :: M2) ++ r).
      rewrite <- E2. now rewrite take_drop_while.
    + cbn [forallb]. unfold cap_or_space at 1 2. rewrite EL, Hw, orb_true_r.
      cbn [andb orb]. rewrite forallb_app, Hs2.
      now rewrite (forallb_take_while py_isspace cap_or_space t' space_cap_or_space).
    + change (L :: w :: take_while py_isspace t' ++ L2 :: M2)
        with ((L :: w :: take_while py_isspace t') ++ L2 :: M2).
      now rewrite ends_upper_app.
  - destruct (end_ok U t); [|discriminate]. intros H. injection H as <-.
    exists L, []. split; [reflexivity|]. split; [exact EL|]. split.
    + cbn [forallb]. unfold cap_or_space. now rewrite EL.
    + unfold ends_upper. cbn [last_or]. exact EL.
Qed.

End SpacedTail.

(** ** Dropping the spaces of a match *)

Lemma drop_spaces_filter (m : str) : drop_spaces m = filter not_SPACE m.
Proof.
  unfold drop_spaces, py_replace.
  induction m as [|c m IH]; [reflexivity|].
  cbn [replace_from startswith filter length Nat.sub]. unfold not_SPACE at 1.
  destruct (SPACE =? c); cbn [andb negb app]; now rewrite IH.
Qed.

Lemma drop_spaces_fixed (m : str) : forallb not_SPACE m = true -> drop_spaces m = m.
Proof.
  rewrite drop_spaces_filter. induction m as [|c m IH]; [reflexivity|].
  cbn [forallb filter]. intros H. apply andb_true_iff in H as [Hc Hm].
  now rewrite Hc, IH.
Qed.

Lemma drop_spaces_no_space (m : str) : forallb not_SPACE (drop_spaces m) = true.
Proof.
  rewrite drop_spaces_filter. induction m as [|c m IH]; [reflexivity|].
  cbn [filter]. destruct (not_SPACE c) eqn:E; [|exact IH].
  cbn [forallb]. now rewrite E, IH.
Qed.

Lemma forallb_filter_keep (p q : cp -> bool) (m : str) :
  forallb p m = true -> forallb p (filter q m) = true.
Proof.
  induction m as [|c m IH]; [reflexivity|]. cbn [forallb filter].
  intros H. apply andb_true_iff in H as [Hc Hm].
  destruct (q c); [cbn [forallb]; now rewrite Hc, IH | now apply IH].
Qed.

Lemma upper_not_SPACE (c : cp) : is_upper_AZ c = true -> not_SPACE c = true.
Proof. intros H. unfold not_SPACE, SPACE. classes. Qed.

Lemma last_or_Some_inv (m : str) :
  forall q c, last_or q m = Some c ->
              (m = [] /\ q = Some c) \/ exists m', m = m' ++ [c].
Proof.
  induction m as [|d m IH]; intros q c H; [now left|]. right.
  cbn [last_or] in H. destruct (IH _ _ H) as [[-> E]|[m' ->]].
  - injection E as ->. now exists [].
  - now exists (d :: m').
Qed.

Lemma ends_upper_inv (m : str) :
  ends_upper m = true -> exists m' c, m = m' ++ [c] /\ is_upper_AZ c = true.
Proof.
  unfold ends_upper. destruct (last_or None m) as [c|] eqn:E; [|discriminate].
  intros H. destruct (last_or_Some_inv m None c E) as [[_ E']|[m' ->]]; [discriminate|].
  now exists m', c.
Qed.

Lemma ends_upper_last (m : str) (q : option cp) :
  ends_upper m = true ->
  exists c, last_or q m = Some c /\ is_upper_AZ c = true.
Proof.
  intros H. destruct (ends_upper_inv m H) as (m' & c & -> & Hc).
  exists c. now rewrite last_or_app.
Qed.

Lemma ends_upper_not_nil (m : str) : ends_upper m = true -> m <> [].
Proof. intros H ->. discriminate. Qed.

Lemma drop_spaces_last (m : str) (q : option cp) :
  ends_upper m = true -> last_or q (drop_spaces m) = last_or q m.
Proof.
  intros H. destruct (ends_upper_inv m H) as (m' & c & -> & Hc).
  rewrite drop_spaces_filter, filter_app. cbn [filter].
  rewrite (upper_not_SPACE c Hc). now rewrite !last_or_app.
Qed.

Lemma drop_spaces_shape (m : str) : run_shape m -> run_shape (drop_spaces m).
Proof.
  intros [Ha He]. split.
  - rewrite drop_spaces_filter. now apply forallb_filter_keep.
  - unfold ends_upper in *. now rewrite drop_spaces_last.
Qed.

Lemma drop_spaces_cons (L : cp) (m : str) :
  is_upper_AZ L = true -> drop_spaces (L :: m) = L :: drop_spaces m.
Proof.
  intros H. rewrite !drop_spaces_filter. cbn [filter].
  now rewrite (upper_not_SPACE L H).
Qed.

Lemma run_shape_app (a b : str) :
  forallb cap_or_space a = true -> run_shape b -> run_shape (a ++ b).
Proof.
  intros Ha [Hb He]. split.
  - now rewrite forallb_app, Ha, Hb.
  - rewrite ends_upper_app; [exact He | now apply ends_upper_not_nil].
Qed.

(** ** The shape of a match of the spaced capitals *)

Section SpacedRest.

Variable U : unicode_db.

Lemma capital_gap_shape (s s2 : str) :
  capital_gap s = Some s2 ->
  exists L w t, s = L :: w :: t /\ is_upper_AZ L = true /\ py_isspace w = true
                /\ s2 = drop_while py_isspace t.
Proof.
  destruct s as [|L [|w t]]; [discriminate | discriminate |]. cbn [capital_gap].
  destruct (is_upper_AZ L) eqn:EL; [|discriminate].
  destruct (py_isspace w) eqn:Ew; [|discriminate]. cbn [andb].
  intros H. injection H as <-. now exists L, w, t.
Qed.

Lemma capital_gap_run (s s2 : str) :
  capital_gap s = Some s2 ->
  exists L G, s = (L :: G) ++ s2 /\ is_upper_AZ L = true
              /\ forallb cap_or_space (L :: G) = true.
Proof.
  intros H. apply capital_gap_shape in H as (L & w & t & -> & HL & Hw & ->).
  exists L, (w :: take_while py_isspace t). split; [|split; [exact HL|]].
  - cbn [app]. now rewrite take_drop_while.
  - cbn [forallb]. unfold cap_or_space at 1 2. rewrite HL, Hw, orb_true_r.
    cbn [andb orb].
    apply (forallb_take_while py_isspace cap_or_space t space_cap_or_space).
Qed.

Lemma spaced_rest_nil (p : option cp) : spaced_rest U p [] = None.
Proof. unfold spaced_rest. now destruct (xorb _ _). Qed.

(** A match passes capitals and white space, from a capital to a capital,
    and the run cannot go on after it. *)
Lemma spaced_rest_shape (p : option cp) (s r : str) :
  spaced_rest U p s = Some r ->
  exists L M, s = (L :: M) ++ r /\ is_upper_AZ L = true /\ run_shape (L :: M)
              /\ cont U r = false.
Proof.
  unfold spaced_rest. destruct (xorb _ _); [|discriminate].
  destruct (capital_gap s) as [s2|] eqn:E1; [|discriminate]. cbn [and_then].
  destruct (capital_gap s2) as [s3|] eqn:E2; [|discriminate]. cbn [and_then].
  fold (tail_rest U s3). intros H3.
  apply capital_gap_run in E1 as (L1 & G1 & -> & HL1 & HG1).
  apply capital_gap_run in E2 as (L2 & G2 & -> & HL2 & HG2).
  pose proof (tail_rest_maximal U s3 r H3) as Hmax.
  apply tail_rest_shape in H3 as (L3 & M3 & -> & HL3 & HM3).
  exists L1, (G1 ++ (L2 :: G2) ++ L3 :: M3).
  split; [|split; [exact HL1|split; [|exact Hmax]]].
  - repeat (progress (rewrite <- ?app_assoc; cbn [app])). reflexivity.
  - change (L1 :: G1 ++ (L2 :: G2) ++ L3 :: M3)
      with ((L1 :: G1) ++ (L2 :: G2) ++ L3 :: M3).
    apply run_shape_app; [exact HG1|]. now apply run_shape_app.
Qed.

Lemma spaced_rest_length (p : option cp) (s r : str) :
  spaced_rest U p s = Some r -> (length r < length s)%nat.
Proof.
  intros H. apply spaced_rest_shape in H as (L & M & -> & _).
  rewrite length_app. cbn [length]. lia.
Qed.

(** Where a match begins: at a capital after no word character, when the
    run has three capitals or more. *)
Lemma spaced_rest_cons (p : option cp) (L : cp) (z : str) :
  is_some (spaced_rest U p (L :: z))
  = is_upper_AZ L && negb (word_at U p) && cont2 U z.
Proof.
  unfold spaced_rest. cbn [hd_error]. change (word_at U (Some L)) with (re_word U L).
  destruct (is_upper_AZ L) eqn:EL.
  - rewrite (upper_word U L EL), xorb_true_r. cbn [andb].
    destruct (negb (word_at U p)); [|reflexivity]. cbn [andb].
    destruct z as [|w t]; [reflexivity|]. cbn [capital_gap cont2]. rewrite EL.
    cbn [andb]. destruct (py_isspace w); [|reflexivity]. cbn [and_then andb].
    destruct (drop_while py_isspace t) as [|L2 [|w2 t2]]; cbn [capital_gap and_then].
    + reflexivity.
    + now rewrite andb_false_r.
    + destruct (is_upper_AZ L2); [|reflexivity]. cbn [andb cont].
      destruct (py_isspace w2); [|reflexivity]. cbn [and_then andb].
      pose proof (drop_while_length py_isspace t2) as Hd.
      now rewrite (tail_match_fuel U (length (drop_while py_isspace t2)) (length t2))
        by lia.
  - cbn [andb]. destruct (xorb _ _); [|reflexivity].
    destruct z as [|w t]; [reflexivity|]. cbn [capital_gap]. now rewrite EL.
Qed.

Lemma cont2_cont (z : str) : cont2 U z = true -> cont U z = true.
Proof.
  destruct z as [|w t]; [discriminate|]. rewrite cont_tail_rest. cbn [cont2].
  destruct (py_isspace w); [|discriminate]. cbn [andb].
  destruct (drop_while py_isspace t) as [|L2 t2]; [discriminate|].
  intros H. apply andb_true_iff in H as [HL Hc].
  rewrite tail_rest_step, HL, Hc.
  destruct (cont_head_space U t2 Hc) as (w2 & t3 & -> & Hw2).
  rewrite cont_tail_rest, Hw2 in Hc. exact Hc.
Qed.

Lemma match_length_spaced (p : option cp) (s : str) :
  match_length U SPACED_CAPS_PATTERN p s
  = option_map (fun r => (length s - length r)%nat) (spaced_rest U p s).
Proof.
  pose proof (spaced_match_rest U p s) as H. unfold match_length.
  destruct (match_at U SPACED_CAPS_PATTERN p s) as [st|]; cbn [option_map] in H.
  - rewrite <- H. cbn [option_map].
    assert (Hl : (length (m_rest st) < length s)%nat)
      by (apply (spaced_rest_length p); now symmetry).
    destruct (length s - length (m_rest st))%nat eqn:E; [lia | reflexivity].
  - now rewrite <- H.
Qed.

Lemma spaced_from_nil (p : option cp) : spaced_from U p [] = [].
Proof. reflexivity. Qed.

(** At a match, the match without its spaces and on after it. *)
Lemma spaced_from_match (p : option cp) (M r : str) :
  spaced_rest U p (M ++ r) = Some r ->
  spaced_from U p (M ++ r) = drop_spaces M ++ spaced_from U (last_or p M) r.
Proof.
  intros H. unfold spaced_from. rewrite sub_from_step, match_length_spaced, H.
  cbn [option_map]. rewrite length_app.
  replace (length M + length r - length r)%nat with (length M + 0)%nat by lia.
  rewrite firstn_app_2, skipn_app, Nat.add_0_r, skipn_all. cbn [firstn].
  rewrite app_nil_r, Nat.sub_diag. cbn [skipn app]. reflexivity.
Qed.

Lemma spaced_from_no_match (p : option cp) (c : cp) (s : str) :
  spaced_rest U p (c :: s) = None ->
  spaced_from U p (c :: s) = c :: spaced_from U (Some c) s.
Proof.
  intros H. unfold spaced_from. now rewrite sub_from_step, match_length_spaced, H.
Qed.

Lemma spaced_from_space (p : option cp) (w : cp) (z : str) :
  py_isspace w = true -> spaced_from U p (w :: z) = w :: spaced_from U (Some w) z.
Proof.
  intros Hw. apply spaced_from_no_match.
  pose proof (spaced_rest_cons p w z) as H.
  rewrite (space_not_upper w Hw) in H. cbn [andb] in H.
  now destruct (spaced_rest U p (w :: z)).
Qed.

Lemma spaced_from_spaces (z : str) :
  forall p, spaced_from U p z
            = take_while py_isspace z
              ++ spaced_from U (last_or p (take_while py_isspace z))
                   (drop_while py_isspace z).
Proof.
  induction z as [|w z IH]; intros p; [reflexivity|].
  cbn [take_while drop_while]. destruct (py_isspace w) eqn:Ew; [|reflexivity].
  rewrite (spaced_from_space p w z Ew), (IH (Some w)). reflexivity.
Qed.

Lemma spaced_from_head (p : option cp) (z : str) :
  hd_error (spaced_from U p z) = hd_error z.
Proof.
  destruct z as [|c z]; [reflexivity|].
  destruct (spaced_rest U p (c :: z)) as [r|] eqn:E.
  - pose proof E as E'.
    apply spaced_rest_shape in E' as (L & M & Es & HL & _).
    rewrite Es in E |- *. rewrite (spaced_from_match p (L :: M) r E).
    now rewrite (drop_spaces_cons L M HL).
  - now rewrite (spaced_from_no_match p c z E).
Qed.

End SpacedRest.

(** ** What a second pass can find *)

Section SpacedAgain.

Variable U : unicode_db.

Lemma tail_rest_cont (L : cp) (t : str) :
  is_upper_AZ L = true -> cont U t = true -> is_some (tail_rest U (L :: t)) = true.
Proof.
  intros HL Hc. rewrite tail_rest_step, HL, Hc.
  destruct (cont_head_space U t Hc) as (w & t' & -> & Hw).
  rewrite cont_tail_rest, Hw in Hc. exact Hc.
Qed.

Lemma drop_while_app_stop (p : cp -> bool) (u x : str) :
  forallb p u = true ->
  match hd_error x with Some c => p c = false | None => True end ->
  drop_while p (u ++ x) = x.
Proof.
  intros Hu Hx. induction u as [|d u IH]; cbn [app drop_while].
  - destruct x as [|c x]; [reflexivity|]. cbn [hd_error] in Hx.
    cbn [drop_while]. now rewrite Hx.
  - cbn [forallb] in Hu. apply andb_true_iff in Hu as [Hd Hu]. rewrite Hd. now apply IH.
Qed.

Lemma drop_while_hd (p : cp -> bool) (s : str) :
  match hd_error (drop_while p s) with Some c => p c = false | None => True end.
Proof.
  destruct (drop_while p s) as [|c r] eqn:E; [exact I|].
  exact (drop_while_head p s c r E).
Qed.

(** After leading white space the collapsing starts afresh. *)
Lemma spaced_from_drop_while (q : option cp) (z : str) :
  drop_while py_isspace (spaced_from U q z)
  = spaced_from U (last_or q (take_while py_isspace z)) (drop_while py_isspace z).
Proof.
  rewrite (spaced_from_spaces U z q) at 1.
  apply drop_while_app_stop; [apply take_while_all|].
  rewrite spaced_from_head. apply drop_while_hd.
Qed.

(** A run found in the collapsed text was a run of the text. *)
Lemma spaced_pull_back (n : nat) :
  forall z, (length z <= n)%nat ->
    (forall q, is_some (tail_rest U (spaced_from U q z)) = true
               -> is_some (tail_rest U z) = true)
    /\ (forall q, cont U (spaced_from U q z) = true -> cont U z = true).
Proof.
  induction n as [|n IH]; intros z Hz.
  - destruct z; [|simpl in Hz; lia]. split; intros q H; discriminate.
  - split; intros q H.
    + destruct z as [|y z2]; [discriminate|]. cbn [length] in Hz.
      destruct (spaced_rest U q (y :: z2)) as [r|] eqn:E.
      * pose proof (spaced_rest_cons U q y z2) as Hc. rewrite E in Hc.
        cbn [is_some] in Hc. symmetry in Hc.
        apply andb_true_iff in Hc as [Hc Hc2]. apply andb_true_iff in Hc as [Hy _].
        apply tail_rest_cont; [exact Hy | now apply cont2_cont].
      * rewrite (spaced_from_no_match U q y z2 E) in H.
        rewrite tail_rest_step in H |- *.
        destruct (is_upper_AZ y); [|discriminate].
        destruct (cont U (spaced_from U (Some y) z2)) eqn:Ec.
        -- assert (Hc : cont U z2 = true)
             by (apply (proj2 (IH z2 ltac:(lia)) (Some y)); exact Ec).
           rewrite Hc. destruct (cont_head_space U z2 Hc) as (w & t' & -> & Hw).
           rewrite cont_tail_rest, Hw in Hc. exact Hc.
        -- unfold end_ok in *. rewrite spaced_from_head in H.
           destruct (negb (word_at U (hd_error z2))); [|discriminate].
           destruct (cont U z2) eqn:Hc; [|reflexivity].
           destruct (cont_head_space U z2 Hc) as (w & t' & -> & Hw).
           rewrite cont_tail_rest, Hw in Hc. exact Hc.
    + destruct z as [|w z']; [discriminate|]. cbn [length] in Hz.
      pose proof (spaced_from_head U q (w :: z')) as Hh. cbn [hd_error] in Hh.
      destruct (spaced_from U q (w :: z')) as [|w0 o] eqn:Eo; [discriminate|].
      cbn [hd_error] in Hh. injection Hh as ->.
      destruct (cont_head_space U _ H) as (w1 & t1 & E1 & Hw). injection E1 as <- <-.
      rewrite (spaced_from_space U q w z' Hw) in Eo. injection Eo as <-.
      rewrite cont_tail_rest, Hw in H |- *. cbn [andb] in *.
      rewrite spaced_from_drop_while in H.
      pose proof (drop_while_length py_isspace z') as Hd.
      exact (proj1 (IH (drop_while py_isspace z') ltac:(lia)) _ H).
Qed.

Lemma cont_pull_back (q : option cp) (z : str) :
  cont U (spaced_from U q z) = true -> cont U z = true.
Proof. exact (proj2 (spaced_pull_back (length z) z (le_n _)) q). Qed.

Lemma cont2_pull_back (q : option cp) (z : str) :
  cont2 U (spaced_from U q z) = true -> cont2 U z = true.
Proof.
  destruct z as [|w z']; [discriminate|]. intros H.
  pose proof (spaced_from_head U q (w :: z')) as Hh. cbn [hd_error] in Hh.
  destruct (spaced_from U q (w :: z')) as [|w0 o] eqn:Eo; [discriminate|].
  cbn [hd_error] in Hh. injection Hh as ->.
  assert (Hw : py_isspace w = true).
  { cbn [cont2] in H. now apply andb_true_iff in H as [Hw _]. }
  rewrite (spaced_from_space U q w z' Hw) in Eo. injection Eo as <-.
  cbn [cont2] in H |- *. rewrite Hw in H |- *. cbn [andb] in *.
  rewrite spaced_from_drop_while in H.
  set (q' := last_or (Some w) (take_while py_isspace z')) in H.
  pose proof (spaced_from_head U q' (drop_while py_isspace z')) as Hh.
  destruct (drop_while py_isspace z') as [|L z2].
  - now rewrite spaced_from_nil in H.
  - destruct (spaced_rest U q' (L :: z2)) as [r|] eqn:E.
    + pose proof (spaced_rest_cons U q' L z2) as Hc. rewrite E in Hc.
      cbn [is_some] in Hc. symmetry in Hc.
      apply andb_true_iff in Hc as [Hc Hc2]. apply andb_true_iff in Hc as [HL _].
      rewrite HL. now apply cont2_cont.
    + rewrite (spaced_from_no_match U q' L z2 E) in H.
      apply andb_true_iff in H as [HL Hc]. rewrite HL.
      now apply (cont_pull_back (Some L)).
Qed.

End SpacedAgain.

(** ** A match that leaves a run goes on after it *)

Section SpacedThrough.

Variable U : unicode_db.

Lemma run_shape_not_nil (l : str) : run_shape l -> l <> [].
Proof. intros [_ H]. now apply ends_upper_not_nil. Qed.

Lemma run_shape_tail (c : cp) (l : str) : run_shape (c :: l) -> l <> [] -> run_shape l.
Proof.
  intros [Ha He] Hl. cbn [forallb] in Ha. apply andb_true_iff in Ha as [_ Ha].
  split; [exact Ha|]. change (c :: l) with ([c] ++ l) in He.
  now rewrite ends_upper_app in He.
Qed.

Lemma run_shape_after_space (w : cp) (l : str) :
  run_shape (w :: l) -> py_isspace w = true -> run_shape l.
Proof.
  intros H Hw. apply (run_shape_tail w); [exact H|]. intros ->.
  destruct H as [_ He]. unfold ends_upper in He. cbn [last_or] in He.
  now rewrite (space_not_upper w Hw) in He.
Qed.

Lemma run_shape_drop_while (l t : str) :
  run_shape l ->
  run_shape (drop_while py_isspace l)
  /\ drop_while py_isspace (l ++ t) = drop_while py_isspace l ++ t.
Proof.
  induction l as [|c l IH]; intros H; [now apply run_shape_not_nil in H|].
  cbn [app drop_while]. destruct (py_isspace c) eqn:Ec.
  - apply IH. now apply (run_shape_after_space c).
  - now split.
Qed.

Lemma run_shape_head (l : str) :
  run_shape l -> exists L l', l = L :: l'.
Proof. destruct l as [|L l']; intros H; [now apply run_shape_not_nil in H | now exists L, l']. Qed.

Lemma tail_rest_through (n : nat) :
  forall l t r2, (length l <= n)%nat -> run_shape l ->
                 tail_rest U (l ++ t) = Some r2 -> (length r2 < length t)%nat ->
                 cont U t = true.
Proof.
  induction n as [|n IH]; intros l t r2 Hn Hl H Hr.
  - destruct l; [now apply run_shape_not_nil in Hl | simpl in Hn; lia].
  - destruct l as [|L l']; [now apply run_shape_not_nil in Hl|].
    cbn [app length] in *. rewrite tail_rest_step in H.
    destruct (is_upper_AZ L); [|discriminate].
    destruct (cont U (l' ++ t)) eqn:Ec.
    + destruct l' as [|w l'']; [exact Ec|].
      destruct (cont_head_space U _ Ec) as (w1 & t1 & E1 & Hw).
      cbn [app] in E1. injection E1 as <- <-. cbn [app tl] in H.
      assert (Hl'' : run_shape l'').
      { apply (run_shape_after_space w); [|exact Hw].
        apply (run_shape_tail L); [exact Hl | discriminate]. }
      destruct (run_shape_drop_while l'' t Hl'') as [Hs Hd]. rewrite Hd in H.
      apply (IH (drop_while py_isspace l'') t r2); [|exact Hs | exact H | exact Hr].
      pose proof (drop_while_length py_isspace l''). cbn [length] in Hn. lia.
    + destruct (end_ok U (l' ++ t)); [|discriminate]. injection H as <-.
      rewrite length_app in Hr. lia.
Qed.

Lemma capital_gap_through (l t s2 : str) :
  run_shape l -> capital_gap (l ++ t) = Some s2 ->
  (exists l2, run_shape l2 /\ s2 = l2 ++ t)
  \/ (exists w t1, t = w :: t1 /\ py_isspace w = true /\ s2 = drop_while py_isspace t1).
Proof.
  intros Hl H. destruct (run_shape_head l Hl) as (L & l' & ->).
  apply capital_gap_shape in H as (L0 & w & t0 & E & HL & Hw & ->).
  cbn [app] in E. injection E as <- E. destruct l' as [|w' l''].
  - right. cbn [app] in E. now exists w, t0.
  - left. cbn [app] in E. injection E as -> <-.
    assert (Hl'' : run_shape l'').
    { apply (run_shape_after_space w); [|exact Hw].
      apply (run_shape_tail L); [exact Hl | discriminate]. }
    destruct (run_shape_drop_while l'' t Hl'') as [Hs Hd].
    exists (drop_while py_isspace l''). now split.
Qed.

Lemma capital_gap_tail (s2 s3 : str) :
  capital_gap s2 = Some s3 -> is_some (tail_rest U s3) = true ->
  is_some (tail_rest U s2) = true.
Proof.
  intros H H3. apply capital_gap_shape in H as (L & w & t & -> & HL & Hw & ->).
  apply tail_rest_cont; [exact HL|]. now rewrite cont_tail_rest, Hw.
Qed.

(** A match that begins in a run [l] and ends after it: the run goes on
    after [l]. *)
Lemma spaced_rest_through (p : option cp) (l t r2 : str) :
  run_shape l -> spaced_rest U p (l ++ t) = Some r2 ->
  (length r2 < length t)%nat -> cont U t = true.
Proof.
  intros Hl H Hr. unfold spaced_rest in H. destruct (xorb _ _); [|discriminate].
  destruct (capital_gap (l ++ t)) as [s2|] eqn:E1; [|discriminate]. cbn [and_then] in H.
  destruct (capital_gap s2) as [s3|] eqn:E2; [|discriminate]. cbn [and_then] in H.
  fold (tail_rest U s3) in H.
  assert (H3 : is_some (tail_rest U s3) = true) by now rewrite H.
  destruct (capital_gap_through l t s2 Hl E1) as [(l2 & Hl2 & ->)|(w & t1 & -> & Hw & ->)].
  - destruct (capital_gap_through l2 t s3 Hl2 E2)
      as [(l3 & Hl3 & ->)|(w & t1 & -> & Hw & ->)].
    + exact (tail_rest_through (length l3) l3 t r2 (le_n _) Hl3 H Hr).
    + now rewrite cont_tail_rest, Hw.
  - rewrite cont_tail_rest, Hw. exact (capital_gap_tail _ _ E2 H3).
Qed.

End SpacedThrough.

(** ** The collapsing applied twice *)

Section SpacedTwice.

Variable U : unicode_db.

Lemma forallb_app_l (p : cp -> bool) (a b : str) :
  forallb p (a ++ b) = true -> forallb p a = true.
Proof. rewrite forallb_app. intros H. now apply andb_true_iff in H as [H _]. Qed.

Lemma forallb_app_r (p : cp -> bool) (a b : str) :
  forallb p (a ++ b) = true -> forallb p b = true.
Proof. rewrite forallb_app. intros H. now apply andb_true_iff in H as [_ H]. Qed.

(** A match in the collapsed text has no space left. *)
Lemma spaced_from_stable (n : nat) :
  forall s p x1 M2 r2,
    (length s <= n)%nat ->
    spaced_from U p s = x1 ++ M2 ++ r2 ->
    spaced_rest U (last_or p x1) (M2 ++ r2) = Some r2 ->
    forallb not_SPACE M2 = true.
Proof.
  induction n as [|n IH]; intros s p x1 M2 r2 Hn Hs Hm.
  - destruct s; [|simpl in Hn; lia]. rewrite spaced_from_nil in Hs.
    symmetry in Hs. apply app_eq_nil in Hs as [_ Hs]. rewrite Hs in Hm.
    now rewrite spaced_rest_nil in Hm.
  - destruct s as [|c s'].
    { rewrite spaced_from_nil in Hs.
      symmetry in Hs. apply app_eq_nil in Hs as [_ Hs]. rewrite Hs in Hm.
      now rewrite spaced_rest_nil in Hm. }
    cbn [length] in Hn.
    destruct (spaced_rest U p (c :: s')) as [r|] eqn:E.
    + pose proof E as E'.
      apply spaced_rest_shape in E' as (L & M & Es & HL & HM & Hmax).
      rewrite Es in E, Hs. rewrite (spaced_from_match U p (L :: M) r E) in Hs.
      assert (Hr : (length r <= n)%nat).
      { apply (f_equal (@length cp)) in Es. rewrite length_app in Es.
        cbn [length] in Es. lia. }
      pose proof (drop_spaces_shape (L :: M) HM) as HD.
      pose proof (drop_spaces_no_space (L :: M)) as HN.
      pose proof (drop_spaces_last (L :: M) p (proj2 HM)) as HQ.
      set (DM := drop_spaces (L :: M)) in *.
      set (q := last_or p (L :: M)) in *.
      apply app_eq_app in Hs as [l [[H1 H2]|[H1 H2]]].
      * (* the match begins inside the collapsed run *)
        destruct l as [|c0 l0].
        { rewrite app_nil_r in H1. cbn [app] in H2.
          apply (IH r q [] M2 r2 Hr); [now rewrite H2|].
          cbn [last_or]. now rewrite <- HQ, H1. }
        assert (Hl : run_shape (c0 :: l0)).
        { destruct HD as [Ha He]. rewrite H1 in Ha, He. split.
          - now apply forallb_app_r in Ha.
          - rewrite ends_upper_app in He; [exact He | discriminate]. }
        rewrite H1 in HN. apply forallb_app_r in HN.
        apply app_eq_app in H2 as [l' [[H3 H4]|[H3 H4]]].
        -- destruct l' as [|c1 l1]; [now rewrite app_nil_r in H3; subst M2|].
           exfalso. rewrite H3, <- app_assoc, <- H4 in Hm.
           assert (Hc : cont U (spaced_from U q r) = true).
           { apply (spaced_rest_through U _ (c0 :: l0) _ r2 Hl Hm).
             rewrite H4, length_app. cbn [length]. lia. }
           apply cont_pull_back in Hc. now rewrite Hmax in Hc.
        -- rewrite H3 in HN. now apply forallb_app_l in HN.
      * (* the match begins after the collapsed run *)
        apply (IH r q l M2 r2 Hr); [exact H2|].
        rewrite H1, last_or_app, HQ in Hm. exact Hm.
    + rewrite (spaced_from_no_match U p c s' E) in Hs.
      destruct x1 as [|c0 x1'].
      * exfalso. cbn [app last_or] in Hs, Hm. rewrite <- Hs in Hm.
        pose proof (spaced_rest_cons U p c (spaced_from U (Some c) s')) as Hc.
        rewrite Hm in Hc. cbn [is_some] in Hc. symmetry in Hc.
        apply andb_true_iff in Hc as [Hc Hc2].
        apply cont2_pull_back in Hc2.
        pose proof (spaced_rest_cons U p c s') as Hc'.
        rewrite E, Hc, Hc2 in Hc'. discriminate.
      * cbn [app] in Hs. injection Hs as <- Hs. cbn [last_or] in Hm.
        apply (IH s' (Some c) x1' M2 r2); [lia | exact Hs | exact Hm].
Qed.

Lemma spaced_from_idempotent (p : option cp) (s : str) :
  spaced_from U p (spaced_from U p s) = spaced_from U p s.
Proof.
  unfold spaced_from at 1. apply sub_from_fixed. intros x1 x2 k Hs Hk.
  rewrite match_length_spaced in Hk.
  destruct (spaced_rest U (last_or p x1) x2) as [r2|] eqn:E; [|discriminate].
  cbn [option_map] in Hk. injection Hk as <-.
  pose proof E as E'. apply spaced_rest_shape in E' as (L & M & -> & _).
  rewrite length_app.
  replace (length (L :: M) + length r2 - length r2)%nat
    with (length (L :: M) + 0)%nat by lia.
  rewrite firstn_app_2. cbn [firstn]. rewrite app_nil_r.
  apply drop_spaces_fixed.
  exact (spaced_from_stable (length s) s p x1 (L :: M) r2 (le_n _) Hs E).
Qed.

Lemma collapse_spaced_from (text : str) :
  collapse_spaced_capital_sequences U text = spaced_from U None text.
Proof. now destruct text. Qed.

(** [collapse_spaced_capital_sequences] applied twice is the same as once. *)
Lemma collapse_spaced_capital_sequences_idempotent (text : str) :
  collapse_spaced_capital_sequences U (collapse_spaced_capital_sequences U text)
  = collapse_spaced_capital_sequences U text.
Proof. rewrite !collapse_spaced_from. apply spaced_from_idempotent. Qed.

End SpacedTwice.

(** ** The repairs applied twice *)

(** C9: each of the five text repairs, the Celsius repair, the removal of
    Chinese characters, the removal of URLs, the collapsing of spaced
    capitals and the removal of a numeric heading prefix, gives on its own
    result that result again. *)
Theorem C9_repairs_idempotent (U : unicode_db) (s : str) :
  repair_celsius U (repair_celsius U s) = repair_celsius U s
  /\ remove_chinese_characters U (remove_chinese_characters U s)
     = remove_chinese_characters U s
  /\ remove_urls U (remove_urls U s) = remove_urls U s
  /\ collapse_spaced_capital_sequences U (collapse_spaced_capital_sequences U s)
     = collapse_spaced_capital_sequences U s
  /\ remove_numeric_heading_prefix U (remove_numeric_heading_prefix U s)
     = remove_numeric_heading_prefix U s.
Proof.
  split; [apply repair_celsius_idempotent|].
  split; [apply remove_chinese_characters_idempotent|].
  split; [apply remove_urls_idempotent|].
  split; [apply collapse_spaced_capital_sequences_idempotent|].
  apply remove_numeric_heading_prefix_idempotent.
Qed.

(** ** The math-likeness detector *)

Section MathLike.

Variable U : unicode_db.

Lemma in_class_In (l : list cp) (c : cp) : in_class l c = true <-> In c l.
Proof.
  unfold in_class. rewrite existsb_exists. split.
  - intros (x & Hx & E). apply N.eqb_eq in E. now subst x.
  - intros H. exists c. split; [exact H | apply N.eqb_refl].
Qed.

Lemma forallb_skipn (p : cp -> bool) (n : nat) :
  forall s, forallb p s = true -> forallb p (skipn n s) = true.
Proof.
  induction n as [|n IH]; intros s H; [exact H|].
  destruct s as [|c s]; [reflexivity|]. cbn [forallb skipn] in *.
  apply andb_true_iff in H as [_ H]. now apply IH.
Qed.

(** A repetition fails when what follows fails wherever it is tried. *)
Lemma star_chr_None (p : cp -> bool) (k : mstate -> option mstate) (g : option str) :
  forall s prev,
    (forall n prev', k (mk_state prev' (skipn n s) g) = None) ->
    star_chr p k prev g s = None.
Proof.
  induction s as [|c s IH]; intros prev H; cbn [star_chr].
  - exact (H 0%nat prev).
  - destruct (p c); [|exact (H 0%nat prev)].
    rewrite IH; [exact (H 0%nat prev)|].
    intros n prev'. exact (H (S n) prev').
Qed.

(** A literal that starts with a symbol of the class cannot start a text
    without such symbols. *)
Lemma lit_symbol_fails (x : cp) (l : str) (st : mstate) (k : mstate -> option mstate) :
  in_class math_symbols x = true ->
  forallb (fun c => negb (in_class math_symbols c)) (m_rest st) = true ->
  matches U (Lit (x :: l)) st k = None.
Proof.
  intros Hx Hs. rewrite matches_Lit. destruct (m_rest st) as [|c t]; [reflexivity|].
  cbn [startswith]. destruct (x =? c) eqn:E; [|reflexivity].
  apply N.eqb_eq in E. subst c. cbn [forallb] in Hs. now rewrite Hx in Hs.
Qed.

Lemma match_at_no_symbol (s : str) (prev : option cp) :
  forallb (fun c => negb (in_class math_symbols c)) s = true ->
  match_at U (MATH_COMBINED U) prev s = None.
Proof.
  intros Hs. unfold match_at, MATH_COMBINED, MATH_TOKENS. cbn [alt_all].
  change (lit "\frac") with (92 :: lit "frac").
  change (lit "\sqrt") with (92 :: lit "sqrt").
  change (lit "\sum") with (92 :: lit "sum").
  change (lit "\int") with (92 :: lit "int").
  change (lit "/") with [47]. change (lit "^") with [94]. change (lit "_") with [95].
  rewrite !matches_Alt.
  rewrite 4 lit_symbol_fails by (first [exact Hs | reflexivity]).
  (* the fraction *)
  rewrite matches_Seq, matches_WordB.
  assert (E5 : (if xorb (word_at U (m_prev (start_state prev s)))
                        (word_at U (hd_error (m_rest (start_state prev s))))
                then matches U
                       (Seq (Plus (Chr (re_digit U)))
                          (Seq (Lit [47]) (Seq (Plus (Chr (re_digit U))) WordB)))
                       (start_state prev s) Some
                else None) = None).
  { destruct (xorb _ _); [|reflexivity].
    rewrite matches_Seq, matches_Plus_Chr. cbn [start_state m_rest m_group].
    destruct s as [|c s']; [reflexivity|]. destruct (re_digit U c); [|reflexivity].
    apply star_chr_None. intros n prev'. apply lit_symbol_fails; [reflexivity|].
    cbn [mk_state m_rest]. apply forallb_skipn.
    cbn [forallb] in Hs. now apply andb_true_iff in Hs as [_ Hs]. }
  rewrite E5.
  (* the superscript and the subscript *)
  assert (E67 : forall x q, in_class math_symbols x = true ->
                  matches U (Seq (Chr is_alpha_azAZ) (Seq (Lit [x]) q))
                    (start_state prev s) Some = None).
  { intros x q Hx. rewrite matches_Seq, matches_Chr. cbn [start_state m_rest m_group].
    destruct s as [|c s']; [reflexivity|]. destruct (is_alpha_azAZ c); [|reflexivity].
    rewrite matches_Seq. apply lit_symbol_fails; [exact Hx|].
    cbn [mk_state m_rest]. cbn [forallb] in Hs. now apply andb_true_iff in Hs as [_ Hs]. }
  rewrite !E67 by reflexivity.
  (* a symbol of the class *)
  unfold MATH_SYMBOLS. rewrite matches_Chr. cbn [start_state m_rest].
  destruct s as [|c s']; [reflexivity|]. cbn [forallb] in Hs.
  apply andb_true_iff in Hs as [Hc _]. apply negb_true_iff in Hc. now rewrite Hc.
Qed.

Lemma match_at_symbol (c : cp) (s : str) (prev : option cp) :
  in_class math_symbols c = true ->
  is_some (match_at U (MATH_COMBINED U) prev (c :: s)) = true.
Proof.
  intros Hc. unfold match_at, MATH_COMBINED, MATH_TOKENS. cbn [alt_all].
  repeat (rewrite matches_Alt;
          match goal with
          | |- context [match ?m with Some _ => _ | None => _ end] =>
              destruct m; [reflexivity|]
          end).
  unfold MATH_SYMBOLS. rewrite matches_Chr. cbn [start_state m_rest]. now rewrite Hc.
Qed.

Lemma search_no_symbol (s : str) :
  forall prev, forallb (fun c => negb (in_class math_symbols c)) s = true ->
               search_from U (MATH_COMBINED U) prev s = None.
Proof.
  induction s as [|c s IH]; intros prev Hs; cbn [search_from];
    rewrite (match_at_no_symbol _ prev Hs); [reflexivity|].
  cbn [forallb] in Hs. apply andb_true_iff in Hs as [_ Hs]. now apply IH.
Qed.

Lemma search_symbol (s : str) :
  forall prev, existsb (in_class math_symbols) s = true ->
               is_some (search_from U (MATH_COMBINED U) prev s) = true.
Proof.
  induction s as [|c s IH]; intros prev Hs; [discriminate|].
  cbn [search_from existsb] in *.
  destruct (match_at U (MATH_COMBINED U) prev (c :: s)) eqn:E; [reflexivity|].
  destruct (in_class math_symbols c) eqn:Ec.
  - pose proof (match_at_symbol c s prev Ec) as H. now rewrite E in H.
  - now apply IH.
Qed.

Lemma existsb_false_forallb (p : cp -> bool) (s : str) :
  existsb p s = false -> forallb (fun c => negb (p c)) s = true.
Proof.
  induction s as [|c s IH]; [reflexivity|]. cbn [existsb forallb].
  intros H. apply orb_false_iff in H as [Hc Hs]. now rewrite Hc, IH.
Qed.

(** X1: a snippet is math-like exactly when it has a character of the class
    [MATH_SYMBOLS]; each of the other token patterns has such a character in
    it (a backslash, a slash, a caret or an underscore), so they add
    nothing. *)
Theorem is_math_like_symbol (snippet : str) :
  is_math_like U snippet = existsb (in_class math_symbols) snippet.
Proof.
  destruct snippet as [|c s]; [reflexivity|].
  unfold is_math_like, re_search.
  destruct (existsb (in_class math_symbols) (c :: s)) eqn:E.
  - now apply search_symbol.
  - now rewrite search_no_symbol by now apply existsb_false_forallb.
Qed.

End MathLike.

(** ** What the removals leave *)

Section Removals.

Variable U : unicode_db.

Lemma search_Chr (p : cp -> bool) (s : str) :
  forall prev, is_some (search_from U (Chr p) prev s) = existsb p s.
Proof.
  induction s as [|c s IH]; intros prev; [reflexivity|].
  cbn [search_from existsb]. unfold match_at. rewrite matches_Chr.
  cbn [start_state m_rest]. destruct (p c); [reflexivity|]. apply IH.
Qed.

Lemma filter_no_existsb (p : cp -> bool) (s : str) :
  existsb p s = false -> filter (fun c => negb (p c)) s = s.
Proof.
  induction s as [|c s IH]; [reflexivity|]. cbn [existsb filter].
  intros H. apply orb_false_iff in H as [Hc Hs]. now rewrite Hc, IH.
Qed.

Lemma existsb_filter_negb (p : cp -> bool) (s : str) :
  existsb p (filter (fun c => negb (p c)) s) = false.
Proof.
  induction s as [|c s IH]; [reflexivity|]. cbn [filter].
  destruct (p c) eqn:E; cbn [negb]; [exact IH|]. cbn [existsb]. now rewrite E, IH.
Qed.

(** X2: the removal of Chinese characters deletes the characters of the five
    ranges and keeps every other character in its place; no character of the
    ranges is left; and the search that guards the removal in the loop over
    the lines changes nothing, the removal alone does the same. *)
Theorem remove_chinese_characters_exact (text : str) :
  remove_chinese_characters U text = filter (fun c => negb (is_cjk c)) text
  /\ existsb is_cjk (remove_chinese_characters U text) = false
  /\ re_search U CHINESE_CHAR_PATTERN (remove_chinese_characters U text) = None
  /\ (if is_some (re_search U CHINESE_CHAR_PATTERN text)
      then remove_chinese_characters U text else text)
     = remove_chinese_characters U text.
Proof.
  rewrite remove_chinese_characters_filter.
  split; [reflexivity|]. split; [apply existsb_filter_negb|]. split.
  - pose proof (search_Chr is_cjk (filter (fun c => negb (is_cjk c)) text) None) as H.
    rewrite existsb_filter_negb in H. unfold re_search, CHINESE_CHAR_PATTERN.
    now destruct (search_from U (Chr is_cjk) None _).
  - unfold re_search, CHINESE_CHAR_PATTERN. rewrite search_Chr.
    destruct (existsb is_cjk text) eqn:E; [reflexivity|].
    symmetry. now apply filter_no_existsb.
Qed.

(** After the removal no position of the text starts a URL. *)
Lemma urls_from_no_url (s : str) :
  forall p x1 x2, urls_from U p s = x1 ++ x2 -> url_rest x2 = None.
Proof.
  remember (length s) as n eqn:Hn.
  revert s Hn. induction n as [n IH] using lt_wf_ind. intros s Hn p x1 x2.
  rewrite (urls_from_step U s).
  destruct (url_rest s) as [r|] eqn:E.
  - apply (IH (length r)); [|reflexivity].
    subst n. now apply url_shape_length, url_rest_shape.
  - destruct s as [|c s].
    + intros H. symmetry in H. apply app_eq_nil in H as [_ ->]. apply url_rest_nil.
    + destruct x1 as [|c0 x1]; cbn [app].
      * intros <-. destruct (url_rest (c :: urls_from U p s)) as [r|] eqn:E'; [|reflexivity].
        apply url_rest_transfer in E' as [r' E']. congruence.
      * intros H. injection H as <- H.
        apply (IH (length s)) with (2 := eq_refl) (3 := H). subst n. simpl. lia.
Qed.

Lemma search_no_url (s : str) :
  forall prev, (forall x1 x2, s = x1 ++ x2 -> url_rest x2 = None) ->
               search_from U URL_PATTERN prev s = None.
Proof.
  induction s as [|c s IH]; intros prev H.
  - cbn [search_from]. pose proof (url_match_rest U prev []) as E.
    rewrite (H [] [] eq_refl) in E. now destruct (match_at U URL_PATTERN prev []).
  - cbn [search_from]. pose proof (url_match_rest U prev (c :: s)) as E.
    rewrite (H [] (c :: s) eq_refl) in E.
    destruct (match_at U URL_PATTERN prev (c :: s)); [discriminate|].
    apply IH. intros x1 x2 ->. exact (H (c :: x1) x2 eq_refl).
Qed.

(** X3: after the removal of URLs the pattern finds nothing: no URL is left in
    the text, also none that the removal of another one would have put
    together. *)
Theorem remove_urls_leaves_no_url (text : str) :
  re_search U URL_PATTERN (remove_urls U text) = None.
Proof.
  unfold re_search. apply search_no_url. intros x1 x2 H.
  rewrite remove_urls_from in H. exact (urls_from_no_url text None x1 x2 H).
Qed.

End Removals.

(** ** What the collapsing of spaced capitals changes *)

Section Collapsing.

Variable U : unicode_db.

(** What a replacement keeps, the substitution keeps. *)
Lemma sub_from_filter (r : regex) (repl : str -> str) (f : cp -> bool) :
  (forall m, filter f (repl m) = filter f m) ->
  forall s prev, filter f (sub_from U r repl 0 prev s) = filter f s.
Proof.
  intros Hr s. remember (length s) as n eqn:Hn.
  revert s Hn. induction n as [n IH] using lt_wf_ind. intros s Hn prev.
  rewrite sub_from_step.
  destruct (match_length U r prev s) as [k|] eqn:E.
  - pose proof (match_length_bounds U r prev s k E) as Hb.
    rewrite filter_app, Hr.
    rewrite (IH (length (skipn k s))); [|subst n; rewrite length_skipn; lia | reflexivity].
    now rewrite <- filter_app, firstn_skipn.
  - destruct s as [|c s]; [reflexivity|]. cbn [filter].
    rewrite (IH (length s)); [reflexivity | subst n; simpl; lia | reflexivity].
Qed.

Lemma sub_from_length (r : regex) (repl : str -> str) :
  (forall m, (length (repl m) <= length m)%nat) ->
  forall s prev, (length (sub_from U r repl 0 prev s) <= length s)%nat.
Proof.
  intros Hr s. remember (length s) as n eqn:Hn.
  revert s Hn. induction n as [n IH] using lt_wf_ind. intros s Hn prev.
  rewrite sub_from_step.
  destruct (match_length U r prev s) as [k|] eqn:E.
  - pose proof (match_length_bounds U r prev s k E) as Hb.
    rewrite length_app.
    pose proof (Hr (firstn k s)) as H1.
    pose proof (IH (length (skipn k s)) ltac:(subst n; rewrite length_skipn; lia)
                  (skipn k s) eq_refl (last_or prev (firstn k s))) as H2.
    rewrite length_firstn in H1. rewrite length_skipn in H2. subst n. lia.
  - destruct s as [|c s]; [simpl; lia|]. cbn [length].
    pose proof (IH (length s) ltac:(subst n; simpl; lia) s eq_refl (Some c)).
    subst n. cbn [length]. lia.
Qed.

Lemma filter_length_le {A} (f : A -> bool) (l : list A) :
  (length (filter f l) <= length l)%nat.
Proof. induction l as [|x l IH]; simpl; [lia|]. destruct (f x); simpl; lia. Qed.

(** X4: the collapsing of spaced capitals deletes space characters (U+0020)
    and nothing else: without its spaces the text is as before, and the text
    does not grow. *)
Theorem collapse_deletes_only_spaces (text : str) :
  filter not_SPACE (collapse_spaced_capital_sequences U text) = filter not_SPACE text
  /\ (length (collapse_spaced_capital_sequences U text) <= length text)%nat.
Proof.
  rewrite collapse_spaced_from. unfold spaced_from. split.
  - apply sub_from_filter. intros m. rewrite drop_spaces_filter. apply filter_idempotent.
  - apply sub_from_length. intros m. rewrite drop_spaces_filter. apply filter_length_le.
Qed.

Lemma spaced_cons (c d : cp) (l : str) :
  spaced (c :: d :: l) = c :: SPACE :: spaced (d :: l).
Proof. reflexivity. Qed.

Lemma space_is_space : py_isspace SPACE = true.
Proof. reflexivity. Qed.

(** From a capital of a run of single-spaced capitals, the run is passed to
    its end. *)
Lemma tail_rest_spaced (l : str) :
  forall c, forallb is_upper_AZ (c :: l) = true ->
            tail_rest U (spaced (c :: l)) = Some [].
Proof.
  induction l as [|d l IH]; intros c H; cbn [forallb] in H;
    apply andb_true_iff in H as [Hc Hl].
  - change (spaced [c]) with [c]. rewrite tail_rest_step, Hc. reflexivity.
  - rewrite spaced_cons, tail_rest_step, Hc, cont_tail_rest, space_is_space.
    cbn [andb tl].
    assert (Hd : drop_while py_isspace (spaced (d :: l)) = spaced (d :: l)).
    { cbn [forallb] in Hl. apply andb_true_iff in Hl as [Hd _].
      destruct l; [change (spaced [d]) with [d] | rewrite spaced_cons];
        cbn [drop_while]; now rewrite (upper_not_space d Hd). }
    rewrite Hd, (IH d Hl). reflexivity.
Qed.

Lemma filter_spaced (l : str) :
  forallb is_upper_AZ l = true -> filter not_SPACE (spaced l) = l.
Proof.
  induction l as [|c l IH]; [reflexivity|]. intros H. cbn [forallb] in H.
  apply andb_true_iff in H as [Hc Hl]. destruct l as [|d l].
  - change (spaced [c]) with [c]. cbn [filter]. now rewrite (upper_not_SPACE c Hc).
  - rewrite spaced_cons. cbn [filter]. rewrite (upper_not_SPACE c Hc).
    change (not_SPACE SPACE) with false. cbv iota. now rewrite (IH Hl).
Qed.

(** X5: a text that is three or more capitals set apart by single spaces
    collapses into the capitals; one or two such capitals stay as they
    are. *)
Theorem collapse_spaced_capitals (letters : str) :
  forallb is_upper_AZ letters = true ->
  collapse_spaced_capital_sequences U (spaced letters)
  = if (3 <=? length letters)%nat then letters else spaced letters.
Proof.
  intros H. rewrite collapse_spaced_from.
  destruct letters as [|a [|b [|c l]]].
  - reflexivity.
  - change (spaced [a]) with [a]. cbn [length Nat.leb].
    rewrite spaced_from_no_match; [reflexivity|].
    unfold spaced_rest. now destruct (xorb _ _).
  - change (spaced [a; b]) with [a; SPACE; b]. cbn [length Nat.leb].
    cbn [forallb] in H. apply andb_true_iff in H as [Ha H].
    apply andb_true_iff in H as [Hb _].
    rewrite spaced_from_no_match.
    + rewrite (spaced_from_space U (Some a) SPACE [b] space_is_space).
      rewrite spaced_from_no_match; [reflexivity|].
      unfold spaced_rest. now destruct (xorb _ _).
    + unfold spaced_rest. destruct (xorb _ _); [|reflexivity].
      cbn [capital_gap]. rewrite Ha, space_is_space. cbn [andb and_then drop_while].
      now rewrite (upper_not_space b Hb).
  - cbn [length Nat.leb].
    pose proof H as H'. cbn [forallb] in H'. apply andb_true_iff in H' as [Ha H'].
    apply andb_true_iff in H' as [Hb Hc].
    assert (Hr : spaced_rest U None (spaced (a :: b :: c :: l) ++ []) = Some []).
    { rewrite app_nil_r, !spaced_cons. unfold spaced_rest.
      cbn [word_at hd_error]. rewrite (upper_word U a Ha). cbn [xorb].
      cbn [capital_gap]. rewrite Ha, space_is_space. cbn [andb and_then drop_while].
      rewrite (upper_not_space b Hb). cbn [capital_gap].
      rewrite Hb, space_is_space. cbn [andb and_then].
      assert (Hd : drop_while py_isspace (spaced (c :: l)) = spaced (c :: l)).
      { pose proof Hc as Hc'. cbn [forallb] in Hc'. apply andb_true_iff in Hc' as [Hc' _].
        destruct l; [change (spaced [c]) with [c] | rewrite spaced_cons];
          cbn [drop_while]; now rewrite (upper_not_space c Hc'). }
      rewrite Hd. fold (tail_rest U (spaced (c :: l))). now apply tail_rest_spaced. }
    rewrite <- (app_nil_r (spaced (a :: b :: c :: l))) at 1.
    rewrite (spaced_from_match U None _ [] Hr), spaced_from_nil, app_nil_r.
    rewrite drop_spaces_filter. now apply filter_spaced.
Qed.

End Collapsing.

(** Three capitals set apart by spaces: the hypothesis of X5 holds. *)
Lemma collapse_spaced_capitals_witness :
  collapse_spaced_capital_sequences ascii_only_db (spaced (lit "ABC")) = lit "ABC".
Proof.
  apply (collapse_spaced_capitals ascii_only_db (lit "ABC")). reflexivity.
Defined.

(** ** Repetitions over a run of characters *)

Section Runs.

Variable U : unicode_db.

(** A repetition passes a run of the class when what follows accepts the text
    after the run. *)
Lemma star_chr_run (p : cp -> bool) (k : mstate -> option mstate)
      (c : cp) (v : str) (g : option str) (x : mstate) :
  p c = false ->
  forall u prev,
    forallb p u = true ->
    k (mk_state (last_or prev u) (c :: v) g) = Some x ->
    star_chr p k prev g (u ++ c :: v) = Some x.
Proof.
  intros Hc u. induction u as [|d u IH]; intros prev Hu Hk.
  - cbn [app star_chr]. now rewrite Hc.
  - cbn [forallb] in Hu. apply andb_true_iff in Hu as [Hd Hu].
    cbn [app star_chr]. rewrite Hd. now rewrite (IH (Some d) Hu Hk).
Qed.

Lemma star_chr_end (p : cp -> bool) (k : mstate -> option mstate)
      (g : option str) (x : mstate) :
  forall u prev,
    forallb p u = true ->
    k (mk_state (last_or prev u) [] g) = Some x ->
    star_chr p k prev g u = Some x.
Proof.
  induction u as [|d u IH]; intros prev Hu Hk; [exact Hk|].
  cbn [forallb] in Hu. apply andb_true_iff in Hu as [Hd Hu].
  cbn [star_chr]. rewrite Hd. now rewrite (IH (Some d) Hu Hk).
Qed.

(** A repetition over a run fails when what follows fails at every point of
    the run. *)
Lemma star_chr_run_None (p : cp -> bool) (k : mstate -> option mstate)
      (c : cp) (v : str) (g : option str) :
  p c = false ->
  forall u prev,
    forallb p u = true ->
    (forall u1 u2 prev', u = u1 ++ u2 -> k (mk_state prev' (u2 ++ c :: v) g) = None) ->
    star_chr p k prev g (u ++ c :: v) = None.
Proof.
  intros Hc u. induction u as [|d u IH]; intros prev Hu Hk.
  - cbn [app star_chr]. rewrite Hc. exact (Hk [] [] prev eq_refl).
  - cbn [forallb] in Hu. apply andb_true_iff in Hu as [Hd Hu].
    cbn [app star_chr]. rewrite Hd. rewrite IH.
    + exact (Hk [] (d :: u) prev eq_refl).
    + exact Hu.
    + intros u1 u2 prev' ->. exact (Hk (d :: u1) u2 prev' eq_refl).
Qed.

Lemma digit_09_re_digit (c : cp) : is_digit_09 c = true -> re_digit U c = true.
Proof. intros H. unfold re_digit. replace (is_ascii c) with true by (symmetry; classes). exact H. Qed.

Lemma digit_09_not_space (c : cp) : is_digit_09 c = true -> py_isspace c = false.
Proof. intros H. classes. Qed.

Lemma digit_09_ascii (c : cp) : is_digit_09 c = true -> is_ascii c = true.
Proof. intros H. classes. Qed.

Lemma dot_or_paren_not_digit (c : cp) : dot_or_paren c = true -> re_digit U c = false.
Proof.
  intros H. unfold re_digit. replace (is_ascii c) with true by (symmetry; classes). classes.
Qed.

Lemma dot_or_paren_not_space (c : cp) : dot_or_paren c = true -> py_isspace c = false.
Proof. intros H. classes. Qed.

Lemma lower_not_space (c : cp) : is_lower_az c = true -> py_isspace c = false.
Proof. intros H. classes. Qed.

Lemma digits_09_re_digits (d : str) :
  forallb is_digit_09 d = true -> forallb (re_digit U) d = true.
Proof. apply forallb_impl. exact digit_09_re_digit. Qed.

End Runs.

(** ** The removal of a heading number *)

Section HeadingNumber.

Variable U : unicode_db.

Lemma heading_match_group (line : str) (st : mstate) (g : str) :
  re_match U (NUMERIC_HEADING U) line = Some st -> m_group st = Some g ->
  remove_numeric_heading_prefix U line = g.
Proof.
  intros H Hg. destruct line as [|c line].
  - exfalso. revert H. unfold re_match, match_at, NUMERIC_HEADING.
    repeat rx_step. cbn [star_chr]. rewrite matches_Seq, matches_Plus_Chr.
    discriminate.
  - unfold remove_numeric_heading_prefix. now rewrite H, Hg.
Qed.

(** X6: a line of white space or none, ASCII digits, a dot, white space, and
    then a text that starts with an ASCII letter and has no line feed, loses
    all that comes before that text. *)
Theorem heading_number_removed (ws0 d ws : str) (a : cp) (rest : str) :
  forallb py_isspace ws0 = true ->
  d <> [] -> forallb is_digit_09 d = true ->
  ws <> [] -> forallb py_isspace ws = true ->
  is_alpha_azAZ a = true ->
  forallb not_newline rest = true ->
  remove_numeric_heading_prefix U (ws0 ++ d ++ lit "." ++ ws ++ a :: rest) = a :: rest.
Proof.
  intros Hws0 Hd0 Hd Hws1 Hws Ha Hrest.
  destruct d as [|d0 d]; [congruence|]. destruct ws as [|w0 ws]; [congruence|].
  cbn [forallb] in Hd, Hws. apply andb_true_iff in Hd as [Hd0' Hd].
  apply andb_true_iff in Hws as [Hw0 Hws].
  apply (heading_match_group _
           (mk_state (last_or (Some a) rest) [] (Some (a :: rest)))); [|reflexivity].
  unfold re_match, match_at, NUMERIC_HEADING. change (lit ".") with [46].
  rewrite matches_Seq, matches_Bol. cbn [start_state m_prev].
  rewrite matches_Seq, matches_Star_Chr. cbn [m_prev m_group m_rest].
  change ((d0 :: d) ++ [46] ++ (w0 :: ws) ++ a :: rest)
    with (d0 :: (d ++ 46 :: (w0 :: ws) ++ a :: rest)).
  apply star_chr_run; [now apply digit_09_not_space | exact Hws0 |].
  rewrite matches_Seq, matches_Plus_Chr. cbn [mk_state m_rest m_group].
  rewrite (digit_09_re_digit U d0 Hd0').
  apply star_chr_run; [reflexivity | now apply digits_09_re_digits |].
  rewrite matches_Seq, matches_Lit.
  cbn [mk_state m_rest m_group m_prev startswith length skipn]. rewrite N.eqb_refl.
  cbn [andb app].
  rewrite matches_Seq, matches_Plus_Chr. cbn [mk_state m_rest m_group]. rewrite Hw0.
  apply star_chr_run; [now apply alpha_not_space | exact Hws |].
  rewrite matches_Seq, matches_Group, matches_Seq, matches_Chr.
  cbn [mk_state m_rest m_group]. rewrite Ha.
  rewrite matches_Star_Chr. cbn [mk_state m_rest m_group m_prev].
  apply star_chr_end; [exact Hrest|].
  rewrite matches_Eol. cbn [mk_state m_rest m_prev m_group length].
  rewrite Nat.sub_0_r.
  change (firstn (S (length rest)) (a :: rest)) with (a :: firstn (length rest) rest).
  now rewrite firstn_all.
Qed.

End HeadingNumber.

(** A numbered heading: the hypotheses of X6 hold. *)
Lemma heading_number_removed_witness :
  remove_numeric_heading_prefix ascii_only_db (lit " 12. Methods and data")
  = lit "Methods and data".
Proof.
  apply (heading_number_removed ascii_only_db (lit " ") (lit "12") (lit " ")
           77 (lit "ethods and data"));
    first [reflexivity | discriminate].
Defined.

(** ** The list-item rules of the classifier *)

Section ListItems.

Variable U : unicode_db.

Lemma space_not_bullet (w : cp) : py_isspace w = true -> in_class bullet_glyphs w = false.
Proof.
  intros Hw. destruct (in_class bullet_glyphs w) eqn:E; [|reflexivity].
  apply in_class_In in E. cbn [bullet_glyphs In] in E.
  repeat (destruct E as [<-|E]; [discriminate Hw|]). destruct E.
Qed.

Lemma digit_not_bullet (c : cp) : is_digit_09 c = true -> in_class bullet_glyphs c = false.
Proof.
  intros Hc. destruct (in_class bullet_glyphs c) eqn:E; [|reflexivity].
  apply in_class_In in E. cbn [bullet_glyphs In] in E.
  repeat (destruct E as [<-|E]; [discriminate Hc|]). destruct E.
Qed.

(** X7: a line is dropped when its text without the white space around it
    starts with one or more bullet glyphs and then a white-space
    character. *)
Theorem bullet_line_dropped (line b : str) (w : cp) (rest : str) :
  b <> [] -> forallb (in_class bullet_glyphs) b = true -> py_isspace w = true ->
  py_strip line = b ++ w :: rest ->
  should_drop_line U line = true.
Proof.
  intros Hb0 Hb Hw Hs. apply (rule_dropped U line (bullet_rule U)).
  - reflexivity.
  - intros s ->. now destruct (caption_rule U s).
  - rewrite Hs. destruct b as [|b0 b]; [congruence|].
    cbn [forallb] in Hb. apply andb_true_iff in Hb as [Hb0' Hb].
    unfold bullet_rule, re_match, match_at, BULLET.
    rewrite matches_Seq, matches_Bol. cbn [start_state m_prev].
    rewrite matches_Seq, matches_Plus_Chr. cbn [start_state m_rest m_group app]. rewrite Hb0'.
    rewrite (star_chr_run (in_class bullet_glyphs) _ w rest None
               (mk_state (last_or (Some w) (take_while py_isspace rest))
                         (drop_while py_isspace rest) None)
               (space_not_bullet w Hw) b (Some b0) Hb); [reflexivity|].
    rewrite matches_Plus_Chr. cbn [mk_state m_rest m_group]. rewrite Hw.
    apply star_chr_Some.
Qed.

(** X8: a line is dropped when its text without the white space around it
    starts with digits, a dot or a closing parenthesis, white space and a
    small ASCII letter. *)
Theorem numbered_subitem_dropped (line d : str) (p : cp) (ws : str) (a : cp) (rest : str) :
  d <> [] -> forallb (re_digit U) d = true -> dot_or_paren p = true ->
  ws <> [] -> forallb py_isspace ws = true -> is_lower_az a = true ->
  py_strip line = d ++ p :: ws ++ a :: rest ->
  should_drop_line U line = true.
Proof.
  intros Hd0 Hd Hp Hws0 Hws Ha Hs. apply (rule_dropped U line (numbered_subitem_rule U)).
  - reflexivity.
  - intros s ->.
    now destruct (caption_rule U s), (bullet_rule U s), (letter_label_rule U s).
  - rewrite Hs. destruct d as [|d0 d]; [congruence|]. destruct ws as [|w0 ws]; [congruence|].
    cbn [forallb] in Hd, Hws. apply andb_true_iff in Hd as [Hd0' Hd].
    apply andb_true_iff in Hws as [Hw0 Hws].
    unfold numbered_subitem_rule, re_match, match_at, NUMBERED_SUBITEM.
    rewrite matches_Seq, matches_Bol. cbn [start_state m_prev].
    rewrite matches_Seq, matches_Plus_Chr. cbn [start_state m_rest m_group app]. rewrite Hd0'.
    rewrite (star_chr_run (re_digit U) _ p ((w0 :: ws) ++ a :: rest) None
               (mk_state (Some a) rest None)
               (dot_or_paren_not_digit U p Hp) d (Some d0) Hd); [reflexivity|].
    rewrite matches_Seq, matches_Chr. cbn [mk_state m_rest m_group app]. rewrite Hp.
    rewrite matches_Seq, matches_Plus_Chr. cbn [mk_state m_rest m_group]. rewrite Hw0.
    apply star_chr_run; [now apply lower_not_space | exact Hws |].
    rewrite matches_Chr. cbn [mk_state m_rest m_group]. now rewrite Ha.
Qed.

(** X9: a line is dropped when its text without the white space around it is
    digits and a dot or a closing parenthesis, and nothing more. *)
Theorem bare_number_dropped (line d : str) (p : cp) :
  d <> [] -> forallb (re_digit U) d = true -> dot_or_paren p = true ->
  py_strip line = d ++ [p] ->
  should_drop_line U line = true.
Proof.
  intros Hd0 Hd Hp Hs. apply (rule_dropped U line (bare_number_rule U)).
  - reflexivity.
  - intros s ->.
    now destruct (caption_rule U s), (bullet_rule U s), (letter_label_rule U s),
      (numbered_subitem_rule U s).
  - rewrite Hs. destruct d as [|d0 d]; [congruence|].
    cbn [forallb] in Hd. apply andb_true_iff in Hd as [Hd0' Hd].
    unfold bare_number_rule, re_match, match_at, BARE_NUMBER.
    rewrite matches_Seq, matches_Bol. cbn [start_state m_prev].
    rewrite matches_Seq, matches_Plus_Chr. cbn [start_state m_rest m_group app]. rewrite Hd0'.
    rewrite (star_chr_run (re_digit U) _ p [] None
               (mk_state (Some p) [] None)
               (dot_or_paren_not_digit U p Hp) d (Some d0) Hd); [reflexivity|].
    rewrite matches_Seq, matches_Chr. cbn [mk_state m_rest m_group]. rewrite Hp.
    rewrite matches_Seq, matches_Star_Chr. cbn [mk_state m_rest m_group m_prev star_chr].
    rewrite matches_Eol. reflexivity.
Qed.

End ListItems.

(** A bullet line, a numbered sub-item and a bare number: the hypotheses of
    X7, X8 and X9 hold. *)
Lemma bullet_line_dropped_witness :
  should_drop_line ascii_only_db ([8226; 8226] ++ lit " first point ") = true.
Proof.
  apply (bullet_line_dropped ascii_only_db _ [8226; 8226] 32 (lit "first point"));
    first [reflexivity | discriminate].
Defined.

Lemma numbered_subitem_dropped_witness :
  should_drop_line ascii_only_db (lit "  12)  see below") = true.
Proof.
  apply (numbered_subitem_dropped ascii_only_db _ (lit "12") 41 (lit "  ") 115
           (lit "ee below"));
    first [reflexivity | discriminate].
Defined.

Lemma bare_number_dropped_witness :
  should_drop_line ascii_only_db (lit " 3. ") = true.
Proof.
  apply (bare_number_dropped ascii_only_db _ (lit "3") 46);
    first [reflexivity | discriminate].
Defined.

(** ** Stripping and the classifier *)

Section Stripping.

Variable U : unicode_db.

Lemma drop_while_fixed (p : cp -> bool) (s : str) :
  match hd_error s with Some c => p c = false | None => True end ->
  drop_while p s = s.
Proof. intros H. exact (drop_while_app_stop p [] s eq_refl H). Qed.

Lemma drop_while_idempotent (p : cp -> bool) (s : str) :
  drop_while p (drop_while p s) = drop_while p s.
Proof. apply drop_while_fixed, drop_while_hd. Qed.

(** What stripping leaves starts and ends with a character that is kept. *)
Lemma strip_by_idempotent (p : cp -> bool) (s : str) :
  strip_by p (strip_by p s) = strip_by p s.
Proof.
  unfold strip_by, lstrip_by, rstrip_by.
  set (u := drop_while p s). set (v := drop_while p (rev u)).
  assert (HA : drop_while p (rev v) = rev v).
  { apply drop_while_fixed.
    pose proof (take_drop_while p (rev u)) as E. fold v in E.
    apply (f_equal (@rev cp)) in E. rewrite rev_app_distr, rev_involutive in E.
    destruct (rev v) as [|c t] eqn:Ev; [exact I|]. cbn [hd_error].
    cbn [app] in E. symmetry in E. exact (drop_while_head p s c _ E). }
  rewrite HA, rev_involutive. unfold v. now rewrite drop_while_idempotent.
Qed.

Lemma py_strip_idempotent (s : str) : py_strip (py_strip s) = py_strip s.
Proof. apply strip_by_idempotent. Qed.

(** X10: the classifier reads only the text without the white space around
    it: a line and its stripped text are judged alike, and a line of white
    space only is kept. *)
Theorem should_drop_line_stripped (line : str) :
  should_drop_line U line = should_drop_line U (py_strip line)
  /\ negb (nonblank line) && should_drop_line U line = false.
Proof.
  unfold should_drop_line, nonblank. split.
  - destruct line as [|c line]; [reflexivity|].
    destruct (py_strip (c :: line)) as [|d s] eqn:E; [reflexivity|].
    rewrite <- E, py_strip_idempotent, E. reflexivity.
  - destruct line as [|c line]; [reflexivity|].
    now destruct (py_strip (c :: line)).
Qed.

End Stripping.

(** ** The letter-label rule on whole lines *)

Lemma alpha_cases (c : cp) :
  is_alpha_azAZ c = true -> In c (map N.of_nat (seq 65 26 ++ seq 97 26)).
Proof.
  intros H. rewrite <- (N2Nat.id c). apply in_map. apply in_app_iff.
  rewrite !in_seq.
  assert (Hc : 65 <= c <= 90 \/ 97 <= c <= 122).
  { unfold is_alpha_azAZ, is_upper_AZ, is_lower_az, in_range in H.
    apply orb_true_iff in H. destruct H as [H|H];
      apply andb_true_iff in H as [H1 H2]; apply N.leb_le in H1, H2;
      [left | right]; split; assumption. }
  lia.
Qed.

Lemma rstrip_by_all (p : cp -> bool) (s : str) :
  forallb p s = true -> rstrip_by p s = [].
Proof.
  intros H. unfold rstrip_by.
  assert (Hr : forallb p (rev s) = true).
  { apply forallb_forall. intros x Hx. apply in_rev in Hx.
    exact (proj1 (forallb_forall p s) H x Hx). }
  clear H. induction (rev s) as [|c t IH]; [reflexivity|].
  cbn [forallb] in Hr. apply andb_true_iff in Hr as [Hc Ht].
  cbn [drop_while]. rewrite Hc. now apply IH.
Qed.

(** The stripped text of a line whose first character after the leading
    white space is [a] and that has a character [x] that is kept. *)
Lemma py_strip_line (ws : str) (a : cp) (body : str) (x : cp) (tail : str) :
  forallb py_isspace ws = true -> py_isspace a = false -> py_isspace x = false ->
  py_strip (ws ++ a :: body ++ x :: tail)
  = a :: body ++ x :: rstrip_by py_isspace tail.
Proof.
  intros Hws Ha Hx. unfold py_strip, strip_by, lstrip_by.
  rewrite (drop_while_all py_isspace ws (body ++ x :: tail) a Hws Ha).
  change (a :: body ++ x :: tail) with ((a :: body) ++ x :: tail).
  now rewrite (rstrip_by_app_keep py_isspace (a :: body) tail x Hx).
Qed.

Section LetterLabelLines.

Variable U : unicode_db.

Lemma classifier_reads_stripped (line : str) :
  should_drop_line U line = should_drop_line U (py_strip line).
Proof.
  unfold should_drop_line.
  destruct line as [|c line]; [reflexivity|].
  destruct (py_strip (c :: line)) as [|d s] eqn:E; [reflexivity|].
  rewrite <- E, py_strip_idempotent, E. reflexivity.
Qed.

(** A label and nothing after it passes the classifier. *)
Lemma label_alone_kept (c : cp) :
  is_alpha_azAZ c = true ->
  should_drop_line U [40; c; 41] = false /\ should_drop_line U [c; 41] = false.
Proof.
  intros H. apply alpha_cases in H. vm_compute in H.
  repeat (destruct H as [<-|H]; [split; vm_compute; reflexivity|]).
  destruct H.
Qed.

Lemma label_line_dropped (ws : str) (c w : cp) (mid : str) (x : cp) (tail : str) :
  forallb py_isspace ws = true -> is_alpha_azAZ c = true ->
  py_isspace w = true -> py_isspace x = false ->
  should_drop_line U (ws ++ 40 :: c :: 41 :: w :: mid ++ x :: tail) = true
  /\ should_drop_line U (ws ++ c :: 41 :: w :: mid ++ x :: tail) = true.
Proof.
  intros Hws Hc Hw Hx.
  assert (Hdrop : forall s, letter_label_rule U s = true ->
     (if caption_rule U s then true
      else if bullet_rule U s then true
      else if letter_label_rule U s then true
      else if numbered_subitem_rule U s then true
      else if bare_number_rule U s then true else false) = true).
  { intros s ->. now destruct (caption_rule U s), (bullet_rule U s). }
  split; apply (rule_dropped U _ (letter_label_rule U) eq_refl Hdrop).
  - pose proof (py_strip_line ws 40 (c :: 41 :: w :: mid) x tail Hws eq_refl Hx) as Es; cbn [app] in Es.
    refine (eq_trans (f_equal (letter_label_rule U) Es) _). unfold letter_label_rule.
    rewrite (lower_label_paren U c w _ Hc Hw).
    apply (proj1 (letter_label_paren U _ w _ (alpha_lower c Hc) Hw)).
  - pose proof (py_strip_line ws c (41 :: w :: mid) x tail Hws (alpha_not_space c Hc) Hx) as Es; cbn [app] in Es.
    refine (eq_trans (f_equal (letter_label_rule U) Es) _). unfold letter_label_rule.
    rewrite (lower_label_noparen U c w _ Hc Hw).
    apply (proj2 (letter_label_paren U _ w _ (alpha_lower c Hc) Hw)).
Qed.

Lemma label_line_alone (ws : str) (c : cp) (ws' : str) :
  forallb py_isspace ws = true -> is_alpha_azAZ c = true ->
  forallb py_isspace ws' = true ->
  should_drop_line U (ws ++ 40 :: c :: 41 :: ws') = false
  /\ should_drop_line U (ws ++ c :: 41 :: ws') = false.
Proof.
  intros Hws Hc Hws'. split; rewrite classifier_reads_stripped.
  - pose proof (py_strip_line ws 40 [c] 41 ws' Hws eq_refl eq_refl) as Es; cbn [app] in Es.
    rewrite (rstrip_by_all py_isspace ws' Hws') in Es.
    refine (eq_trans (f_equal (should_drop_line U) Es) _).
    apply (proj1 (label_alone_kept c Hc)).
  - pose proof (py_strip_line ws c [] 41 ws' Hws (alpha_not_space c Hc) eq_refl) as Es; cbn [app] in Es.
    rewrite (rstrip_by_all py_isspace ws' Hws') in Es.
    refine (eq_trans (f_equal (should_drop_line U) Es) _).
    apply (proj2 (label_alone_kept c Hc)).
Qed.

Lemma bare_letter_line (ws : str) (c w : cp) (mid : str) (x : cp) (tail : str) :
  forallb py_isspace ws = true -> is_alpha_azAZ c = true ->
  py_isspace w = true -> py_isspace x = false ->
  letter_label_rule U (py_strip (ws ++ c :: w :: mid ++ x :: tail)) = false.
Proof.
  intros Hws Hc Hw Hx.
  pose proof (py_strip_line ws c (w :: mid) x tail Hws (alpha_not_space c Hc) Hx) as Es; cbn [app] in Es.
  refine (eq_trans (f_equal (letter_label_rule U) Es) _). unfold letter_label_rule.
  rewrite (lower_label_bare U c w _ Hc Hw).
  apply letter_label_bare; [now apply alpha_lower | exact Hw].
Qed.

(** C10, as the code has it: the letter-label rule reads the lower-cased
    text of the line without the white space around it.  A line is dropped
    when, after its leading white space, it has a letter of either case
    between an optional opening and a closing parenthesis, then white space,
    and later a character that is not white space.  A line that has after
    the label white space only is kept: stripping takes that white space
    away before the rule is tried.  A bare letter followed by white space
    does not meet the rule. *)
Theorem C10_letter_label_rule :
  (forall s, letter_label_rule U s = is_some (re_match U LETTER_LABEL (py_lower U s)))
  /\ (forall line, letter_label_rule U (py_strip line) = true ->
                   should_drop_line U line = true)
  /\ (forall ws c w mid x tail,
        forallb py_isspace ws = true -> is_alpha_azAZ c = true ->
        py_isspace w = true -> py_isspace x = false ->
        should_drop_line U (ws ++ lit "(" ++ c :: lit ")" ++ w :: mid ++ x :: tail) = true
        /\ should_drop_line U (ws ++ c :: lit ")" ++ w :: mid ++ x :: tail) = true)
  /\ (forall ws c ws',
        forallb py_isspace ws = true -> is_alpha_azAZ c = true ->
        forallb py_isspace ws' = true ->
        should_drop_line U (ws ++ lit "(" ++ c :: lit ")" ++ ws') = false
        /\ should_drop_line U (ws ++ c :: lit ")" ++ ws') = false)
  /\ (forall ws c w mid x tail,
        forallb py_isspace ws = true -> is_alpha_azAZ c = true ->
        py_isspace w = true -> py_isspace x = false ->
        letter_label_rule U (py_strip (ws ++ c :: w :: mid ++ x :: tail)) = false)
  /\ (forall c w rest, is_alpha_azAZ c = true -> py_isspace w = true ->
        letter_label_rule U (lit "(" ++ c :: lit ")" ++ w :: rest) = true
        /\ letter_label_rule U (c :: lit ")" ++ w :: rest) = true)
  /\ (forall c w rest, is_alpha_azAZ c = true -> py_isspace w = true ->
        letter_label_rule U (c :: w :: rest) = false)
  /\ map (should_drop_line U)
         [lit "(a) first"; lit "a) first"; lit "(A) first"; lit "A) first";
          lit "  (A) first  "; lit " b)   second item "]
     = [true; true; true; true; true; true]
  /\ map (should_drop_line U)
         [lit "(a) "; lit "(A)   "; lit "a) "; lit "  A)  "; lit "(a)"]
     = [false; false; false; false; false]
  /\ letter_label_rule U (lit "a word") = false
  /\ should_drop_line U (lit "a word") = false.
Proof.
  split; [reflexivity|].
  split.
  { intros line. apply rule_dropped; [reflexivity|].
    intros s ->. now destruct (caption_rule U s), (bullet_rule U s). }
  split; [intros ws c w mid x tail; apply label_line_dropped|].
  split; [intros ws c ws'; apply label_line_alone|].
  split; [intros ws c w mid x tail; apply bare_letter_line|].
  split.
  { intros c w rest Hc Hw. unfold letter_label_rule.
    change (lit "(" ++ c :: lit ")" ++ w :: rest) with (40 :: c :: 41 :: w :: rest).
    change (c :: lit ")" ++ w :: rest) with (c :: 41 :: w :: rest).
    rewrite (lower_label_paren U c w rest Hc Hw), (lower_label_noparen U c w rest Hc Hw).
    split; [apply (proj1 (letter_label_paren U _ w _ (alpha_lower c Hc) Hw))
           |apply (proj2 (letter_label_paren U _ w _ (alpha_lower c Hc) Hw))]. }
  split.
  { intros c w rest Hc Hw. unfold letter_label_rule.
    rewrite (lower_label_bare U c w rest Hc Hw).
    apply letter_label_bare; [now apply alpha_lower | exact Hw]. }
  split; [vm_compute; reflexivity|].
  split; [vm_compute; reflexivity|].
  split; vm_compute; reflexivity.
Qed.

End LetterLabelLines.

(** C10, as the specification words it, fails on a line that has nothing
    after the label but white space: the white space at the end is stripped
    before the rule is tried, so the pattern, which asks for white space
    after the closing parenthesis, does not match, though it matches the
    same text with the white space left in place. *)
Lemma C10_label_alone_is_kept :
  (forall U, should_drop_line U (lit "(a) ") = false)
  /\ (forall U, should_drop_line U (lit "(A)   ") = false)
  /\ (forall U, should_drop_line U (lit "a) ") = false)
  /\ (forall U, py_strip (lit "(a) ") = lit "(a)"
                /\ letter_label_rule U (lit "(a)") = false
                /\ letter_label_rule U (lit "(a) ") = true).
Proof.
  split; [|split; [|split]]; intros V; vm_compute; auto.
Qed.

(** ** Numbered headings and the classifier *)

Section NumberedHeading.

Variable U : unicode_db.

Lemma digit_not_caption (x : cp) (t : str) :
  is_digit_09 x = true -> startswith_any caption_prefixes (x :: t) = false.
Proof.
  intros Hx.
  assert (H1 : (102 =? x) = false) by classes.
  assert (H2 : (116 =? x) = false) by classes.
  unfold startswith_any, caption_prefixes. eval_lits.
  cbn [existsb startswith]. now rewrite H1, H2.
Qed.

Lemma digit_not_upper (x : cp) : is_digit_09 x = true -> is_upper_AZ x = false.
Proof. intros H. classes. Qed.

Lemma digit_not_lower (x : cp) : is_digit_09 x = true -> is_lower_az x = false.
Proof. intros H. classes. Qed.

Lemma digit_not_open_paren (x : cp) : is_digit_09 x = true -> (40 =? x) = false.
Proof. intros H. classes. Qed.

Lemma upper_not_lower (x : cp) : is_upper_AZ x = true -> is_lower_az x = false.
Proof. intros H. classes. Qed.

Lemma upper_not_NL (x : cp) : is_upper_AZ x = true -> (x =? NL) = false.
Proof. intros H. classes. Qed.

Lemma re_digit_not_dot_or_paren (c : cp) : re_digit U c = true -> dot_or_paren c = false.
Proof.
  intros H. destruct (dot_or_paren c) eqn:E; [|reflexivity].
  now rewrite (dot_or_paren_not_digit U c E) in H.
Qed.

Lemma space_not_lower (c : cp) : py_isspace c = true -> is_lower_az c = false.
Proof.
  intros H. destruct (is_lower_az c) eqn:E; [|reflexivity].
  now rewrite (lower_not_space c E) in H.
Qed.

(** X11: a numbered heading is not dropped: a line whose text without the
    white space around it is ASCII digits, a dot or a closing parenthesis,
    white space and then a text that starts with a capital ASCII letter
    passes the classifier. *)
Theorem numbered_heading_kept (line d : str) (p : cp) (ws : str) (a : cp) (rest : str) :
  d <> [] -> forallb is_digit_09 d = true -> dot_or_paren p = true ->
  ws <> [] -> forallb py_isspace ws = true -> is_upper_AZ a = true ->
  py_strip line = d ++ p :: ws ++ a :: rest ->
  should_drop_line U line = false.
Proof.
  intros Hd0 Hd Hp Hws0 Hws Ha Hs.
  destruct d as [|d0 d]; [congruence|]. destruct ws as [|w0 ws]; [congruence|].
  pose proof (digits_09_re_digits U _ Hd) as Hrd.
  cbn [forallb] in Hd, Hws, Hrd. apply andb_true_iff in Hd as [Hd0' Hd].
  apply andb_true_iff in Hws as [Hw0 Hws]. apply andb_true_iff in Hrd as [Hrd0 Hrd].
  unfold should_drop_line.
  destruct line as [|c line]; [now rewrite py_strip_nil in Hs|].
  rewrite Hs. cbv zeta.
  change ((d0 :: d) ++ p :: (w0 :: ws) ++ a :: rest)
    with (d0 :: (d ++ p :: (w0 :: ws) ++ a :: rest)).
  set (t := d ++ p :: (w0 :: ws) ++ a :: rest).
  (* the caption rule *)
  assert (E1 : caption_rule U (d0 :: t) = false).
  { unfold caption_rule, py_lower.
    rewrite (lower_from_ascii U d0 [] t (digit_09_ascii d0 Hd0')).
    apply digit_not_caption. unfold ascii_lower.
    now rewrite (digit_not_upper d0 Hd0'). }
  (* the bullet rule *)
  assert (E2 : bullet_rule U (d0 :: t) = false).
  { unfold bullet_rule, re_match, match_at, BULLET.
    rewrite matches_Seq, matches_Bol. cbn [start_state m_prev].
    rewrite matches_Seq, matches_Plus_Chr. cbn [start_state m_rest].
    now rewrite (digit_not_bullet d0 Hd0'). }
  (* the letter-label rule *)
  assert (E3 : letter_label_rule U (d0 :: t) = false).
  { unfold letter_label_rule, py_lower.
    rewrite (lower_from_ascii U d0 [] t (digit_09_ascii d0 Hd0')).
    unfold ascii_lower. rewrite (digit_not_upper d0 Hd0').
    unfold re_match, match_at, LETTER_LABEL, Opt. change (lit "(") with [40].
    rewrite matches_Seq, matches_Bol. cbn [start_state m_prev].
    rewrite matches_Seq, matches_Alt, matches_Lit, matches_Eps.
    cbn [start_state m_rest startswith]. rewrite (digit_not_open_paren d0 Hd0').
    cbn [andb]. rewrite matches_Seq, matches_Chr. cbn [start_state m_rest].
    now rewrite (digit_not_lower d0 Hd0'). }
  (* the numbered sub-item rule *)
  assert (E4 : numbered_subitem_rule U (d0 :: t) = false).
  { unfold numbered_subitem_rule, re_match, match_at, NUMBERED_SUBITEM.
    rewrite matches_Seq, matches_Bol. cbn [start_state m_prev].
    rewrite matches_Seq, matches_Plus_Chr. cbn [start_state m_rest m_group].
    rewrite Hrd0. rewrite star_chr_greedy.
    - unfold t. rewrite (drop_while_all (re_digit U) d _ p Hrd (dot_or_paren_not_digit U p Hp)).
      rewrite matches_Seq, matches_Chr. cbn [mk_state m_rest m_group app]. rewrite Hp.
      rewrite matches_Seq, matches_Plus_Chr. cbn [mk_state m_rest m_group]. rewrite Hw0.
      rewrite star_chr_greedy.
      + rewrite (drop_while_all py_isspace ws rest a Hws (upper_not_space a Ha)).
        rewrite matches_Chr. cbn [mk_state m_rest].
        now rewrite (upper_not_lower a Ha).
      + intros prev c' s g Hc. rewrite matches_Chr. cbn [mk_state m_rest].
        now rewrite (space_not_lower c' Hc).
    - intros prev c' s g Hc. rewrite matches_Seq, matches_Chr. cbn [mk_state m_rest].
      now rewrite (re_digit_not_dot_or_paren c' Hc). }
  (* the bare-number rule *)
  assert (E5 : bare_number_rule U (d0 :: t) = false).
  { unfold bare_number_rule, re_match, match_at, BARE_NUMBER.
    rewrite matches_Seq, matches_Bol. cbn [start_state m_prev].
    rewrite matches_Seq, matches_Plus_Chr. cbn [start_state m_rest m_group].
    rewrite Hrd0. rewrite star_chr_greedy.
    - unfold t. rewrite (drop_while_all (re_digit U) d _ p Hrd (dot_or_paren_not_digit U p Hp)).
      rewrite matches_Seq, matches_Chr. cbn [mk_state m_rest m_group app]. rewrite Hp.
      rewrite matches_Seq, matches_Star_Chr. cbn [mk_state m_rest m_group m_prev].
      change (w0 :: ws ++ a :: rest) with ((w0 :: ws) ++ a :: rest).
      rewrite star_chr_run_None; [reflexivity | now apply upper_not_space | |].
      + cbn [forallb]. now rewrite Hw0, Hws.
      + intros u1 u2 prev' _. rewrite matches_Eol. cbn [mk_state m_rest].
        destruct u2 as [|x [|y u2]]; cbn [app].
        * destruct rest; [now rewrite (upper_not_NL a Ha) | reflexivity].
        * reflexivity.
        * reflexivity.
    - intros prev c' s g Hc. rewrite matches_Seq, matches_Chr. cbn [mk_state m_rest].
      now rewrite (re_digit_not_dot_or_paren c' Hc). }
  now rewrite E1, E2, E3, E4, E5.
Qed.

End NumberedHeading.

(** A numbered heading in capitals: the hypotheses of X11 hold. *)
Lemma numbered_heading_kept_witness :
  should_drop_line ascii_only_db (lit "2. Materials and methods") = false.
Proof.
  apply (numbered_heading_kept ascii_only_db _ (lit "2") 46 (lit " ") 77
           (lit "aterials and methods"));
    first [reflexivity | discriminate].
Defined.

(** ** The segments and the files of a run *)

Section Files.

Variable U : unicode_db.
Variable h : host.

Lemma final_state_segments (pdf : list Page) :
  collected_segments (final_state (main U h pdf)) = flat_map (page_segments U) pdf.
Proof. now rewrite main_segments, process_pages_segments. Qed.

Lemma page_segments_nonempty (page : Page) :
  forallb (@nonempty cp) (page_segments U page) = true.
Proof.
  unfold page_segments.
  destruct (nonempty (page_cleaned_text U page)) eqn:E, (formula_bearing U page);
    cbn [app forallb]; rewrite ?E; reflexivity.
Qed.

Lemma filter_all {A} (f : A -> bool) (l : list A) :
  forallb f l = true -> filter f l = l.
Proof.
  induction l as [|x l IH]; [reflexivity|]. cbn [forallb filter].
  intros H. apply andb_true_iff in H as [Hx Hl]. now rewrite Hx, IH.
Qed.

(** X12: no Cleaned Segment is the empty string, so the test of the segments
    when the output is put together drops none: the text written is all the
    segments joined by two line feeds. *)
Theorem segments_never_empty (pdf : list Page) :
  let st := final_state (main U h pdf) in
  forallb (@nonempty cp) (collected_segments st) = true
  /\ output_text st = join [NL; NL] (collected_segments st).
Proof.
  cbv zeta.
  assert (H : forallb (@nonempty cp) (collected_segments (final_state (main U h pdf))) = true).
  { rewrite final_state_segments. induction pdf as [|page rest IH]; [reflexivity|].
    change (flat_map (page_segments U) (page :: rest))
      with (page_segments U page ++ flat_map (page_segments U) rest).
    rewrite forallb_app, page_segments_nonempty. exact IH. }
  split; [exact H|]. unfold output_text. now rewrite filter_all.
Qed.

Lemma process_page_trace (st : State) (pno : nat) (page : Page) :
  trace (process_page U st pno page)
  = trace st ++ page_events U (formula_counter st) pno page.
Proof.
  unfold process_page, page_events, formula_bearing, ocr_has_math, ocr_differs,
    complex_formula_lines, page_cleaned_text, ocr_transcript.
  cbv zeta.
  set (t := filtered_page_text U (repaired_page_text U (get_text page))).
  set (o := remove_chinese_characters U (py_strip (ocr_image_bytes page))).
  destruct (is_math_like U o || (50 <? length o)%nat && negb (contains o t)
            || nonempty (math_lines U t)); cbn [trace];
    now rewrite <- ?app_assoc, ?app_nil_r.
Qed.

Lemma process_pages_trace (pages : list Page) :
  forall st pno,
    trace (process_pages U st pno pages)
    = trace st ++ pages_events U (formula_counter st) pno pages.
Proof.
  induction pages as [|page rest IH]; intros st pno; cbn [process_pages pages_events].
  - now rewrite app_nil_r.
  - now rewrite IH, process_page_trace, process_page_counter, app_assoc.
Qed.

Lemma content_page_image_step (m counter pno : nat) (page : Page)
      (cur : option (list Byte.byte)) :
  content_after (PageImage m) cur (page_events U counter pno page)
  = if (m =? pno + 1)%nat then Some (render_page_png page) else cur.
Proof.
  unfold page_events. cbn [app content_after file_eqb].
  destruct (m =? pno + 1)%nat; destruct (formula_bearing U page);
    cbn [app content_after file_eqb]; now destruct cur.
Qed.

Lemma content_formula_image_step (m i counter pno : nat) (page : Page)
      (cur : option (list Byte.byte)) :
  content_after (FormulaImage m i) cur (page_events U counter pno page)
  = if formula_bearing U page && (m =? pno + 1)%nat && (i =? counter + 1)%nat
    then Some (render_page_png page) else cur.
Proof.
  unfold page_events. cbn [app content_after file_eqb].
  destruct (formula_bearing U page); cbn [app content_after file_eqb andb];
    [|reflexivity].
  destruct ((m =? pno + 1)%nat && (i =? counter + 1)%nat); now destruct cur.
Qed.

Lemma content_page_image (pages : list Page) :
  forall m counter pno cur,
    content_after (PageImage m) cur (pages_events U counter pno pages)
    = if (pno + 1 <=? m)%nat
      then match nth_error pages (m - (pno + 1)) with
           | Some page => Some (render_page_png page)
           | None => cur
           end
      else cur.
Proof.
  induction pages as [|page rest IH]; intros m counter pno cur; cbn [pages_events].
  - cbn [content_after]. destruct (pno + 1 <=? m)%nat; [|reflexivity].
    now destruct (m - (pno + 1))%nat.
  - rewrite content_after_app, content_page_image_step, IH.
    destruct (m =? pno + 1)%nat eqn:E1.
    + apply Nat.eqb_eq in E1. subst m.
      replace (S pno + 1 <=? pno + 1)%nat with false by (symmetry; apply Nat.leb_gt; lia).
      rewrite Nat.leb_refl, Nat.sub_diag. reflexivity.
    + apply Nat.eqb_neq in E1.
      destruct (pno + 1 <=? m)%nat eqn:E2.
      * apply Nat.leb_le in E2.
        replace (S pno + 1 <=? m)%nat with true by (symmetry; apply Nat.leb_le; lia).
        replace (m - (pno + 1))%nat with (S (m - (S pno + 1))) by lia.
        reflexivity.
      * apply Nat.leb_gt in E2.
        now replace (S pno + 1 <=? m)%nat with false by (symmetry; apply Nat.leb_gt; lia).
Qed.

Lemma file_eqb_eq (f g : file) : file_eqb f g = true -> f = g.
Proof.
  destruct f as [n|n i|], g as [m|m j|]; cbn [file_eqb]; try discriminate.
  - intros H. apply Nat.eqb_eq in H. now subst.
  - intros H. apply andb_true_iff in H as [H1 H2].
    apply Nat.eqb_eq in H1, H2. now subst.
  - reflexivity.
Qed.

(** Events on another file leave the content of a file as it is. *)
Lemma content_after_other (f o : file) (cur : option (list Byte.byte)) (tr : list event) :
  file_eqb f o = false ->
  forallb (fun e => file_eqb o (event_file e)) tr = true ->
  content_after f cur tr = cur.
Proof.
  intros Hf. revert cur. induction tr as [|e tr IH]; intros cur H; [reflexivity|].
  cbn [forallb] in H. apply andb_true_iff in H as [He Htr].
  apply file_eqb_eq in He.
  destruct e as [g|g d]; cbn [event_file] in He; subst g;
    cbn [content_after]; rewrite Hf; now apply IH.
Qed.

(** The events of a run: those of the page loop, and then those on the
    output text file. *)
Lemma final_trace (pdf : list Page) :
  exists tail,
    trace (final_state (main U h pdf)) = pages_events U 0 0 pdf ++ tail
    /\ forallb (fun e => file_eqb (out_txt h) (event_file e)) tail = true.
Proof.
  unfold main, write_output.
  destruct (text_mode_bytes _ _) as [data|];
    cbn [final_state with_trace trace]; rewrite process_pages_trace;
    cbn [initial_state trace formula_counter app];
    eexists; (split; [reflexivity|]);
    cbn [forallb event_file]; now rewrite file_eqb_refl.
Qed.

(** X13: when the run ends, with or without an exception at the writing of
    the output, the image file of page [k + 1] holds the rendering of the
    page of index [k], for each page of the document, and there is no page
    image with another number; this for every page image whose path is not
    the path of the output text file. *)
Theorem page_images_written (pdf : list Page) (m : nat) :
  file_eqb (PageImage m) (out_txt h) = false ->
  file_content (PageImage m) (trace (final_state (main U h pdf)))
  = match m with
    | O => None
    | S k => option_map render_page_png (nth_error pdf k)
    end.
Proof.
  intros Hm. destruct (final_trace pdf) as (tail & -> & Ht).
  unfold file_content. rewrite content_after_app, content_page_image.
  rewrite (content_after_other (PageImage m) (out_txt h) _ tail Hm Ht).
  destruct m as [|k]; [reflexivity|].
  cbn [Nat.add Nat.leb Nat.sub]. rewrite Nat.sub_0_r.
  now destruct (nth_error pdf k).
Qed.

End Files.

(** The image of the second page of two, on a host on which the output text
    file is no image file: the hypothesis of X13 holds. *)
Lemma page_images_written_witness :
  file_content (PageImage 2)
    (trace (final_state (main ascii_only_db posix_host [page_plain; page_formula])))
  = Some png_bytes.
Proof.
  apply (page_images_written ascii_only_db posix_host [page_plain; page_formula] 2).
  reflexivity.
Defined.

(** When the output text path is the image file of the first page, that
    file holds the text at the end of the run, not the image. *)
Example out_txt_over_page_image :
  render_page_png page_formula = png_bytes
  /\ file_content (PageImage 1)
       (trace (final_state (main ascii_only_db colliding_host [page_formula])))
     = Some (map byte_of
               [69; 32; 61; 32; 109; 32; 99; 94; 50; 32; 104; 111; 108; 100; 115;
                10; 10; 60; 102; 111; 114; 109; 117; 108; 97; 62]).
Proof. split; vm_compute; reflexivity. Qed.

(** ** The formula records and their image files *)

Section Records.

Variable U : unicode_db.
Variable h : host.

Lemma flagged_before_O (pages : list Page) : flagged_before U 0 pages = 0%nat.
Proof. reflexivity. Qed.

Lemma flagged_before_S (k : nat) (page : Page) (rest : list Page) :
  flagged_before U (S k) (page :: rest)
  = ((if formula_bearing U page then 1 else 0) + flagged_before U k rest)%nat.
Proof.
  unfold flagged_before. cbn [firstn filter].
  now destruct (formula_bearing U page).
Qed.

Lemma content_formula_image (pages : list Page) :
  forall m i counter pno cur,
    content_after (FormulaImage m i) cur (pages_events U counter pno pages)
    = if (pno + 1 <=? m)%nat
      then match nth_error pages (m - (pno + 1)) with
           | Some page =>
               if formula_bearing U page
                  && (i =? counter + flagged_before U (m - (pno + 1)) pages + 1)%nat
               then Some (render_page_png page) else cur
           | None => cur
           end
      else cur.
Proof.
  induction pages as [|page rest IH]; intros m i counter pno cur; cbn [pages_events].
  - cbn [content_after]. destruct (pno + 1 <=? m)%nat; [|reflexivity].
    now destruct (m - (pno + 1))%nat.
  - rewrite content_after_app, content_formula_image_step, IH.
    destruct (m =? pno + 1)%nat eqn:E1.
    + apply Nat.eqb_eq in E1. subst m.
      replace (S pno + 1 <=? pno + 1)%nat with false by (symmetry; apply Nat.leb_gt; lia).
      rewrite Nat.leb_refl, Nat.sub_diag. cbn [nth_error].
      rewrite flagged_before_O, Nat.add_0_r, andb_true_r. reflexivity.
    + rewrite andb_false_r. cbn [andb]. apply Nat.eqb_neq in E1.
      destruct (pno + 1 <=? m)%nat eqn:E2.
      * apply Nat.leb_le in E2.
        replace (S pno + 1 <=? m)%nat with true by (symmetry; apply Nat.leb_le; lia).
        replace (m - (pno + 1))%nat with (S (m - (S pno + 1))) by lia.
        cbn [nth_error]. rewrite flagged_before_S.
        destruct (nth_error rest (m - (S pno + 1))); [|reflexivity].
        now rewrite !Nat.add_assoc.
      * apply Nat.leb_gt in E2.
        now replace (S pno + 1 <=? m)%nat with false by (symmetry; apply Nat.leb_gt; lia).
Qed.

Lemma process_pages_records (pages : list Page) :
  forall st pno,
    formula_records (process_pages U st pno pages)
    = formula_records st ++ records_of U (formula_counter st) pno pages.
Proof.
  induction pages as [|page rest IH]; intros st pno; cbn [process_pages records_of].
  - now rewrite app_nil_r.
  - rewrite IH, process_page_records, process_page_counter, <- app_assoc. reflexivity.
Qed.

Lemma records_of_In (pages : list Page) :
  forall counter pno r,
    In r (records_of U counter pno pages) ->
    exists k page,
      nth_error pages k = Some page /\ formula_bearing U page = true
      /\ r = page_record U (counter + flagged_before U k pages) (pno + k) page.
Proof.
  induction pages as [|page rest IH]; intros counter pno r H; [destruct H|].
  cbn [records_of] in H. apply in_app_or in H as [H|H].
  - destruct (formula_bearing U page) eqn:E; [|destruct H].
    destruct H as [<-|[]]. exists 0%nat, page.
    rewrite flagged_before_O, !Nat.add_0_r. now split.
  - apply IH in H as (k & pg & Hk & Hf & ->). exists (S k), pg.
    rewrite flagged_before_S. split; [exact Hk|]. split; [exact Hf|].
    f_equal; lia.
Qed.

Lemma final_state_records (pdf : list Page) :
  formula_records (final_state (main U h pdf)) = records_of U 0 0 pdf.
Proof. now rewrite main_records, process_pages_records. Qed.

Lemma is_image_other (f o : file) : is_image f = true -> is_image o = false -> file_eqb f o = false.
Proof. destruct f, o; try discriminate; reflexivity. Qed.

(** X14: when the output text file is none of the image files, every
    Formula Record is the record of a formula-bearing page of the document:
    its page number is that page's, its id is the number of formula-bearing
    pages up to that page, its image file is named by the two, and holds the
    rendering of that page when the run ends; its OCR text and its lines are
    that page's. *)
Theorem formula_records_of_pages (pdf : list Page) :
  is_image (out_txt h) = false ->
  Forall (record_of_page U pdf (trace (final_state (main U h pdf))))
         (formula_records (final_state (main U h pdf))).
Proof.
  intros Ho. apply Forall_forall. intros r Hr. rewrite final_state_records in Hr.
  apply records_of_In in Hr as (k & page & Hk & Hf & ->).
  exists k, page. cbn [page_record rec_page rec_id rec_imgfile rec_ocr rec_lines Nat.add].
  split; [exact Hk|]. split; [exact Hf|].
  split; [lia|]. split; [lia|]. split; [reflexivity|]. split; [reflexivity|].
  split; [reflexivity|].
  destruct (final_trace U h pdf) as (tail & -> & Ht).
  unfold file_content. rewrite content_after_app, content_formula_image.
  rewrite (content_after_other (FormulaImage (k + 1) (flagged_before U k pdf + 1))
             (out_txt h) _ tail
             (is_image_other (FormulaImage (k + 1) (flagged_before U k pdf + 1))
                             (out_txt h) eq_refl Ho) Ht).
  cbn [Nat.add]. replace (1 <=? k + 1)%nat with true by (symmetry; apply Nat.leb_le; lia).
  replace (k + 1 - 1)%nat with k by lia.
  now rewrite Hk, Hf, Nat.eqb_refl.
Qed.

Lemma utf8_encode_app (a b : str) :
  utf8_encode (a ++ b)
  = match utf8_encode a, utf8_encode b with
    | Some x, Some y => Some (x ++ y)
    | _, _ => None
    end.
Proof.
  induction a as [|c a IH]; cbn [app utf8_encode].
  - now destruct (utf8_encode b).
  - rewrite IH. destruct (utf8_char c), (utf8_encode a), (utf8_encode b);
      try reflexivity. now rewrite app_assoc.
Qed.

(** A text that cannot be encoded cannot be encoded either when its line
    feeds are written as another line separator. *)
Lemma text_mode_bytes_None (sep s : str) :
  utf8_encode s = None -> text_mode_bytes sep s = None.
Proof.
  unfold text_mode_bytes, py_replace. induction s as [|c s IH]; [discriminate|].
  cbn [utf8_encode replace_from startswith length Nat.sub]. rewrite andb_true_r.
  destruct (NL =? c) eqn:E.
  - apply N.eqb_eq in E. subst c. change (utf8_char NL) with (Some [byte_of NL]).
    intros H. rewrite utf8_encode_app, IH; [now destruct (utf8_encode sep)|].
    now destruct (utf8_encode s).
  - cbn [utf8_encode]. destruct (utf8_char c); [|reflexivity].
    intros H. rewrite IH; [reflexivity|]. now destruct (utf8_encode s).
Qed.

(** X15: when the text to write cannot be encoded, the run ends with an
    exception after the page loop, and leaves the output text file opened
    and empty. *)
Theorem output_not_encodable (pdf : list Page) :
  let st := process_pages U initial_state 0 pdf in
  utf8_encode (join [NL; NL] (filter (@nonempty cp) (collected_segments st))) = None ->
  main U h pdf = Raised (with_trace st (trace st ++ [Open (out_txt h)]))
  /\ file_content (out_txt h) (trace (final_state (main U h pdf))) = Some [].
Proof.
  cbv zeta. intros H.
  assert (Hm : main U h pdf
               = Raised (with_trace (process_pages U initial_state 0 pdf)
                           (trace (process_pages U initial_state 0 pdf)
                              ++ [Open (out_txt h)]))).
  { unfold main, write_output, output_text. now rewrite (text_mode_bytes_None _ _ H). }
  split; [exact Hm|]. rewrite Hm. cbn [final_state with_trace trace].
  unfold file_content. rewrite content_after_app. cbn [content_after].
  now rewrite file_eqb_refl.
Qed.

End Records.

(** A page with a formula, on a host on which the output text file is no
    image file: the hypothesis of X14 holds, and the record of the page is
    the record of a page of the document. *)
Lemma formula_records_of_pages_witness :
  record_of_page ascii_only_db [page_formula]
    (trace (final_state (main ascii_only_db posix_host [page_formula])))
    {| rec_id := 1; rec_page := 1; rec_imgfile := FormulaImage 1 1;
       rec_ocr := []; rec_lines := [(1%nat, lit "E = m c^2 holds")] |}.
Proof.
  exact (Forall_inv (formula_records_of_pages ascii_only_db posix_host [page_formula]
                       eq_refl)).
Defined.

(** A page with a lone surrogate, on a host whose line separator is a
    carriage return and a line feed: the hypothesis of X15 holds. *)
Lemma output_not_encodable_witness :
  utf8_encode (join [NL; NL]
                 (filter (@nonempty cp)
                    (collected_segments
                       (process_pages ascii_only_db initial_state 0 [page_surrogate]))))
  = None
  /\ file_content (out_txt crlf_host)
       (trace (final_state (main ascii_only_db crlf_host [page_surrogate])))
     = Some [].
Proof.
  split; [vm_compute; reflexivity|].
  apply (output_not_encodable ascii_only_db crlf_host [page_surrogate]).
  vm_compute. reflexivity.
Defined.

(** ** The article-metadata remover when there is an abstract *)

Section AbstractFound.

Variable U : unicode_db.

(** One line above the abstract, while the title is collected. *)
Lemma scan_line_title (sc : scan) (line : str) :
  found_abstract sc = false -> skip_until_abstract sc = false ->
  collecting_title sc = true -> has_abstract U line = false ->
  found_abstract (scan_line U sc line) = false
  /\ cleaned_lines (scan_line U sc line) = cleaned_lines sc
  /\ (if is_section_heading U line
      then skip_until_abstract (scan_line U sc line) = true
           /\ title_lines (scan_line U sc line) = title_lines sc
      else skip_until_abstract (scan_line U sc line) = false
           /\ collecting_title (scan_line U sc line) = true
           /\ title_lines (scan_line U sc line)
              = title_lines sc ++ (if title_ok U line then [line] else [])).
Proof.
  destruct sc as [cl tl f sk ct]. cbn [found_abstract skip_until_abstract collecting_title].
  intros -> -> -> H.
  unfold scan_line, has_abstract, is_section_heading, title_ok, nonblank in *.
  cbv zeta. cbn [found_abstract skip_until_abstract collecting_title cleaned_lines title_lines].
  rewrite H. cbn [andb negb].
  destruct (contains_any section_keywords _); [now cbn|].
  destruct (py_strip line) as [|c s]; [cbn; now rewrite app_nil_r|].
  destruct (contains_any metadata_cues _); cbn [andb negb];
    [cbn; now rewrite app_nil_r|].
  destruct (is_some _); cbn; now rewrite ?app_nil_r.
Qed.

(** One line above the abstract, after a metadata section has opened. *)
Lemma scan_line_skipping (sc : scan) (line : str) :
  found_abstract sc = false -> skip_until_abstract sc = true ->
  has_abstract U line = false ->
  found_abstract (scan_line U sc line) = false
  /\ skip_until_abstract (scan_line U sc line) = true
  /\ cleaned_lines (scan_line U sc line) = cleaned_lines sc
  /\ title_lines (scan_line U sc line) = title_lines sc.
Proof.
  destruct sc as [cl tl f sk ct]. cbn [found_abstract skip_until_abstract].
  intros -> -> H. unfold scan_line, has_abstract in *.
  cbv zeta. cbn [found_abstract skip_until_abstract collecting_title cleaned_lines title_lines].
  rewrite H. cbn [andb negb].
  destruct (contains_any section_keywords _); now cbn.
Qed.

(** One line after the abstract. *)
Lemma scan_line_after (sc : scan) (line : str) :
  found_abstract sc = true ->
  found_abstract (scan_line U sc line) = true
  /\ cleaned_lines (scan_line U sc line) = cleaned_lines sc ++ [remove_urls U line].
Proof.
  destruct sc as [cl tl f sk ct]. cbn [found_abstract]. intros ->.
  unfold scan_line. cbv zeta.
  cbn [found_abstract skip_until_abstract collecting_title cleaned_lines title_lines].
  rewrite andb_false_r. cbn [andb negb]. now cbn.
Qed.

(** The line with the abstract marker, the first to have it. *)
Lemma scan_line_abstract (sc : scan) (line : str) :
  found_abstract sc = false -> has_abstract U line = true ->
  found_abstract (scan_line U sc line) = true
  /\ cleaned_lines (scan_line U sc line)
     = (cleaned_lines sc ++ title_block (title_lines sc)) ++ [line].
Proof.
  destruct sc as [cl tl f sk ct]. cbn [found_abstract]. intros -> H.
  unfold scan_line, has_abstract in *. cbv zeta.
  cbn [found_abstract skip_until_abstract collecting_title cleaned_lines title_lines].
  rewrite H. cbn [andb negb]. now cbn.
Qed.

Lemma no_abstract_cons (l : str) (lines : list str) :
  no_abstract_marker U (l :: lines) ->
  has_abstract U l = false /\ no_abstract_marker U lines.
Proof.
  intros H. split; [apply H; now left | intros x Hx; apply H; now right].
Qed.

Lemma scan_skipping (lines : list str) :
  forall sc, found_abstract sc = false -> skip_until_abstract sc = true ->
             no_abstract_marker U lines ->
             found_abstract (fold_left (scan_line U) lines sc) = false
             /\ cleaned_lines (fold_left (scan_line U) lines sc) = cleaned_lines sc
             /\ title_lines (fold_left (scan_line U) lines sc) = title_lines sc.
Proof.
  induction lines as [|l lines IH]; intros sc Hf Hs Hn; [now cbn|].
  apply no_abstract_cons in Hn as [Hl Hn]. cbn [fold_left].
  destruct (scan_line_skipping sc l Hf Hs Hl) as (Hf' & Hs' & Hc' & Ht').
  destruct (IH _ Hf' Hs' Hn) as (H1 & H2 & H3).
  now rewrite H1, H2, H3, Hc', Ht'.
Qed.

Lemma scan_title (lines : list str) :
  forall sc, found_abstract sc = false -> skip_until_abstract sc = false ->
             collecting_title sc = true -> no_abstract_marker U lines ->
             found_abstract (fold_left (scan_line U) lines sc) = false
             /\ cleaned_lines (fold_left (scan_line U) lines sc) = cleaned_lines sc
             /\ title_lines (fold_left (scan_line U) lines sc)
                = title_lines sc ++ title_of U lines.
Proof.
  induction lines as [|l lines IH]; intros sc Hf Hs Hc Hn;
    [cbn; now rewrite app_nil_r|].
  apply no_abstract_cons in Hn as [Hl Hn]. cbn [fold_left title_of].
  destruct (scan_line_title sc l Hf Hs Hc Hl) as (Hf' & Hc' & H).
  destruct (is_section_heading U l).
  - destruct H as [Hs' Ht'].
    destruct (scan_skipping lines _ Hf' Hs' Hn) as (H1 & H2 & H3).
    now rewrite H1, H2, H3, Hc', Ht', app_nil_r.
  - destruct H as (Hs' & Hct' & Ht').
    destruct (IH _ Hf' Hs' Hct' Hn) as (H1 & H2 & H3).
    now rewrite H1, H2, H3, Hc', Ht', app_assoc.
Qed.

Lemma scan_after (lines : list str) :
  forall sc, found_abstract sc = true ->
             found_abstract (fold_left (scan_line U) lines sc) = true
             /\ cleaned_lines (fold_left (scan_line U) lines sc)
                = cleaned_lines sc ++ map (remove_urls U) lines.
Proof.
  induction lines as [|l lines IH]; intros sc Hf; [cbn; now rewrite app_nil_r|].
  cbn [fold_left map]. destruct (scan_line_after sc l Hf) as [Hf' Hc'].
  destruct (IH _ Hf') as [H1 H2]. rewrite H1, H2, Hc', <- app_assoc. now split.
Qed.

(** X16: when a line of the text has the abstract marker, the result is made
    of the title lines above the first such line (the lines that are not
    blank and have no metadata cue and no URL, up to the first line that
    opens a metadata section), a blank line after them when there are any,
    the line with the marker as it is, and every line after it with its URLs
    removed, blank or not. *)
Theorem abstract_found (text : str) (pre : list str) (a : str) (post : list str) :
  split_on NL text = pre ++ a :: post ->
  no_abstract_marker U pre ->
  has_abstract U a = true ->
  clean_article_info_section U text
  = join [NL] (title_block (title_of U pre) ++ a :: map (remove_urls U) post).
Proof.
  intros Hs Hpre Ha. unfold clean_article_info_section.
  destruct text as [|c text].
  - exfalso. cbn [split_on] in Hs. destruct pre as [|x pre].
    + injection Hs as <- _. discriminate Ha.
    + injection Hs as _ Hs. now destruct pre.
  - cbv zeta. rewrite Hs, fold_left_app. cbn [fold_left].
    destruct (scan_title pre scan_init eq_refl eq_refl eq_refl Hpre) as (H1 & H2 & H3).
    destruct (scan_line_abstract _ a H1 Ha) as [H4 H5].
    destruct (scan_after post _ H4) as [H6 H7].
    rewrite H6, H7, H5, H2, H3. cbn [negb scan_init cleaned_lines title_lines app].
    now rewrite <- app_assoc.
Qed.

End AbstractFound.

(** A text with a title, a metadata section and an abstract: the hypotheses
    of X16 hold. *)
Lemma abstract_found_witness :
  clean_article_info_section ascii_only_db sample_abstract_text
  = join [NL] ([lit "A Title"; []; sample_abstract_line;
                lit "We study  here."; []]).
Proof.
  apply (abstract_found ascii_only_db sample_abstract_text sample_abstract_pre
           sample_abstract_line sample_abstract_post).
  - vm_compute. reflexivity.
  - intros line H. cbn [sample_abstract_pre In] in H.
    repeat (destruct H as [<-|H]; [vm_compute; reflexivity|]). destruct H.
  - vm_compute. reflexivity.
Defined.

(** ** The matcher moves forward *)

Section Forward.

Variable U : unicode_db.

Lemma is_suffix_refl (s : str) : is_suffix s s.
Proof. now exists []. Qed.

Lemma is_suffix_trans (a b c : str) : is_suffix a b -> is_suffix b c -> is_suffix a c.
Proof. intros [m ->] [n ->]. exists (n ++ m). now rewrite app_assoc. Qed.

Lemma is_suffix_cons (c : cp) (s : str) : is_suffix s (c :: s).
Proof. now exists [c]. Qed.

Lemma star_loop_forward (a : regex) (k : mstate -> option mstate) :
  (forall st k' x, matches U a st k' = Some x ->
     exists st', is_suffix (m_rest st') (m_rest st) /\ k' st' = Some x) ->
  forall n st x,
    star_loop U a k n st = Some x ->
    exists st', is_suffix (m_rest st') (m_rest st) /\ k st' = Some x.
Proof.
  intros Ha n. induction n as [|n IH]; intros st x H.
  - exists st. split; [apply is_suffix_refl | exact H].
  - rewrite star_loop_S in H.
    destruct (matches U a st _) as [y|] eqn:E.
    + injection H as ->. apply Ha in E as (st1 & Hs1 & E).
      destruct (length (m_rest st1) <? length (m_rest st))%nat; [|discriminate].
      apply IH in E as (st2 & Hs2 & E). exists st2.
      split; [exact (is_suffix_trans _ _ _ Hs2 Hs1) | exact E].
    + exists st. split; [apply is_suffix_refl | exact H].
Qed.

(** What follows a pattern is tried only at the position of the pattern or
    after it. *)
Lemma matches_forward (r : regex) :
  forall st k x,
    matches U r st k = Some x ->
    exists st', is_suffix (m_rest st') (m_rest st) /\ k st' = Some x.
Proof.
  induction r as [|p|a IHa b IHb|a IHa b IHb|a IHa| | | |a IHa]; intros st k x H.
  - exists st. split; [apply is_suffix_refl | exact H].
  - rewrite matches_Chr in H. destruct (m_rest st) as [|c s] eqn:E; [discriminate|].
    destruct (p c); [|discriminate].
    exists (mk_state (Some c) s (m_group st)). split; [apply is_suffix_cons | exact H].
  - rewrite matches_Seq in H. apply IHa in H as (st1 & Hs1 & H).
    apply IHb in H as (st2 & Hs2 & H). exists st2.
    split; [exact (is_suffix_trans _ _ _ Hs2 Hs1) | exact H].
  - rewrite matches_Alt in H. destruct (matches U a st k) as [y|] eqn:E.
    + injection H as ->. now apply IHa in E.
    + now apply IHb in H.
  - rewrite matches_Star_loop in H. exact (star_loop_forward a k IHa _ _ _ H).
  - rewrite matches_Bol in H. destruct (m_prev st); [discriminate|].
    exists st. split; [apply is_suffix_refl | exact H].
  - rewrite matches_Eol in H. exists st. split; [apply is_suffix_refl|].
    destruct (m_rest st) as [|c [|d s]]; [exact H | | discriminate].
    destruct (c =? NL); [exact H | discriminate].
  - rewrite matches_WordB in H. destruct (xorb _ _); [|discriminate].
    exists st. split; [apply is_suffix_refl | exact H].
  - rewrite matches_Group in H. apply IHa in H as (st1 & Hs1 & H).
    eexists. split; [|exact H]. exact Hs1.
Qed.

(** The group of the heading pattern is a piece of the line, at its end or
    before a line feed at its end. *)
Lemma heading_group_piece (line : str) (st : mstate) (g : str) :
  re_match U (NUMERIC_HEADING U) line = Some st -> m_group st = Some g ->
  exists pre tail, line = pre ++ g ++ tail /\ (tail = [] \/ tail = [NL]).
Proof.
  unfold re_match, match_at, NUMERIC_HEADING. intros H Hg.
  rewrite matches_Seq in H. apply matches_forward in H as (st1 & [m1 E1] & H).
  rewrite matches_Seq in H. apply matches_forward in H as (st2 & [m2 E2] & H).
  rewrite matches_Seq in H. apply matches_forward in H as (st3 & [m3 E3] & H).
  rewrite matches_Seq in H. apply matches_forward in H as (st4 & [m4 E4] & H).
  rewrite matches_Seq in H. apply matches_forward in H as (st5 & [m5 E5] & H).
  rewrite matches_Seq, matches_Group in H.
  apply matches_forward in H as (st6 & [m6 E6] & H).
  cbv beta in H. rewrite matches_Eol in H. cbn [mk_state m_rest] in H.
  assert (Hst : m_group st
                = Some (firstn (length (m_rest st5) - length (m_rest st6)) (m_rest st5))
                /\ (m_rest st6 = [] \/ m_rest st6 = [NL])).
  { destruct (m_rest st6) as [|c [|d s]];
      [injection H as <-; split; [reflexivity | now left] | | discriminate].
    destruct (c =? NL) eqn:Ec; [|discriminate].
    apply N.eqb_eq in Ec. subst c. injection H as <-. split; [reflexivity | now right]. }
  destruct Hst as [Hst Htail]. rewrite Hst in Hg. injection Hg as <-.
  cbn [start_state m_rest] in E1.
  exists (m1 ++ m2 ++ m3 ++ m4 ++ m5), (m_rest st6). split; [|exact Htail].
  rewrite E1, E2, E3, E4, E5, E6, length_app.
  replace (length m6 + length (m_rest st6) - length (m_rest st6))%nat
    with (length m6 + 0)%nat by lia.
  rewrite firstn_app_2. cbn [firstn]. rewrite app_nil_r, <- !app_assoc. reflexivity.
Qed.

(** X18: the removal of a heading number gives the line back as it is, or a
    piece of it: the line is some text that is not empty, then the result,
    which starts with an ASCII letter, and then nothing or one line feed. *)
Theorem heading_result_piece (line : str) :
  remove_numeric_heading_prefix U line = line
  \/ exists pre c g' tail,
       line = pre ++ (c :: g') ++ tail
       /\ remove_numeric_heading_prefix U line = c :: g'
       /\ pre <> [] /\ is_alpha_azAZ c = true
       /\ (tail = [] \/ tail = [NL]).
Proof.
  destruct (re_match U (NUMERIC_HEADING U) line) as [st|] eqn:E.
  - destruct (m_group st) as [g|] eqn:Eg.
    + right.
      destruct (heading_group_piece line st g E Eg) as (pre & tail & El & Ht).
      destruct (heading_group_letter U line st g E Eg) as (c & g' & -> & Hc).
      exists pre, c, g', tail. split; [exact El|].
      split; [exact (heading_match_group U line st _ E Eg)|].
      split; [|now split].
      intros ->. cbn [app] in El. subst line.
      now rewrite (heading_no_match_on_letter U c _ Hc) in E.
    + left. unfold remove_numeric_heading_prefix. destruct line; [reflexivity|].
      now rewrite E, Eg.
  - left. unfold remove_numeric_heading_prefix. destruct line; [reflexivity|].
    now rewrite E.
Qed.

End Forward.

(** ** The lines of a page's cleaned text *)

Section KeptLines.

Variable U : unicode_db.

Lemma forallb_rev_keep (p : cp -> bool) (l : str) :
  forallb p l = true -> forallb p (rev l) = true.
Proof.
  induction l as [|c l IH]; [reflexivity|]. cbn [forallb rev].
  intros H. apply andb_true_iff in H as [Hc Hl].
  rewrite forallb_app, (IH Hl). cbn [forallb]. now rewrite Hc.
Qed.

Lemma forallb_drop_while (p q : cp -> bool) (s : str) :
  forallb p s = true -> forallb p (drop_while q s) = true.
Proof.
  induction s as [|c s IH]; [reflexivity|]. cbn [forallb drop_while].
  intros H. destruct (q c); [|exact H].
  apply andb_true_iff in H as [_ H]. now apply IH.
Qed.

Lemma forallb_rstrip (p : cp -> bool) (s : str) :
  forallb p s = true -> forallb p (py_rstrip s) = true.
Proof.
  intros H. unfold py_rstrip, rstrip_by.
  now apply forallb_rev_keep, forallb_drop_while, forallb_rev_keep.
Qed.

Lemma forallb_heading (p : cp -> bool) (line : str) :
  forallb p line = true -> forallb p (remove_numeric_heading_prefix U line) = true.
Proof.
  intros H. unfold remove_numeric_heading_prefix.
  destruct line as [|c line]; [reflexivity|].
  destruct (re_match U (NUMERIC_HEADING U) (c :: line)) as [st|] eqn:E; [|exact H].
  destruct (m_group st) as [g|] eqn:Eg; [|exact H].
  destruct (heading_group_piece U _ _ _ E Eg) as (pre & tail & E' & _).
  rewrite E' in H. now apply forallb_app_r, forallb_app_l in H.
Qed.

(** What every replacement keeps, the substitution keeps. *)
Lemma sub_from_forallb (r : regex) (repl : str -> str) (p : cp -> bool) :
  (forall m, forallb p m = true -> forallb p (repl m) = true) ->
  forall s prev, forallb p s = true -> forallb p (sub_from U r repl 0 prev s) = true.
Proof.
  intros Hr s. remember (length s) as n eqn:Hn.
  revert s Hn. induction n as [n IH] using lt_wf_ind. intros s Hn prev H.
  rewrite sub_from_step.
  destruct (match_length U r prev s) as [k|] eqn:E.
  - pose proof (match_length_bounds U r prev s k E) as Hb.
    rewrite <- (firstn_skipn k s) in H. rewrite forallb_app in H.
    apply andb_true_iff in H as [H1 H2].
    rewrite forallb_app, (Hr _ H1).
    rewrite (IH (length (skipn k s))); [reflexivity | | reflexivity | exact H2].
    subst n. rewrite length_skipn. lia.
  - destruct s as [|c s]; [reflexivity|]. cbn [forallb] in *.
    apply andb_true_iff in H as [Hc Hs]. rewrite Hc.
    rewrite (IH (length s)); [reflexivity | subst n; simpl; lia | reflexivity | exact Hs].
Qed.

Lemma forallb_collapse (p : cp -> bool) (s : str) :
  forallb p s = true -> forallb p (collapse_spaced_capital_sequences U s) = true.
Proof.
  intros H. rewrite collapse_spaced_from. unfold spaced_from.
  apply sub_from_forallb; [|exact H].
  intros m Hm. rewrite drop_spaces_filter. now apply forallb_filter_keep.
Qed.

Lemma forallb_remove_chinese (p : cp -> bool) (s : str) :
  forallb p s = true -> forallb p (remove_chinese_characters U s) = true.
Proof.
  intros H. rewrite remove_chinese_characters_filter. now apply forallb_filter_keep.
Qed.

(** A kept line is not blank, and has no line boundary if the raw line has
    none. *)
Lemma clean_line_kept (raw x : str) :
  clean_line U raw = Some x ->
  nonblank x = true /\ (no_linebreak raw = true -> no_linebreak x = true).
Proof.
  unfold clean_line. cbv zeta.
  destruct (should_drop_line U (py_rstrip raw)); [discriminate|].
  set (l2 := collapse_spaced_capital_sequences U
               (remove_numeric_heading_prefix U (py_rstrip raw))).
  assert (Hl2 : no_linebreak raw = true -> no_linebreak l2 = true).
  { intros H. now apply forallb_collapse, forallb_heading, forallb_rstrip. }
  destruct (is_some (re_search U CHINESE_CHAR_PATTERN l2)).
  - destruct (py_strip (remove_chinese_characters U l2)) as [|c s] eqn:E; [discriminate|].
    intros H. injection H as <-. split.
    + unfold nonblank. now rewrite E.
    + intros H. now apply forallb_remove_chinese, Hl2.
  - destruct (py_strip l2) as [|c s] eqn:E; [discriminate|].
    intros H. injection H as <-. split; [|exact Hl2].
    unfold nonblank. now rewrite E.
Qed.

Lemma splitlines_no_linebreak (n : nat) :
  forall s, (length s <= n)%nat ->
            Forall (fun l => no_linebreak l = true) (splitlines s).
Proof.
  induction n as [|n IH]; intros s Hn.
  - destruct s; [constructor | simpl in Hn; lia].
  - destruct s as [|c s]; [constructor|]. cbn [length] in Hn. cbn [splitlines].
    destruct (is_linebreak c) eqn:Ec.
    + destruct s as [|c' s']; [repeat constructor|].
      cbn [length] in Hn.
      destruct ((c =? CR) && (c' =? NL)); constructor; try reflexivity;
        apply IH; cbn [length]; lia.
    + pose proof (IH s ltac:(lia)) as H.
      destruct (splitlines s) as [|x l].
      * repeat constructor. unfold no_linebreak. cbn [forallb]. now rewrite Ec.
      * inversion H as [|? ? Hx Hl]; subst. constructor; [|exact Hl].
        unfold no_linebreak in *. cbn [forallb]. now rewrite Ec, Hx.
Qed.

Lemma keep_lines_kept (raw_lines : list str) :
  Forall (fun l => no_linebreak l = true) raw_lines ->
  Forall (fun l => nonblank l = true /\ no_linebreak l = true) (keep_lines U raw_lines).
Proof.
  induction raw_lines as [|l rest IH]; intros H; [constructor|].
  inversion H as [|? ? Hl Hrest]; subst. cbn [keep_lines].
  destruct (clean_line U l) as [x|] eqn:E; [|now apply IH].
  destruct (clean_line_kept l x E) as [H1 H2].
  constructor; [split; [exact H1 | now apply H2] | now apply IH].
Qed.

Lemma nonblank_not_nil (l : str) : nonblank l = true -> l <> [].
Proof. intros H ->. discriminate H. Qed.

Lemma splitlines_line (x : str) :
  no_linebreak x = true -> x <> [] -> splitlines x = [x].
Proof.
  induction x as [|c x IH]; intros H Hx; [congruence|].
  unfold no_linebreak in *. cbn [forallb] in H. apply andb_true_iff in H as [Hc H].
  apply negb_true_iff in Hc. cbn [splitlines]. rewrite Hc.
  destruct x as [|d x]; [reflexivity|].
  now rewrite (IH H ltac:(discriminate)).
Qed.

Lemma splitlines_line_app (x t : str) :
  no_linebreak x = true -> t <> [] -> splitlines (x ++ NL :: t) = x :: splitlines t.
Proof.
  intros H Ht. induction x as [|c x IH].
  - cbn [app splitlines]. change (is_linebreak NL) with true. cbv iota.
    destruct t as [|c' s']; [congruence|]. reflexivity.
  - unfold no_linebreak in *. cbn [forallb] in H. apply andb_true_iff in H as [Hc H].
    apply negb_true_iff in Hc. cbn [app splitlines]. rewrite Hc.
    now rewrite (IH H).
Qed.

Lemma join_cons2 (sep x y : str) (l : list str) :
  join sep (x :: y :: l) = x ++ sep ++ join sep (y :: l).
Proof. reflexivity. Qed.

Lemma join_not_nil (sep x : str) (l : list str) : x <> [] -> join sep (x :: l) <> [].
Proof.
  intros Hx. destruct l as [|y l]; [exact Hx|]. rewrite join_cons2.
  destruct x; [congruence | discriminate].
Qed.

(** Lines without line boundaries, none of them empty, are the lines of
    their join. *)
Lemma splitlines_join (ls : list str) :
  Forall (fun l => nonblank l = true /\ no_linebreak l = true) ls ->
  splitlines (join [NL] ls) = ls.
Proof.
  induction ls as [|x ls IH]; intros H; [reflexivity|].
  inversion H as [|? ? [Hx1 Hx2] Hls]; subst.
  destruct ls as [|y ls].
  - apply splitlines_line; [exact Hx2 | now apply nonblank_not_nil].
  - rewrite join_cons2. cbn [app]. rewrite splitlines_line_app; [| exact Hx2 |].
    + now rewrite (IH Hls).
    + inversion Hls as [|? ? [Hy _] _]; subst.
      now apply join_not_nil, nonblank_not_nil.
Qed.

Lemma forallb_hd (q : cp -> bool) (s : str) :
  forallb q s = true ->
  match hd_error s with Some c => q c = true | None => True end.
Proof.
  destruct s as [|c s]; [intros _; exact I|]. cbn [forallb hd_error].
  intros H. now apply andb_true_iff in H as [H _].
Qed.

Lemma not_linebreak_not_NL (c : cp) : negb (is_linebreak c) = true -> (NL =? c) = false.
Proof. intros H. apply negb_true_iff in H. classes. Qed.

Lemma hd_not_NL (s : str) :
  no_linebreak s = true ->
  match hd_error s with Some c => (NL =? c) = false | None => True end.
Proof.
  intros H. apply forallb_hd in H. destruct (hd_error s); [|exact I].
  now apply not_linebreak_not_NL.
Qed.

Lemma hd_error_app (a b : str) : a <> [] -> hd_error (a ++ b) = hd_error a.
Proof. destruct a; [congruence | reflexivity]. Qed.

(** The join of such lines neither starts nor ends with a line feed. *)
Lemma join_ends (ls : list str) :
  Forall (fun l => nonblank l = true /\ no_linebreak l = true) ls ->
  match hd_error (join [NL] ls) with Some c => (NL =? c) = false | None => True end
  /\ match hd_error (rev (join [NL] ls)) with
     | Some c => (NL =? c) = false | None => True end.
Proof.
  induction ls as [|x ls IH]; intros H; [now split|].
  inversion H as [|? ? [Hx1 Hx2] Hls]; subst.
  pose proof (nonblank_not_nil x Hx1) as Hx.
  destruct ls as [|y ls].
  - split; [now apply hd_not_NL|].
    apply hd_not_NL. now apply forallb_rev_keep.
  - rewrite join_cons2. split.
    + rewrite hd_error_app by exact Hx. now apply hd_not_NL.
    + rewrite rev_app_distr, rev_app_distr, <- app_assoc.
      rewrite hd_error_app; [exact (proj2 (IH Hls))|].
      inversion Hls as [|? ? [Hy _] _]; subst.
      intros E. apply (f_equal (@rev cp)) in E. rewrite rev_involutive in E.
      now apply (join_not_nil [NL] y ls (nonblank_not_nil y Hy)).
Qed.

Lemma strip_by_fixed (p : cp -> bool) (s : str) :
  match hd_error s with Some c => p c = false | None => True end ->
  match hd_error (rev s) with Some c => p c = false | None => True end ->
  strip_by p s = s.
Proof.
  intros H1 H2. unfold strip_by, lstrip_by, rstrip_by.
  now rewrite (drop_while_fixed p s H1), (drop_while_fixed p (rev s) H2), rev_involutive.
Qed.

(** The kept lines of a text are not blank and have no line boundary. *)
Lemma kept_lines_of_text (repaired : str) :
  Forall (fun l => nonblank l = true /\ no_linebreak l = true)
         (keep_lines U (splitlines repaired)).
Proof.
  apply keep_lines_kept.
  exact (splitlines_no_linebreak (length repaired) repaired (le_n _)).
Qed.

(** The stripping of line feeds from the ends of the join removes nothing. *)
Lemma filtered_page_text_join (repaired : str) :
  filtered_page_text U repaired = join [NL] (keep_lines U (splitlines repaired)).
Proof.
  unfold filtered_page_text, strip_newlines.
  destruct (join_ends _ (kept_lines_of_text repaired)) as [H1 H2].
  now apply strip_by_fixed.
Qed.

Lemma filtered_page_text_lines (repaired : str) :
  splitlines (filtered_page_text U repaired) = keep_lines U (splitlines repaired).
Proof.
  rewrite filtered_page_text_join. apply splitlines_join, kept_lines_of_text.
Qed.

(** X17: the cleaned text of a page is the kept lines joined by line feeds,
    the stripping of line feeds from its ends removing nothing; its lines,
    which the third formula signal numbers, are the kept lines again; and no
    kept line is blank or has a line boundary in it. *)
Theorem page_text_lines (repaired : str) :
  let kept := keep_lines U (splitlines repaired) in
  filtered_page_text U repaired = join [NL] kept
  /\ splitlines (filtered_page_text U repaired) = kept
  /\ Forall (fun l => nonblank l = true /\ no_linebreak l = true) kept.
Proof.
  cbv zeta. split; [|split].
  - apply filtered_page_text_join.
  - apply filtered_page_text_lines.
  - apply kept_lines_of_text.
Qed.

End KeptLines.

(** ** Chinese characters after the page loop *)

Section NoChinese.

Variable U : unicode_db.

Lemma forallb_negb_existsb (p : cp -> bool) (s : str) :
  forallb (fun c => negb (p c)) s = true -> existsb p s = false.
Proof.
  induction s as [|c s IH]; [reflexivity|]. cbn [forallb existsb].
  intros H. apply andb_true_iff in H as [Hc Hs]. apply negb_true_iff in Hc.
  now rewrite Hc, IH.
Qed.

Lemma filter_forallb (p : cp -> bool) (s : str) : forallb p (filter p s) = true.
Proof.
  induction s as [|c s IH]; [reflexivity|]. cbn [filter].
  destruct (p c) eqn:E; [|exact IH]. cbn [forallb]. now rewrite E, IH.
Qed.

Lemma forallb_py_replace (p : cp -> bool) (old new s : str) :
  old <> [] -> forallb p new = true -> forallb p s = true ->
  forallb p (py_replace old new s) = true.
Proof.
  intros Ho Hn Hs. rewrite (py_replace_sub U old new s Ho). unfold re_sub.
  apply sub_from_forallb; [|exact Hs]. intros _ _. exact Hn.
Qed.

Lemma forallb_strip_by (p q : cp -> bool) (s : str) :
  forallb p s = true -> forallb p (strip_by q s) = true.
Proof.
  intros H. unfold strip_by, rstrip_by, lstrip_by.
  now apply forallb_rev_keep, forallb_drop_while, forallb_rev_keep, forallb_drop_while.
Qed.

Lemma forallb_join (p : cp -> bool) (sep : str) (ls : list str) :
  forallb p sep = true -> Forall (fun l => forallb p l = true) ls ->
  forallb p (join sep ls) = true.
Proof.
  intros Hsep H. induction ls as [|x ls IH]; [reflexivity|].
  inversion H as [|? ? Hx Hls]; subst. destruct ls as [|y ls]; [exact Hx|].
  rewrite join_cons2, !forallb_app, Hx, Hsep. cbn [andb]. now apply IH.
Qed.

Lemma splitlines_forallb (p : cp -> bool) (n : nat) :
  forall s, (length s <= n)%nat -> forallb p s = true ->
            Forall (fun l => forallb p l = true) (splitlines s).
Proof.
  induction n as [|n IH]; intros s Hn Hs.
  - destruct s; [constructor | simpl in Hn; lia].
  - destruct s as [|c s]; [constructor|]. cbn [length] in Hn. cbn [splitlines].
    cbn [forallb] in Hs. apply andb_true_iff in Hs as [Hc Hs].
    destruct (is_linebreak c).
    + destruct s as [|c' s']; [repeat constructor|].
      cbn [length] in Hn. pose proof Hs as Hs'. cbn [forallb] in Hs'.
      apply andb_true_iff in Hs' as [_ Hs'].
      destruct ((c =? CR) && (c' =? NL)); constructor; try reflexivity;
        apply IH; cbn [length]; try lia; assumption.
    + pose proof (IH s ltac:(lia) Hs) as H.
      destruct (splitlines s) as [|x l].
      * repeat constructor. cbn [forallb]. now rewrite Hc.
      * inversion H as [|? ? Hx Hl]; subst. constructor; [|exact Hl].
        cbn [forallb]. now rewrite Hc, Hx.
Qed.

Lemma line_at_search_forallb (p : cp -> bool) (raw : str) :
  forallb p raw = true -> forallb p (line_at_search U raw) = true.
Proof.
  intros H. unfold line_at_search.
  now apply forallb_collapse, forallb_heading, forallb_rstrip.
Qed.

Lemma clean_line_forallb (p : cp -> bool) (raw x : str) :
  clean_line U raw = Some x -> forallb p raw = true -> forallb p x = true.
Proof.
  unfold clean_line. cbv zeta. fold (line_at_search U raw).
  destruct (should_drop_line U (py_rstrip raw)); [discriminate|].
  intros H Hp. pose proof (line_at_search_forallb p raw Hp) as Hl.
  destruct (is_some (re_search U CHINESE_CHAR_PATTERN (line_at_search U raw))).
  - destruct (py_strip _); [discriminate|]. injection H as <-.
    now apply forallb_remove_chinese.
  - destruct (py_strip _); [discriminate|]. now injection H as <-.
Qed.

Lemma keep_lines_forallb (p : cp -> bool) (raw_lines : list str) :
  Forall (fun l => forallb p l = true) raw_lines ->
  Forall (fun l => forallb p l = true) (keep_lines U raw_lines).
Proof.
  induction raw_lines as [|l rest IH]; intros H; [constructor|].
  inversion H as [|? ? Hl Hrest]; subst. cbn [keep_lines].
  destruct (clean_line U l) as [x|] eqn:E; [|now apply IH].
  constructor; [exact (clean_line_forallb p l x E Hl) | now apply IH].
Qed.

Lemma filtered_page_text_forallb (p : cp -> bool) (repaired : str) :
  p NL = true -> forallb p repaired = true ->
  forallb p (filtered_page_text U repaired) = true.
Proof.
  intros Hnl H. unfold filtered_page_text, strip_newlines.
  apply forallb_strip_by, forallb_join; [cbn [forallb]; now rewrite Hnl|].
  apply keep_lines_forallb.
  exact (splitlines_forallb p (length repaired) repaired (le_n _) H).
Qed.

Lemma repaired_page_text_no_cjk (raw : str) : no_cjk (repaired_page_text U raw) = true.
Proof.
  unfold repaired_page_text, no_cjk. cbv zeta.
  apply forallb_py_replace; [discriminate | reflexivity |].
  apply forallb_collapse. rewrite remove_chinese_characters_filter.
  apply filter_forallb.
Qed.

(** X19: after the page loop no Chinese character is left: none in the
    cleaned text of a page, none in its OCR transcript; and on no line of the
    page text does the search that guards the second removal, in the loop
    over the lines, find one. *)
Theorem no_chinese_left (page : Page) :
  existsb is_cjk (page_cleaned_text U page) = false
  /\ existsb is_cjk (ocr_transcript U page) = false
  /\ Forall (fun raw_line =>
               re_search U CHINESE_CHAR_PATTERN (line_at_search U raw_line) = None)
            (splitlines (repaired_page_text U (get_text page))).
Proof.
  pose proof (repaired_page_text_no_cjk (get_text page)) as Hr.
  split; [|split].
  - apply forallb_negb_existsb. unfold page_cleaned_text.
    now apply filtered_page_text_forallb.
  - unfold ocr_transcript. rewrite remove_chinese_characters_filter.
    apply existsb_filter_negb.
  - pose proof (splitlines_forallb _ _ _ (le_n _) Hr) as H.
    apply Forall_forall. intros raw Hraw.
    rewrite Forall_forall in H. specialize (H raw Hraw).
    apply (line_at_search_forallb _ raw) in H. apply forallb_negb_existsb in H.
    pose proof (search_Chr U is_cjk (line_at_search U raw) None) as E.
    rewrite H in E. unfold re_search, CHINESE_CHAR_PATTERN.
    now destruct (search_from U (Chr is_cjk) None _).
Qed.


End NoChinese.


(** ** Texts without a URL marker *)

Section UrlMarkers.

Variable U : unicode_db.

Lemma url_rest_marker (s r : str) :
  url_rest s = Some r ->
  startswith (lit "http") s = true \/ startswith (lit "www.") s = true
  \/ startswith (lit "doi") s = true.
Proof.
  intros H. apply url_rest_form in H.
  destruct H as [(s3 & [->| ->] & _)|[(a & s2 & s3 & -> & _)
                                     |[(s3 & -> & _)|(s1 & -> & _)]]].
  - now left.
  - now left.
  - right. now left.
  - right. now right.
  - right. now right.
Qed.

Lemma no_marker_no_url (s x1 x2 : str) :
  has_url_marker s = false -> s = x1 ++ x2 -> url_rest x2 = None.
Proof.
  unfold has_url_marker. intros H ->.
  apply orb_false_iff in H as [H H3]. apply orb_false_iff in H as [H1 H2].
  destruct (url_rest x2) as [r|] eqn:E; [|reflexivity].
  apply url_rest_marker in E as [E|[E|E]];
    apply contains_starts, (contains_suffix _ x1) in E; congruence.
Qed.

(** X21: a text that has none of the markers [http], [www.] and [doi] is
    left as it is by the removal of URLs. *)
Theorem remove_urls_without_marker (text : str) :
  has_url_marker text = false -> remove_urls U text = text.
Proof.
  intros H. rewrite remove_urls_from. unfold urls_from.
  apply sub_from_fixed. intros x1 x2 n E Hn.
  rewrite match_length_url, (no_marker_no_url text x1 x2 H E) in Hn. discriminate.
Qed.

End UrlMarkers.

(** ** The fallback of the article-metadata remover *)

Section Fallback.

Variable U : unicode_db.

Lemma remove_urls_search_None (text : str) :
  re_search U URL_PATTERN (remove_urls U text) = None.
Proof.
  unfold re_search. apply search_no_url. intros x1 x2 H.
  rewrite remove_urls_from in H. exact (urls_from_no_url U text None x1 x2 H).
Qed.

Lemma remove_urls_fixed (text : str) :
  has_url_marker text = false -> remove_urls U text = text.
Proof.
  intros H. rewrite remove_urls_from. unfold urls_from.
  apply sub_from_fixed. intros x1 x2 n E Hn.
  rewrite match_length_url, (no_marker_no_url text x1 x2 H E) in Hn. discriminate.
Qed.

(** C8: when no line of the text has the abstract marker, in any case, the
    result is the lines of the text with their URLs removed, without those
    that are then blank, joined by line feeds.  No line of the result has a
    URL of the pattern left and none is blank; a line that is not blank
    once its URLs are removed is in the result, whatever it says; and a line
    with none of the markers a URL starts with is in the result as it is,
    when it is not blank: no title or metadata line is filtered. *)
Theorem C8_fallback_without_abstract (text : str) :
  no_abstract_marker U (split_on NL text) ->
  let lines := split_on NL text in
  let kept := filter nonblank (map (remove_urls U) lines) in
  clean_article_info_section U text = join [NL] kept
  /\ Forall (fun l => re_search U URL_PATTERN l = None /\ nonblank l = true) kept
  /\ (forall line, In line lines -> nonblank (remove_urls U line) = true ->
                   In (remove_urls U line) kept)
  /\ (forall line, In line lines -> has_url_marker line = false ->
                   nonblank line = true -> In line kept).
Proof.
  intros H lines kept. split; [exact (fallback_result U text H)|].
  split; [|split].
  - apply Forall_forall. intros l Hl. unfold kept in Hl.
    apply filter_In in Hl as [Hl Hb]. apply in_map_iff in Hl as (x & <- & _).
    split; [apply remove_urls_search_None | exact Hb].
  - intros line Hin Hb. unfold kept. apply filter_In.
    split; [now apply in_map | exact Hb].
  - intros line Hin Hm Hb. unfold kept. apply filter_In.
    split; [|exact Hb].
    rewrite <- (remove_urls_fixed line Hm) at 1. now apply in_map.
Qed.

End Fallback.

(** The fallback on a text of four lines: the title stays, the line that is
    only a URL goes, the metadata line stays without its URL, and the blank
    line goes. *)
Lemma C8_fallback_witness :
  no_abstract_marker ascii_only_db (split_on NL sample_article)
  /\ clean_article_info_section ascii_only_db sample_article
     = lit "A Title" ++ [NL] ++ lit "Received: 1 May, see  now".
Proof.
  assert (H : no_abstract_marker ascii_only_db (split_on NL sample_article)).
  { intros line Hin. vm_compute in Hin.
    repeat (destruct Hin as [<-|Hin]; [vm_compute; reflexivity|]). contradiction. }
  split; [exact H|].
  rewrite (proj1 (C8_fallback_without_abstract ascii_only_db sample_article H)).
  vm_compute. reflexivity.
Defined.

(** A sentence without a marker: the hypothesis of X21 holds. *)
Lemma remove_urls_without_marker_witness :
  remove_urls ascii_only_db (lit "See the web page of the journal.")
  = lit "See the web page of the journal.".
Proof.
  apply (remove_urls_without_marker ascii_only_db). reflexivity.
Defined.

(** ** The ends of the kept lines *)

Section LineEnds.

Variable U : unicode_db.

Lemma last_or_rev (s : str) (q : option cp) :
  last_or q s = match hd_error (rev s) with Some c => Some c | None => q end.
Proof.
  revert q. induction s as [|c s IH] using rev_ind; intros q; [reflexivity|].
  rewrite last_or_app, rev_app_distr. reflexivity.
Qed.

Lemma rstrip_no_trailing_space (s : str) : no_trailing_space (py_rstrip s) = true.
Proof.
  unfold no_trailing_space, py_rstrip, rstrip_by. rewrite last_or_rev, rev_involutive.
  pose proof (drop_while_hd py_isspace (rev s)) as H.
  destruct (hd_error (drop_while py_isspace (rev s))); [now rewrite H | reflexivity].
Qed.

Lemma no_linebreak_no_NL (s pre g : str) :
  no_linebreak s = true -> s = pre ++ g ++ [NL] -> False.
Proof.
  intros H ->. unfold no_linebreak in H.
  apply forallb_app_r, forallb_app_r in H. discriminate H.
Qed.

Lemma heading_last (line : str) (q : option cp) :
  no_linebreak line = true ->
  last_or q (remove_numeric_heading_prefix U line) = last_or q line.
Proof.
  intros H. unfold remove_numeric_heading_prefix.
  destruct line as [|a line]; [reflexivity|].
  destruct (re_match U (NUMERIC_HEADING U) (a :: line)) as [st|] eqn:E; [|reflexivity].
  destruct (m_group st) as [g|] eqn:Eg; [|reflexivity].
  destruct (heading_group_piece U _ st g E Eg) as (pre & tail & El & Ht).
  destruct (heading_group_letter U _ st g E Eg) as (c & g' & -> & _).
  destruct Ht as [-> | ->].
  - rewrite El, app_nil_r, last_or_app. reflexivity.
  - exfalso. exact (no_linebreak_no_NL _ pre (c :: g') H El).
Qed.

Lemma collapse_last (s : str) (q : option cp) :
  last_or q (collapse_spaced_capital_sequences U s) = last_or q s.
Proof.
  rewrite collapse_spaced_from. unfold spaced_from. apply sub_from_last.
  intros p t n q' Hn. rewrite match_length_spaced in Hn.
  destruct (spaced_rest U p t) as [r|] eqn:E; [|discriminate].
  cbn [option_map] in Hn. injection Hn as <-.
  apply spaced_rest_shape in E as (L & M & -> & _ & [_ He] & _).
  rewrite length_app.
  replace (length (L :: M) + length r - length r)%nat
    with (length (L :: M) + 0)%nat by lia.
  rewrite firstn_app_2. cbn [firstn]. rewrite app_nil_r.
  now apply drop_spaces_last.
Qed.

Lemma no_trailing_space_last (a b : str) :
  last_or None a = last_or None b -> no_trailing_space a = no_trailing_space b.
Proof. unfold no_trailing_space. now intros ->. Qed.

(** A line that the loop over the lines keeps does not end with white
    space, when the raw line has no line boundary and no Chinese
    character. *)
Lemma kept_line_no_trailing_space (raw_line x : str) :
  no_linebreak raw_line = true -> no_cjk raw_line = true ->
  clean_line U raw_line = Some x ->
  no_trailing_space x = true.
Proof.
  intros Hlb Hcjk. unfold clean_line. cbv zeta. fold (line_at_search U raw_line).
  destruct (should_drop_line U (py_rstrip raw_line)); [discriminate|].
  assert (Hx : no_trailing_space (line_at_search U raw_line) = true).
  { rewrite <- (rstrip_no_trailing_space raw_line). apply no_trailing_space_last.
    unfold line_at_search. rewrite collapse_last.
    apply heading_last. now apply forallb_rstrip. }
  assert (Hf : remove_chinese_characters U (line_at_search U raw_line)
               = line_at_search U raw_line).
  { rewrite remove_chinese_characters_filter. apply filter_no_existsb.
    apply forallb_negb_existsb. now apply line_at_search_forallb. }
  rewrite Hf.
  destruct (is_some _); destruct (py_strip _); try discriminate;
    intros H; now injection H as <-.
Qed.

(** X22: no line of the cleaned text of a page ends with white space. *)
Theorem cleaned_text_line_ends (page : Page) :
  Forall (fun l => no_trailing_space l = true) (splitlines (page_cleaned_text U page)).
Proof.
  unfold page_cleaned_text.
  set (r := repaired_page_text U (get_text page)).
  rewrite (filtered_page_text_lines U r).
  pose proof (splitlines_no_linebreak (length r) r (le_n _)) as H1.
  pose proof (splitlines_forallb _ _ r (le_n _) (repaired_page_text_no_cjk U (get_text page)))
    as H2.
  fold r in H2. induction (splitlines r) as [|l rest IH]; [constructor|].
  inversion H1 as [|? ? Hl1 Hr1]; subst. inversion H2 as [|? ? Hl2 Hr2]; subst.
  cbn [keep_lines]. destruct (clean_line U l) as [x|] eqn:E; [|now apply IH].
  constructor; [exact (kept_line_no_trailing_space l x Hl1 Hl2 E) | now apply IH].
Qed.

End LineEnds.

